(** * searcher: the file search engine and its content matchers

    A shallow embedding of [file_searcher.py] (class [FileSearchEngine]) and
    [gpu_search_engine.py] (classes [GPUPatternMatcher] and
    [HybridSearchEngine]).

    - Python [bytes] are lists of [Byte.byte]; Python [str] is a list of code
      points ([N]).
    - A Python call that may raise returns a [res]; the functions of the
      engine live in the monad [M], which also records the file accesses and
      callback invocations a call performs.
    - The regular-expression engine, [fnmatch] and the [os.path] helpers are
      library code: they are the fields of the class [Runtime]. The file
      system is the record [World]. *)

From Stdlib Require Import Strings.String Strings.Ascii Strings.Byte.
From Stdlib Require Import ZArith NArith List Bool Lia Permutation.
Import ListNotations.
Open Scope Z_scope.

Set Implicit Arguments.

(* ================================================================== *)
(** * Python values, exceptions and the effect monad *)
(* ================================================================== *)

Module Py.

Definition str := list N.
Definition bytes := list Byte.byte.

(** The exception classes the engine distinguishes. [PermissionError] and
    [FileNotFoundError] are subclasses of [OSError]; [UnicodeDecodeError] is a
    subclass of [ValueError]; [re_error] is [re.error]; [RuntimeError] stands
    for every other subclass of [Exception]. *)
Inductive exn : Type :=
| PermissionError
| FileNotFoundError
| OSError
| UnicodeDecodeError
| ValueError (msg : str)
| re_error (msg : str)
| RuntimeError.

Definition is_OSError (e : exn) : bool :=
  match e with
  | PermissionError | FileNotFoundError | OSError => true
  | _ => false
  end.

Definition is_ValueError (e : exn) : bool :=
  match e with
  | UnicodeDecodeError | ValueError _ => true
  | _ => false
  end.

Inductive res (A : Type) : Type :=
| Ok (a : A)
| Raise (e : exn).
Arguments Ok {A} a.
Arguments Raise {A} e.

(** What a call does to the outside: the accesses to a file made by the
    content scan, and the steps of the coordinator. *)
Inductive event (R : Type) : Type :=
| EvGetsize (path : str)
| EvRead (path : str) (count : option Z)       (* f.read(n) / f.read() *)
| EvMmap (path : str)
| EvSlice (path : str) (start stop : Z)        (* mmapped[start:stop] *)
| EvWalk (root : str)
| EvSubmit (path : str)
| EvCallback (result : option R) (processed total : Z).
Arguments EvGetsize {R} path.
Arguments EvRead {R} path count.
Arguments EvMmap {R} path.
Arguments EvSlice {R} path start stop.
Arguments EvWalk {R} root.
Arguments EvSubmit {R} path.
Arguments EvCallback {R} result processed total.

Section Monad.
Variable R : Type.

(** A computation: its outcome and the events it performed, oldest first. *)
Definition M (A : Type) : Type := (res A * list (event R))%type.

Definition ret {A} (a : A) : M A := (Ok a, []).
Definition raise {A} (e : exn) : M A := (Raise e, []).
Definition emit (ev : event R) : M unit := (Ok tt, [ev]).
Definition lift {A} (r : res A) : M A := (r, []).

Definition bind {A B} (m : M A) (f : A -> M B) : M B :=
  match m with
  | (Ok a, t) => let '(r, t') := f a in (r, t ++ t')
  | (Raise e, t) => (Raise e, t)
  end.

(** [try: m except <classes>: h] *)
Definition try_except {A} (m : M A) (catches : exn -> bool) (h : exn -> M A) : M A :=
  match m with
  | (Ok a, t) => (Ok a, t)
  | (Raise e, t) =>
      if catches e then let '(r, t') := h e in (r, t ++ t') else (Raise e, t)
  end.

Definition outcome {A} (m : M A) : res A := fst m.
Definition trace {A} (m : M A) : list (event R) := snd m.
End Monad.

Arguments ret {R A} a.
Arguments raise {R A} e.
Arguments emit {R} ev.
Arguments lift {R A} r.
Arguments bind {R A B} m f.
Arguments try_except {R A} m catches h.
Arguments outcome {R A} m.
Arguments trace {R A} m.

Definition Exception (e : exn) : bool := true.

(** ** Strings *)

(** [p in s] for two [str]. *)
Fixpoint startswith (s p : str) : bool :=
  match p, s with
  | [], _ => true
  | _ :: _, [] => false
  | a :: p', b :: s' => N.eqb a b && startswith s' p'
  end.

Fixpoint str_in (p s : str) : bool :=
  startswith s p ||
  match s with
  | [] => false
  | _ :: s' => str_in p s'
  end.

Fixpoint str_eqb (a b : str) : bool :=
  match a, b with
  | [], [] => true
  | x :: a', y :: b' => N.eqb x y && str_eqb a' b'
  | _, _ => false
  end.

(** [s.count(c)] for a one-character [c]. *)
Definition count_char (c : N) (s : str) : Z :=
  Z.of_nat (length (filter (N.eqb c) s)).

(** [s.strip('.')] *)
Fixpoint lstrip_char (c : N) (s : str) : str :=
  match s with
  | [] => []
  | a :: s' => if N.eqb a c then lstrip_char c s' else s
  end.

Definition strip_char (c : N) (s : str) : str :=
  rev (lstrip_char c (rev (lstrip_char c s))).

(** ** bytes.decode('utf-8', errors='ignore')

    The decoder of CPython: a lead byte below 0xC2 or above 0xF4 is an invalid
    start byte (one byte is dropped); a lead byte followed by a byte that
    cannot continue it is an invalid continuation (the bytes before the
    offending one are dropped); a sequence cut by the end of the input is
    dropped whole. Decoding resumes right after what was dropped. *)

Definition is_continuation (b : N) : bool := (N.leb 128 b && N.leb b 191)%N.

Definition cp2 (c1 c2 : N) : N :=
  (N.lor (N.shiftl (N.land c1 31) 6) (N.land c2 63))%N.
Definition cp3 (c1 c2 c3 : N) : N :=
  (N.lor (N.shiftl (N.land c1 15) 12)
         (N.lor (N.shiftl (N.land c2 63) 6) (N.land c3 63)))%N.
Definition cp4 (c1 c2 c3 c4 : N) : N :=
  (N.lor (N.shiftl (N.land c1 7) 18)
         (N.lor (N.shiftl (N.land c2 63) 12)
                (N.lor (N.shiftl (N.land c3 63) 6) (N.land c4 63))))%N.

(** Second byte of a three-byte (resp. four-byte) sequence refused although
    it is a continuation byte: overlong forms, surrogates, above U+10FFFF. *)
Definition bad_second3 (ch ch2 : N) : bool :=
  (if N.ltb ch2 160 then N.eqb ch 224 else N.eqb ch 237)%N.
Definition bad_second4 (ch ch2 : N) : bool :=
  (if N.ltb ch2 144 then N.eqb ch 240 else N.eqb ch 244)%N.

Fixpoint utf8_ignore (s : list N) : str :=
  match s with
  | [] => []
  | ch :: s1 =>
    if N.ltb ch 128 then ch :: utf8_ignore s1
    else if N.ltb ch 194 then utf8_ignore s1
    else if N.ltb ch 224 then
      match s1 with
      | [] => []
      | ch2 :: s2 =>
        if is_continuation ch2 then cp2 ch ch2 :: utf8_ignore s2
        else utf8_ignore s1
      end
    else if N.ltb ch 240 then
      match s1 with
      | [] => []
      | ch2 :: s2 =>
        if negb (is_continuation ch2) || bad_second3 ch ch2 then utf8_ignore s1
        else
          match s2 with
          | [] => []
          | ch3 :: s3 =>
            if is_continuation ch3 then cp3 ch ch2 ch3 :: utf8_ignore s3
            else utf8_ignore s2
          end
      end
    else if N.ltb ch 245 then
      match s1 with
      | [] => []
      | ch2 :: s2 =>
        if negb (is_continuation ch2) || bad_second4 ch ch2 then utf8_ignore s1
        else
          match s2 with
          | [] => []
          | ch3 :: s3 =>
            if negb (is_continuation ch3) then utf8_ignore s2
            else
              match s3 with
              | [] => []
              | ch4 :: s4 =>
                if is_continuation ch4 then cp4 ch ch2 ch3 ch4 :: utf8_ignore s4
                else utf8_ignore s3
              end
          end
      end
    else utf8_ignore s1
  end.

Definition decode_ignore (b : bytes) : str := utf8_ignore (map Byte.to_N b).

(** A string literal of the source file, which is UTF-8 encoded. *)
Definition lit (s : string) : str := decode_ignore (list_byte_of_string s).

(** [b'\x00' in chunk] *)
Definition has_nul (chunk : bytes) : bool := existsb (Byte.eqb x00) chunk.

(** [b[start:stop]] for [0 <= start]. *)
Definition slice {A} (l : list A) (start stop : Z) : list A :=
  firstn (Z.to_nat (stop - start)) (skipn (Z.to_nat start) l).

(** [range(0, stop, step)] for a positive [step]. *)
Fixpoint range_from (n : nat) (start step : Z) : list Z :=
  match n with
  | O => []
  | S n' => start :: range_from n' (start + step) step
  end.

Definition range0 (stop step : Z) : list Z :=
  range_from (Z.to_nat ((stop + step - 1) / step)) 0 step.

(** [range(start, stop)] *)
Definition range (start stop : Z) : list Z :=
  range_from (Z.to_nat (stop - start)) start 1.

(** [a // b]; [ZeroDivisionError] is one of the other exceptions. *)
Definition floordiv (a b : Z) : res Z :=
  if b =? 0 then Raise RuntimeError else Ok (a / b).

(** ** str.encode('utf-8')

    The bytes of each code point, as the values of a [np.uint8] array. A
    surrogate cannot be encoded: [UnicodeEncodeError], a subclass of
    [ValueError]. *)
Definition utf8_encode_char (c : N) : res (list N) :=
  (if c <? 128 then Ok [c]
   else if c <? 2048 then
     Ok [N.lor 192 (N.shiftr c 6); N.lor 128 (N.land c 63)]
   else if c <? 65536 then
     if (55296 <=? c) && (c <=? 57343)
     then Raise (ValueError (lit "surrogates not allowed"))
     else Ok [N.lor 224 (N.shiftr c 12);
              N.lor 128 (N.land (N.shiftr c 6) 63);
              N.lor 128 (N.land c 63)]
   else
     Ok [N.lor 240 (N.shiftr c 18);
         N.lor 128 (N.land (N.shiftr c 12) 63);
         N.lor 128 (N.land (N.shiftr c 6) 63);
         N.lor 128 (N.land c 63)])%N.

Fixpoint utf8_encode (s : str) : res (list N) :=
  match s with
  | [] => Ok []
  | c :: s' =>
    match utf8_encode_char c with
    | Raise e => Raise e
    | Ok a =>
      match utf8_encode s' with
      | Raise e => Raise e
      | Ok b => Ok (a ++ b)
      end
    end
  end.

(** A value of type [np.int32] after an addition. *)
Definition int32 (n : Z) : Z := (n + 2147483648) mod 4294967296 - 2147483648.

End Py.

Import Py.

Declare Scope py_scope.
Delimit Scope py_scope with py.
Notation "x <- m ;; k" := (bind m (fun x => k))
  (at level 61, m at next level, right associativity) : py_scope.
Notation "m ;;; k" := (bind m (fun _ => k))
  (at level 61, right associativity) : py_scope.
Open Scope py_scope.

(* ================================================================== *)
(** * Library code and the file system *)
(* ================================================================== *)

(** A compiled [re.Pattern]: its source text and the [re.IGNORECASE] flag. *)
Record Pattern : Type := { pattern : str; ignorecase : bool }.

(** The library functions the engine calls. *)
Class Runtime : Type := {
  (** [re.compile]: [None] when the text compiles, else the message of the
      [re.error] it raises. *)
  re_syntax_error : str -> option str;
  (** [bool(p.search(text))], or the exception the matcher raises. *)
  re_search : Pattern -> str -> res bool;
  (** [fnmatch.fnmatch(name, pat)] *)
  fnmatch : str -> str -> bool;
  (** [s.lower()] *)
  str_lower : str -> str;
  (** [not s.strip()] *)
  str_isblank : str -> bool;
  (** [os.path.basename(p)], [os.path.splitext(p)[1]], [os.path.join(a, b)] *)
  basename : str -> str;
  splitext_ext : str -> str;
  path_join : str -> str -> str
}.

(** [re.compile(text, flags)] with [flags = 0 if case_sensitive else re.IGNORECASE]. *)
Definition re_compile `{Runtime} (text : str) (case_sensitive : bool) : res Pattern :=
  match re_syntax_error text with
  | Some msg => Raise (re_error msg)
  | None => Ok {| pattern := text; ignorecase := negb case_sensitive |}
  end.

(** A directory as [os.walk] sees it: its name, the names of its files and
    its sub-directories. *)
#[warnings="-register-all"]
Inductive dirtree : Type :=
| Dir (name : str) (files : list str) (subdirs : list dirtree).

Record World : Type := {
  os_path_isfile : str -> bool;
  (** [os.stat(p)]: [(st_size, st_mtime)] *)
  os_stat : str -> res (Z * Z);
  datetime_fromtimestamp : Z -> res Z;
  os_path_getsize : str -> res Z;
  (** [open(p, 'rb')]: the bytes the handle serves, for the [k]-th [open] of
      one scan *)
  open_rb : nat -> str -> res bytes;
  (** [open] followed by [mmap.mmap(f.fileno(), 0, access=ACCESS_READ)] *)
  mmap_read : str -> res bytes;
  (** the directory at the root of a walk, if there is one *)
  listing : str -> option dirtree;
  (** the faults of the device: of [cp.asarray(a)]; of taking the window at
      position [i] and comparing it with the pattern; of [cuda.to_device(a)];
      of launching the CUDA kernel and copying its result back *)
  cp_asarray_fault : list N -> option exn;
  cp_compare_fault : Z -> option exn;
  cuda_to_device_fault : list N -> option exn;
  cuda_kernel_fault : option exn
}.

Definition KiB : Z := 1024.
Definition MiB : Z := 1024 * 1024.

(* ================================================================== *)
(** * gpu_search_engine.py *)
(* ================================================================== *)

(** The module-level flags set by the imports of [cupy] and [numba]. *)
Record GpuLibs : Type := { USE_CUPY : bool; USE_NUMBA : bool }.

Definition GPU_AVAILABLE (l : GpuLibs) : bool := USE_CUPY l || USE_NUMBA l.

Record GPUSearchConfig : Type := {
  batch_size : Z;
  min_file_size_for_gpu : Z;
  max_pattern_complexity : Z;
  cfg_use_gpu : bool;
  threads_per_block : Z
}.

Definition default_config (use_gpu : bool) : GPUSearchConfig :=
  {| batch_size := 64 * 1024 * 1024;
     min_file_size_for_gpu := 1024 * 1024;
     max_pattern_complexity := 10;
     cfg_use_gpu := use_gpu;
     threads_per_block := 256 |}.

Module GPUPatternMatcher.

Record t : Type := { config : GPUSearchConfig; gpu_available : bool }.

Definition unfriendly_constructs : list str :=
  [lit "\1"; lit "\2"; lit "(?="; lit "(?!"; lit "(?<"; lit "(?("; lit "\g<"].

Definition complexity (pat : str) : Z :=
  count_char 40 pat + count_char 91 pat + count_char 123 pat + count_char 92 pat / 2.

Definition is_pattern_gpu_friendly (self : t) (pat : str) : bool :=
  if existsb (fun x => str_in x pat) unfriendly_constructs then false
  else complexity pat <=? max_pattern_complexity (config self).

(** The characters of [r'.*+?[]{}()^$|\\']. *)
Definition special_chars : str := lit ".*+?[]{}()^$|\\".

Definition _is_literal_pattern (pat : str) : bool :=
  negb (existsb (fun c => existsb (N.eqb c) pat) special_chars).

Section Methods.
Context {rt : Runtime} (w : World) (libs : GpuLibs) (R : Type).

Definition _search_cpu (text : bytes) (p : Pattern) : M R bool :=
  try_except (lift (re_search p (decode_ignore text))) Exception (fun _ => ret false).

(** [cp.asarray(a)]: the array on the device, unless the copy faults. *)
Definition cp_asarray (a : list N) : M R (list N) :=
  match cp_asarray_fault w a with
  | Some e => raise e
  | None => ret a
  end.

(** [cp.all(window == pattern_gpu)] for the window taken at position [i]. *)
Definition cp_all_equal (i : Z) (window pattern_gpu : list N) : M R bool :=
  match cp_compare_fault w i with
  | Some e => raise e
  | None => ret (str_eqb window pattern_gpu)
  end.

Section Batch.
Variables (text_gpu pattern_gpu : list N) (pattern_len : Z).

(** The loop [for i in range(start_pos, end_pos)] of
    [_check_positions_batch]. *)
Fixpoint check_positions (positions : list Z) : M R bool :=
  match positions with
  | [] => ret false
  | i :: rest =>
    let window := slice text_gpu i (i + pattern_len) in
    if Z.of_nat (length window) =? pattern_len then
      equal <- cp_all_equal i window pattern_gpu ;;
      if equal then ret true else check_positions rest
    else check_positions rest
  end.

Definition _check_positions_batch (start_pos end_pos : Z) : M R bool :=
  try_except (check_positions (range start_pos end_pos))
             Exception (fun _ => ret false).

(** The loop [for start_pos in range(0, num_positions, batch_size)] of
    [_literal_search_gpu]. *)
Fixpoint search_batches (num_positions batch_size : Z) (starts : list Z) : M R bool :=
  match starts with
  | [] => ret false
  | start_pos :: rest =>
    let end_pos := Z.min (start_pos + batch_size) num_positions in
    found <- _check_positions_batch start_pos end_pos ;;
    if found then ret true else search_batches num_positions batch_size rest
  end.
End Batch.

Definition _literal_search_gpu (text substring : str) : M R bool :=
  try_except
    (text_array <- lift (utf8_encode text) ;;
     pattern_array <- lift (utf8_encode substring) ;;
     text_gpu <- cp_asarray text_array ;;
     pattern_gpu <- cp_asarray pattern_array ;;
     let pattern_len := Z.of_nat (length pattern_array) in
     let text_len := Z.of_nat (length text_array) in
     if pattern_len >? text_len then ret false
     else
       let num_positions := text_len - pattern_len + 1 in
       let batch_size := 10000000 in
       search_batches text_gpu pattern_gpu pattern_len num_positions batch_size
                      (range0 num_positions batch_size))
    Exception (fun _ => ret (str_in substring text)).

(** [cuda.to_device(a)] *)
Definition cuda_to_device (a : list N) : M R (list N) :=
  match cuda_to_device_fault w a with
  | Some e => raise e
  | None => ret a
  end.

(** The CUDA kernel [_cuda_search_kernel_impl], for the thread of position
    [pos]: what it adds to [result[0]]. *)
Definition _cuda_search_kernel_impl (text pattern : list N) (text_len pattern_len : Z)
    (pos : Z) : Z :=
  if pos <? text_len - pattern_len + 1 then
    if forallb (fun i => N.eqb (nth (Z.to_nat (pos + i)) text 0%N)
                               (nth (Z.to_nat i) pattern 0%N))
               (range 0 pattern_len)
    then 1 else 0
  else 0.

(** [kernel[blocks_per_grid, threads_per_block](...)] followed by
    [d_result.copy_to_host(result)]: the value of [result[0]] once every
    thread of the grid has run. *)
Definition cuda_launch (blocks_per_grid threads_per_block : Z) (kernel : Z -> Z) : M R Z :=
  match cuda_kernel_fault w with
  | Some e => raise e
  | None =>
    ret (fold_left (fun result pos => int32 (result + kernel pos))
                   (range 0 (blocks_per_grid * threads_per_block)) 0)
  end.

Definition _run_cuda_kernel (self : t) (text pattern : list N) : M R bool :=
  if negb (USE_NUMBA libs) then ret false
  else
    try_except
      (let text_len := Z.of_nat (length text) in
       let pattern_len := Z.of_nat (length pattern) in
       if pattern_len >? text_len then ret false
       else
         let num_positions := text_len - pattern_len + 1 in
         d_text <- cuda_to_device text ;;
         d_pattern <- cuda_to_device pattern ;;
         cuda_to_device [0%N] ;;;
         let threads_per_block := threads_per_block (config self) in
         blocks_per_grid <-
           lift (floordiv (num_positions + threads_per_block - 1) threads_per_block) ;;
         result <- cuda_launch blocks_per_grid threads_per_block
                     (_cuda_search_kernel_impl d_text d_pattern text_len pattern_len) ;;
         ret (result >? 0))
      Exception (fun _ => ret false).

Definition _literal_search_numba (self : t) (text substring : str) : M R bool :=
  try_except
    (text_array <- lift (utf8_encode text) ;;
     pattern_array <- lift (utf8_encode substring) ;;
     _run_cuda_kernel self text_array pattern_array)
    Exception (fun _ => ret (str_in substring text)).

Definition _search_cupy (text : bytes) (p : Pattern) : M R bool :=
  try_except
    (let text_str := decode_ignore text in
     let pattern_str := pattern p in
     if _is_literal_pattern pattern_str then _literal_search_gpu text_str pattern_str
     else _search_cpu text p)
    Exception (fun _ => _search_cpu text p).

Definition _search_numba (self : t) (text : bytes) (p : Pattern) : M R bool :=
  try_except
    (let text_str := decode_ignore text in
     let pattern_str := pattern p in
     if _is_literal_pattern pattern_str then _literal_search_numba self text_str pattern_str
     else _search_cpu text p)
    Exception (fun _ => _search_cpu text p).

Definition search_in_text_gpu (self : t) (text : bytes) (p : Pattern) : M R bool :=
  if negb (gpu_available self)
     || (Z.of_nat (length text) <? min_file_size_for_gpu (config self)) then
    _search_cpu text p
  else
    let pattern_str := pattern p in
    if negb (is_pattern_gpu_friendly self pattern_str) then _search_cpu text p
    else
      try_except
        (if USE_CUPY libs then _search_cupy text p
         else if USE_NUMBA libs then _search_numba self text p
         else _search_cpu text p)
        Exception (fun _ => _search_cpu text p).

End Methods.
End GPUPatternMatcher.

Module HybridSearchEngine.

Record t : Type := {
  config : GPUSearchConfig;
  gpu_matcher : GPUPatternMatcher.t
}.

(** [HybridSearchEngine(use_gpu)]; the initialisation of the device is taken
    to succeed. *)
Definition init (libs : GpuLibs) (use_gpu : bool) : t :=
  let cfg := default_config use_gpu in
  {| config := cfg;
     gpu_matcher := {| GPUPatternMatcher.config := cfg;
                       GPUPatternMatcher.gpu_available := GPU_AVAILABLE libs && use_gpu |} |}.

Section Methods.
Context {rt : Runtime} (w : World) (libs : GpuLibs) (R : Type).

Definition search_in_file (self : t) (file_path : str) (p : Pattern) : M R bool :=
  try_except
    (emit (EvGetsize file_path) ;;;
     file_size <- lift (os_path_getsize w file_path) ;;
     if file_size >? 100 * 1024 * 1024 then ret false
     else
       let use_gpu :=
         cfg_use_gpu (config self)
         && (min_file_size_for_gpu (config self) <=? file_size)
         && GPUPatternMatcher.gpu_available (gpu_matcher self) in
       emit (EvRead file_path (Some 8192)) ;;;
       f <- lift (open_rb w 0 file_path) ;;
       let chunk := firstn (Z.to_nat 8192) f in
       if has_nul chunk then ret false
       else if file_size <? 1024 * 1024 then
         try_except
           (text <- (if Z.of_nat (length chunk) =? file_size then ret chunk
                     else emit (EvRead file_path None) ;;;
                          ret (skipn (Z.to_nat 8192) f)) ;;
            lift (re_search p (decode_ignore text)))
           Exception (fun _ => ret false)
       else
         emit (EvMmap file_path) ;;;
         data <- lift (mmap_read w file_path) ;;
         if use_gpu then
           GPUPatternMatcher.search_in_text_gpu w libs R (gpu_matcher self) data p
         else
           try_except (lift (re_search p (decode_ignore data)))
                      Exception (fun _ => ret false))
    (fun e => is_OSError e || is_ValueError e) (fun _ => ret false).

End Methods.
End HybridSearchEngine.

(* ================================================================== *)
(** * file_searcher.py *)
(* ================================================================== *)

Record SearchResult : Type := {
  path : str;
  size : Z;
  modified : Z;
  match_reason : str
}.

(** Truth value of an [int], of an [Optional[int]], of a [str] and of a list. *)
Definition truthy_int (n : Z) : bool := negb (n =? 0).
Definition truthy_opt_int (n : option Z) : bool :=
  match n with Some n => truthy_int n | None => false end.
Definition truthy_list {A} (l : list A) : bool :=
  match l with [] => false | _ :: _ => true end.
Definition truthy_opt_list {A} (l : option (list A)) : bool :=
  match l with Some l => truthy_list l | None => false end.

(** The keyword arguments of [search]. *)
Record SearchArgs : Type := {
  root_path : str;
  name_pattern : str;
  extensions : option (list str);
  content_regex : option str;
  min_size : Z;
  max_size : option Z;
  modified_after : option Z;
  modified_before : option Z;
  case_sensitive : bool;
  use_regex_name : bool
}.

(** The progress callback handed to [search]. *)
Definition Callback : Type := option SearchResult -> Z -> Z -> res unit.

Module FileSearchEngine.

Record t : Type := {
  max_workers : Z;
  stop_flag : bool;
  use_gpu : bool;
  gpu_engine : option HybridSearchEngine.t
}.

(** [FileSearchEngine(max_workers, use_gpu)]; [cpu_count] is [os.cpu_count()]
    and [GPU_SUPPORT] tells whether [gpu_search_engine] could be imported. *)
Definition init (libs : GpuLibs) (GPU_SUPPORT : bool) (cpu_count : option Z)
                (max_workers : option Z) (use_gpu : bool) : t :=
  let use := use_gpu && GPU_SUPPORT in
  {| max_workers :=
       if truthy_opt_int max_workers then match max_workers with Some n => n | None => 4 end
       else if truthy_opt_int cpu_count then match cpu_count with Some n => n | None => 4 end
       else 4;
     stop_flag := false;
     use_gpu := use;
     gpu_engine := if use then Some (HybridSearchEngine.init libs true) else None |}.

Definition stop (self : t) : t :=
  {| max_workers := max_workers self; stop_flag := true;
     use_gpu := use_gpu self; gpu_engine := gpu_engine self |}.

Definition clear (self : t) : t :=
  {| max_workers := max_workers self; stop_flag := false;
     use_gpu := use_gpu self; gpu_engine := gpu_engine self |}.

Definition dangerous : list str :=
  [lit "[\s\S]*"; lit "[\s\S]+";
   lit "[\w\W]*"; lit "[\w\W]+";
   lit "[\d\D]*"; lit "[\d\D]+";
   lit ".*?"; lit ".+?"].

Definition _is_dangerous_pattern (p : Pattern) : bool :=
  let pattern_str := pattern p in
  existsb (fun danger => str_in danger pattern_str) dangerous.

Section Methods.
Context {rt : Runtime} (w : World) (libs : GpuLibs).

Let M := M SearchResult.

Section Scan.
Variables (self : t) (file_path : str) (p : Pattern) (mmapped : bytes)
          (file_size chunk_size : Z).

(** The loop over [range(0, file_size, chunk_size)]. *)
Fixpoint scan_chunks (offsets : list Z) : M bool :=
  match offsets with
  | [] => ret false
  | offset :: rest =>
    if stop_flag self then ret false
    else
      let overlap := 1024 in
      let start := Z.max 0 (offset - overlap) in
      let stop := Z.min file_size (offset + chunk_size) in
      emit (EvSlice file_path start stop) ;;;
      let chunk_bytes := slice mmapped start stop in
      let text := decode_ignore chunk_bytes in
      hit <- try_except (lift (re_search p text)) Exception (fun _ => ret false) ;;
      if hit then ret true else scan_chunks rest
  end.
End Scan.

Definition _search_in_file (self : t) (file_path : str) (p : Pattern) : M bool :=
  try_except
    (if stop_flag self then ret false
     else
       match use_gpu self, gpu_engine self with
       | true, Some engine => HybridSearchEngine.search_in_file w libs SearchResult engine file_path p
       | _, _ =>
         emit (EvGetsize file_path) ;;;
         file_size <- lift (os_path_getsize w file_path) ;;
         if file_size >? 100 * 1024 * 1024 then ret false
         else
           emit (EvRead file_path (Some 8192)) ;;;
           f <- lift (open_rb w 0 file_path) ;;
           let chunk := firstn (Z.to_nat 8192) f in
           if has_nul chunk then ret false
           else if Z.of_nat (length chunk) <? 8192 then
             try_except (lift (re_search p (decode_ignore chunk)))
                        Exception (fun _ => ret false)
           else
             let safe_limit :=
               if _is_dangerous_pattern p then 1 * 1024 * 1024 else 5 * 1024 * 1024 in
             if file_size <=? safe_limit then
               emit (EvRead file_path None) ;;;
               content <- lift (open_rb w 1 file_path) ;;
               let text := decode_ignore content in
               if stop_flag self then ret false
               else try_except (lift (re_search p text)) Exception (fun _ => ret false)
             else
               emit (EvMmap file_path) ;;;
               mmapped <- lift (mmap_read w file_path) ;;
               let chunk_size :=
                 if _is_dangerous_pattern p then 512 * 1024 else 5 * 1024 * 1024 in
               scan_chunks self file_path p mmapped file_size chunk_size
                           (range0 file_size chunk_size)
       end)
    Exception (fun _ => ret false).

Definition _check_file (self : t) (file_path name_pattern : str)
    (name_regex : option Pattern) (extensions : option (list str))
    (content_pattern : option Pattern) (min_size : Z) (max_size : option Z)
    (modified_after modified_before : option Z)
    (case_sensitive use_regex_name : bool) : M (option SearchResult) :=
  try_except
    (if stop_flag self then ret None
     else if negb (os_path_isfile w file_path) then ret None
     else
       let filename := basename file_path in
       name_ok <-
         match use_regex_name, name_regex with
         | true, Some name_regex => lift (re_search name_regex filename)
         | _, _ =>
           if negb (str_eqb name_pattern (lit "*")) then
             if case_sensitive then ret (fnmatch filename name_pattern)
             else ret (fnmatch (str_lower filename) (str_lower name_pattern))
           else ret true
         end ;;
       if negb name_ok then ret None
       else
         let ext_ok :=
           match extensions with
           | Some ((_ :: _) as exts) =>
             let file_ext := strip_char 46 (str_lower (splitext_ext filename)) in
             existsb (str_eqb file_ext) exts
           | _ => true
           end in
         if negb ext_ok then ret None
         else
           stat <- lift (os_stat w file_path) ;;
           let file_size := fst stat in
           file_modified <- lift (datetime_fromtimestamp w (snd stat)) ;;
           if truthy_int min_size && (file_size <? min_size) then ret None
           else if match max_size with
                   | Some m => truthy_int m && (file_size >? m)
                   | None => false
                   end then ret None
           else if match modified_after with
                   | Some a => file_modified <? a
                   | None => false
                   end then ret None
           else if match modified_before with
                   | Some b => file_modified >? b
                   | None => false
                   end then ret None
           else
             match content_pattern with
             | Some content_pattern =>
               found <- _search_in_file self file_path content_pattern ;;
               if negb found then ret None
               else ret (Some {| path := file_path; size := file_size;
                                 modified := file_modified;
                                 match_reason := lit "Содержимое файла" |})
             | None =>
               ret (Some {| path := file_path; size := file_size;
                            modified := file_modified;
                            match_reason := lit "Имя файла" |})
             end)
    is_OSError (fun _ => ret None).

(** [os.walk(root)] with the hidden directories pruned: the paths appended to
    [files_to_check], in the order of the walk. [os.walk] skips what it
    cannot list, so the [except PermissionError] around the loop has nothing
    to catch. *)
Fixpoint walk (self : t) (root : str) (d : dirtree) : list str :=
  match d with
  | Dir _ files subdirs =>
    if stop_flag self then []
    else
      map (path_join root) files ++
      (fix walk_dirs (ds : list dirtree) : list str :=
         match ds with
         | [] => []
         | (Dir name _ _ as sub) :: ds' =>
           (if startswith name (lit ".") then []
            else walk self (path_join root name) sub) ++ walk_dirs ds'
         end) subdirs
  end.

Definition call (callback : option Callback) (result : option SearchResult)
                (processed total : Z) : M unit :=
  match callback with
  | None => ret tt
  | Some cb => emit (EvCallback result processed total) ;;; lift (cb result processed total)
  end.

Section Collect.
Variables (self : t) (callback : option Callback) (total_files : Z).

(** The loop over [as_completed(futures)]: each future holds what
    [_check_file] returned or raised. *)
Fixpoint collect (futures : list (res (option SearchResult))) (processed : Z)
                 (results : list SearchResult) : M (list SearchResult) :=
  match futures with
  | [] => ret results
  | future :: rest =>
    if stop_flag self then ret results
    else
      results' <-
        match future with
        | Ok (Some result) =>
          try_except (call callback (Some result) processed total_files)
                     Exception (fun _ => ret tt) ;;;
          ret (results ++ [result])
        | Ok None => ret results
        | Raise _ => ret results
        end ;;
      let processed := processed + 1 in
      (if match callback with Some _ => true | None => false end
          && (processed mod 100 =? 0)
       then call callback None processed total_files else ret tt) ;;;
      collect rest processed results'
  end.
End Collect.

(** [search]. The pool runs [_check_file] on every candidate; [completion]
    is the order in which [as_completed] hands the futures back. *)
Definition search (self : t) (a : SearchArgs) (callback : option Callback)
                  (completion : list str -> list str) : M (list SearchResult) :=
  let self := clear self in
  content_pattern <-
    match content_regex a with
    | Some ((_ :: _) as content_regex) =>
      try_except
        (c <- lift (re_compile content_regex (case_sensitive a)) ;; ret (Some c))
        (fun e => match e with re_error _ => true | _ => false end)
        (fun e => match e with
                  | re_error msg => raise (ValueError (lit "Ошибка в регулярном выражении: " ++ msg))
                  | _ => raise e
                  end)
    | _ => ret None
    end ;;
  name_regex <-
    (if use_regex_name a && negb (str_eqb (name_pattern a) (lit "*")) then
       try_except
         (c <- lift (re_compile (name_pattern a) (case_sensitive a)) ;; ret (Some c))
         (fun e => match e with re_error _ => true | _ => false end)
         (fun e => match e with
                   | re_error msg =>
                     raise (ValueError (lit "Ошибка в регулярном выражении имени: " ++ msg))
                   | _ => raise e
                   end)
     else ret None) ;;
  let extensions :=
    if truthy_opt_list (extensions a) then
      match extensions a with
      | Some exts =>
        Some (map (fun ext => strip_char 46 (str_lower ext))
                  (filter (fun ext => negb (str_isblank ext)) exts))
      | None => None
      end
    else extensions a in
  emit (EvWalk (root_path a)) ;;;
  let files_to_check :=
    match listing w (root_path a) with
    | Some d => walk self (root_path a) d
    | None => []
    end in
  let total_files := Z.of_nat (length files_to_check) in
  (* ThreadPoolExecutor(max_workers=...) refuses a pool without workers *)
  if max_workers self <=? 0 then raise (ValueError (lit "max_workers must be greater than 0"))
  else
    fold_right (fun file_path k => emit (EvSubmit file_path) ;;; k) (ret tt) files_to_check ;;;
    let future file_path :=
      outcome (_check_file self file_path (name_pattern a) name_regex extensions
                           content_pattern (min_size a) (max_size a)
                           (modified_after a) (modified_before a)
                           (case_sensitive a) (use_regex_name a)) in
    collect self callback total_files (map future (completion files_to_check)) 0 [].

End Methods.
End FileSearchEngine.

(* ================================================================== *)
(** * file_searcher_CPUsearcher.py *)
(* ================================================================== *)

(** The earlier, CPU-only engine: a worker does not look at the stop flag,
    and a file of 8 KiB or more is mapped and matched in one piece. *)
Module CPUsearcher.

Section Methods.
Context {rt : Runtime} (w : World).

Let M := M SearchResult.

Definition _search_in_file (file_path : str) (p : Pattern) : M bool :=
  try_except
    (emit (EvGetsize file_path) ;;;
     file_size <- lift (os_path_getsize w file_path) ;;
     if file_size >? 100 * 1024 * 1024 then ret false
     else
       emit (EvRead file_path (Some 8192)) ;;;
       f <- lift (open_rb w 0 file_path) ;;
       let chunk := firstn (Z.to_nat 8192) f in
       if has_nul chunk then ret false
       else if Z.of_nat (length chunk) <? 8192 then
         try_except (lift (re_search p (decode_ignore chunk)))
                    Exception (fun _ => ret false)
       else
         emit (EvMmap file_path) ;;;
         mmapped <- lift (mmap_read w file_path) ;;
         lift (re_search p (decode_ignore mmapped)))
    (fun e => is_OSError e || is_ValueError e) (fun _ => ret false).

Definition _check_file (file_path name_pattern : str)
    (name_regex : option Pattern) (extensions : option (list str))
    (content_pattern : option Pattern) (min_size : Z) (max_size : option Z)
    (modified_after modified_before : option Z)
    (case_sensitive use_regex_name : bool) : M (option SearchResult) :=
  try_except
    (if negb (os_path_isfile w file_path) then ret None
     else
       let filename := basename file_path in
       name_ok <-
         match use_regex_name, name_regex with
         | true, Some name_regex => lift (re_search name_regex filename)
         | _, _ =>
           if negb (str_eqb name_pattern (lit "*")) then
             if case_sensitive then ret (fnmatch filename name_pattern)
             else ret (fnmatch (str_lower filename) (str_lower name_pattern))
           else ret true
         end ;;
       if negb name_ok then ret None
       else
         let ext_ok :=
           match extensions with
           | Some ((_ :: _) as exts) =>
             let file_ext := strip_char 46 (str_lower (splitext_ext filename)) in
             existsb (str_eqb file_ext) exts
           | _ => true
           end in
         if negb ext_ok then ret None
         else
           stat <- lift (os_stat w file_path) ;;
           let file_size := fst stat in
           file_modified <- lift (datetime_fromtimestamp w (snd stat)) ;;
           if truthy_int min_size && (file_size <? min_size) then ret None
           else if match max_size with
                   | Some m => truthy_int m && (file_size >? m)
                   | None => false
                   end then ret None
           else if match modified_after with
                   | Some a => file_modified <? a
                   | None => false
                   end then ret None
           else if match modified_before with
                   | Some b => file_modified >? b
                   | None => false
                   end then ret None
           else
             match content_pattern with
             | Some content_pattern =>
               found <- _search_in_file file_path content_pattern ;;
               if negb found then ret None
               else ret (Some {| path := file_path; size := file_size;
                                 modified := file_modified;
                                 match_reason := lit "Содержимое файла" |})
             | None =>
               ret (Some {| path := file_path; size := file_size;
                            modified := file_modified;
                            match_reason := lit "Имя файла" |})
             end)
    is_OSError (fun _ => ret None).

End Methods.
End CPUsearcher.

(* ================================================================== *)
(** * The predicates of the filter, as the specification names them *)
(* ================================================================== *)

Section Predicates.
Context {rt : Runtime} (w : World) (libs : GpuLibs).

(** Name predicate: regex [search] on the file name when a name regex is in
    use, else a wildcard match unless the pattern is ["*"]. *)
Definition passes_name (file_path name_pattern : str) (name_regex : option Pattern)
    (case_sensitive use_regex_name : bool) : res bool :=
  let filename := basename file_path in
  match use_regex_name, name_regex with
  | true, Some name_regex => re_search name_regex filename
  | _, _ =>
    if str_eqb name_pattern (lit "*") then Ok true
    else if case_sensitive then Ok (fnmatch filename name_pattern)
    else Ok (fnmatch (str_lower filename) (str_lower name_pattern))
  end.

(** Extension predicate: the lower-case extension without its dot is one of
    the configured ones; no filtering when none is configured. *)
Definition passes_extension (file_path : str) (extensions : option (list str)) : bool :=
  match extensions with
  | None | Some [] => true
  | Some exts =>
    existsb (str_eqb (strip_char 46 (str_lower (splitext_ext (basename file_path))))) exts
  end.

(** Size-range predicate; a bound that is zero or absent does not apply. *)
Definition passes_size (min_size : Z) (max_size : option Z) (file_size : Z) : bool :=
  ((min_size =? 0) || (min_size <=? file_size))
  && match max_size with
     | None => true
     | Some m => (m =? 0) || (file_size <=? m)
     end.

(** Modification-time predicate, inclusive at both bounds. *)
Definition passes_mtime (modified_after modified_before : option Z) (file_modified : Z) : bool :=
  match modified_after with None => true | Some a => a <=? file_modified end
  && match modified_before with None => true | Some b => file_modified <=? b end.

(** Content predicate: no content pattern, or the scan reports a match. *)
Definition passes_content (self : FileSearchEngine.t) (file_path : str)
    (content_pattern : option Pattern) : bool :=
  match content_pattern with
  | None => true
  | Some cp =>
    match outcome (FileSearchEngine._search_in_file w libs self file_path cp) with
    | Ok true => true
    | _ => false
    end
  end.

Definition reason (content_pattern : option Pattern) : str :=
  match content_pattern with
  | Some _ => lit "Содержимое файла"
  | None => lit "Имя файла"
  end.

(** What an exception does to [_check_file]: the OS-level ones are turned
    into [None], the others leave the function. *)
Definition absorbed {A} (e : exn) : res (option A) :=
  if is_OSError e then Ok None else Raise e.

(** The outcome of [_check_file], predicate by predicate. *)
Definition check_file_outcome (self : FileSearchEngine.t) (file_path name_pattern : str)
    (name_regex : option Pattern) (extensions : option (list str))
    (content_pattern : option Pattern) (min_size : Z) (max_size : option Z)
    (modified_after modified_before : option Z)
    (case_sensitive use_regex_name : bool) : res (option SearchResult) :=
  if FileSearchEngine.stop_flag self then Ok None
  else if negb (os_path_isfile w file_path) then Ok None
  else
    match passes_name file_path name_pattern name_regex case_sensitive use_regex_name with
    | Raise e => absorbed e
    | Ok false => Ok None
    | Ok true =>
      if negb (passes_extension file_path extensions) then Ok None
      else
        match os_stat w file_path with
        | Raise e => absorbed e
        | Ok (file_size, mtime) =>
          match datetime_fromtimestamp w mtime with
          | Raise e => absorbed e
          | Ok file_modified =>
            if passes_size min_size max_size file_size
               && passes_mtime modified_after modified_before file_modified
               && passes_content self file_path content_pattern
            then Ok (Some {| path := file_path; size := file_size;
                             modified := file_modified;
                             match_reason := reason content_pattern |})
            else Ok None
          end
        end
    end.

(** The file passes every predicate of the filter. *)
Definition file_matches (self : FileSearchEngine.t) (file_path name_pattern : str)
    (name_regex : option Pattern) (extensions : option (list str))
    (content_pattern : option Pattern) (min_size : Z) (max_size : option Z)
    (modified_after modified_before : option Z)
    (case_sensitive use_regex_name : bool) : Prop :=
  os_path_isfile w file_path = true
  /\ passes_name file_path name_pattern name_regex case_sensitive use_regex_name = Ok true
  /\ passes_extension file_path extensions = true
  /\ exists file_size mtime file_modified,
       os_stat w file_path = Ok (file_size, mtime)
       /\ datetime_fromtimestamp w mtime = Ok file_modified
       /\ passes_size min_size max_size file_size = true
       /\ passes_mtime modified_after modified_before file_modified = true
       /\ passes_content self file_path content_pattern = true.

(** What [search] derives from its arguments before the walk. *)
Definition content_compile_error (a : SearchArgs) : option str :=
  match content_regex a with
  | Some ((_ :: _) as text) => re_syntax_error text
  | _ => None
  end.

Definition name_compile_error (a : SearchArgs) : option str :=
  if use_regex_name a && negb (str_eqb (name_pattern a) (lit "*"))
  then re_syntax_error (name_pattern a) else None.

Definition content_pattern_of (a : SearchArgs) : option Pattern :=
  match content_regex a with
  | Some ((_ :: _) as text) =>
    Some {| pattern := text; ignorecase := negb (case_sensitive a) |}
  | _ => None
  end.

Definition name_regex_of (a : SearchArgs) : option Pattern :=
  if use_regex_name a && negb (str_eqb (name_pattern a) (lit "*"))
  then Some {| pattern := name_pattern a; ignorecase := negb (case_sensitive a) |}
  else None.

Definition extensions_of (a : SearchArgs) : option (list str) :=
  match extensions a with
  | Some ((_ :: _) as exts) =>
    Some (map (fun ext => strip_char 46 (str_lower ext))
              (filter (fun ext => negb (str_isblank ext)) exts))
  | other => other
  end.

(** The candidate paths: what the walk of the root yields. *)
Definition candidates (self : FileSearchEngine.t) (a : SearchArgs) : list str :=
  match listing w (root_path a) with
  | Some d => FileSearchEngine.walk (FileSearchEngine.clear self) (root_path a) d
  | None => []
  end.

(** What the worker given [file_path] hands back. *)
Definition future_of (self : FileSearchEngine.t) (a : SearchArgs) (file_path : str)
  : res (option SearchResult) :=
  outcome (FileSearchEngine._check_file w libs (FileSearchEngine.clear self) file_path
             (name_pattern a) (name_regex_of a) (extensions_of a) (content_pattern_of a)
             (min_size a) (max_size a) (modified_after a) (modified_before a)
             (case_sensitive a) (use_regex_name a)).

Definition matches_search (self : FileSearchEngine.t) (a : SearchArgs) (file_path : str) : Prop :=
  file_matches (FileSearchEngine.clear self) file_path
    (name_pattern a) (name_regex_of a) (extensions_of a) (content_pattern_of a)
    (min_size a) (max_size a) (modified_after a) (modified_before a)
    (case_sensitive a) (use_regex_name a).

End Predicates.

(** The results a list of completed futures holds, in order. *)
Definition matches_of (futures : list (res (option SearchResult))) : list SearchResult :=
  flat_map (fun future => match future with Ok (Some r) => [r] | _ => [] end) futures.

(** The callback invocations the specification asks for: one per completion
    that produced a result, with the count of the completions before it, and
    a heartbeat after every hundredth completion. *)
Fixpoint callback_events (total : Z) (futures : list (res (option SearchResult)))
         (processed : Z) : list (event SearchResult) :=
  match futures with
  | [] => []
  | future :: rest =>
    match future with
    | Ok (Some r) => [EvCallback (Some r) processed total]
    | _ => []
    end ++
    (if (processed + 1) mod 100 =? 0 then [EvCallback None (processed + 1) total] else []) ++
    callback_events total rest (processed + 1)
  end.

(** The results handed to the callback, in the order of the invocations. *)
Definition reported (t : list (event SearchResult)) : list SearchResult :=
  flat_map (fun ev => match ev with EvCallback (Some r) _ _ => [r] | _ => [] end) t.

(** ** The tiers of the CPU content scan, as the specification names them *)

Section Tiers.
Context {rt : Runtime}.

(** The safe full-read threshold and the chunk size chosen for a pattern. *)
Definition safe_limit (p : Pattern) : Z :=
  if FileSearchEngine._is_dangerous_pattern p then 1 * MiB else 5 * MiB.

Definition chunk_size (p : Pattern) : Z :=
  if FileSearchEngine._is_dangerous_pattern p then 512 * KiB else 5 * MiB.

(** One application of the pattern: a match, or not (also when the matcher
    raises). *)
Definition hit (p : Pattern) (text : str) : bool :=
  match re_search p text with
  | Ok b => b
  | Raise _ => false
  end.

(** The chunk of nominal offset [offset]: it starts 1 KiB earlier (but not
    before the start of the file) and ends one chunk size later (but not
    after the end of the file). *)
Definition chunk_start (offset : Z) : Z := Z.max 0 (offset - 1 * KiB).
Definition chunk_stop (p : Pattern) (file_size offset : Z) : Z :=
  Z.min file_size (offset + chunk_size p).

Definition chunk_text (p : Pattern) (content : bytes) (file_size offset : Z) : str :=
  decode_ignore (slice content (chunk_start offset) (chunk_stop p file_size offset)).

(** The nominal offsets visited: up to the first chunk that matches. *)
Fixpoint visited (f : Z -> bool) (offsets : list Z) : list Z :=
  match offsets with
  | [] => []
  | offset :: rest => offset :: if f offset then [] else visited f rest
  end.

End Tiers.

(** One step of the decoder: the code points it produces and the input left. *)
Definition utf8_step (s : list N) : list N * list N :=
  match s with
  | [] => ([], [])
  | ch :: s1 =>
    if N.ltb ch 128 then ([ch], s1)
    else if N.ltb ch 194 then ([], s1)
    else if N.ltb ch 224 then
      match s1 with
      | [] => ([], [])
      | ch2 :: s2 =>
        if is_continuation ch2 then ([cp2 ch ch2], s2) else ([], s1)
      end
    else if N.ltb ch 240 then
      match s1 with
      | [] => ([], [])
      | ch2 :: s2 =>
        if negb (is_continuation ch2) || bad_second3 ch ch2 then ([], s1)
        else
          match s2 with
          | [] => ([], [])
          | ch3 :: s3 =>
            if is_continuation ch3 then ([cp3 ch ch2 ch3], s3) else ([], s2)
          end
      end
    else if N.ltb ch 245 then
      match s1 with
      | [] => ([], [])
      | ch2 :: s2 =>
        if negb (is_continuation ch2) || bad_second4 ch ch2 then ([], s1)
        else
          match s2 with
          | [] => ([], [])
          | ch3 :: s3 =>
            if negb (is_continuation ch3) then ([], s2)
            else
              match s3 with
              | [] => ([], [])
              | ch4 :: s4 =>
                if is_continuation ch4 then ([cp4 ch ch2 ch3 ch4], s4) else ([], s3)
              end
          end
      end
    else ([], s1)
  end.

(** The input starts where a new sequence can start: it is empty, or its
    first byte is no continuation byte. *)
Definition starts_afresh (y : list N) : Prop :=
  match y with
  | [] => True
  | b :: _ => is_continuation b = false
  end.

(** A byte of the ASCII range. *)
Definition is_ascii (b : Byte.byte) : bool := N.ltb (Byte.to_N b) 128.

(** A byte that occurs in no UTF-8 sequence: 0xC0, 0xC1 and 0xF5 to 0xFF. *)
Definition never_valid (b : Byte.byte) : bool :=
  let n := Byte.to_N b in
  (N.eqb n 192 || N.eqb n 193 || N.leb 245 n)%N.


(* ================================================================== *)
(** * A library and a file system to run the engine on *)
(* ================================================================== *)

Module Example.

(** The regular expressions made of ordinary characters and of escaped
    punctuation: such a pattern matches the text it spells, anywhere. *)
Fixpoint unescape (p : str) : str :=
  match p with
  | [] => []
  | c :: p' =>
    if N.eqb c 92 then
      match p' with
      | [] => []
      | c' :: p'' => c' :: unescape p''
      end
    else c :: unescape p'
  end.

Definition lower_char (c : N) : N :=
  if (N.leb 65 c && N.leb c 90)%N then (c + 32)%N else c.

Definition fold_case (ignore : bool) (s : str) : str :=
  if ignore then map lower_char s else s.

Fixpoint after_last (sep : N) (s : str) : option str :=
  match s with
  | [] => None
  | c :: s' =>
    match after_last sep s' with
    | Some t => Some t
    | None => if N.eqb c sep then Some s' else None
    end
  end.

#[export] Instance plain : Runtime := {|
  re_syntax_error p :=
    if str_eqb p (lit "(")
    then Some (lit "missing ), unterminated subpattern at position 0")
    else None;
  re_search p text :=
    Ok (str_in (fold_case (ignorecase p) (unescape (pattern p)))
               (fold_case (ignorecase p) text));
  fnmatch name pat := str_eqb name pat;
  str_lower := map lower_char;
  str_isblank s := forallb (N.eqb 32) s;
  basename p := match after_last 47 p with Some t => t | None => p end;
  splitext_ext p :=
    match p with
    | [] => []
    | _ :: rest =>
      match after_last 46 rest with Some t => 46%N :: t | None => [] end
    end;
  path_join a b := a ++ 47%N :: b
|}.

(** A directory [root] that holds the given files and nothing else; every
    file is readable and was modified at time [mtime]. *)
Definition find (root : str) (files : list (str * bytes)) (p : str) : option bytes :=
  match filter (fun f => str_eqb (path_join root (fst f)) p) files with
  | f :: _ => Some (snd f)
  | [] => None
  end.

Definition read (root : str) (files : list (str * bytes)) (p : str) : res bytes :=
  match find root files p with
  | Some b => Ok b
  | None => Raise FileNotFoundError
  end.

Definition world (root : str) (files : list (str * bytes)) (mtime : Z) : World := {|
  os_path_isfile p := match find root files p with Some _ => true | None => false end;
  os_stat p :=
    match find root files p with
    | Some b => Ok (Z.of_nat (length b), mtime)
    | None => Raise FileNotFoundError
    end;
  datetime_fromtimestamp t := Ok t;
  os_path_getsize p :=
    match find root files p with
    | Some b => Ok (Z.of_nat (length b))
    | None => Raise FileNotFoundError
    end;
  open_rb _ p := read root files p;
  mmap_read p := read root files p;
  listing r := if str_eqb r root then Some (Dir root (map fst files) []) else None;
  cp_asarray_fault _ := None;
  cp_compare_fault _ := None;
  cuda_to_device_fault _ := None;
  cuda_kernel_fault := None
|}.

Definition no_gpu : GpuLibs := {| USE_CUPY := false; USE_NUMBA := false |}.
Definition cupy : GpuLibs := {| USE_CUPY := true; USE_NUMBA := false |}.

(** [FileSearchEngine(max_workers=4)] and [FileSearchEngine(4, use_gpu=True)]
    on a machine with CuPy. *)
Definition cpu_engine : FileSearchEngine.t :=
  FileSearchEngine.init no_gpu false (Some 4) (Some 4) false.
Definition gpu_engine : FileSearchEngine.t :=
  FileSearchEngine.init cupy true (Some 4) (Some 4) true.

Definition ascii_bytes (s : string) : bytes := list_byte_of_string s.

Definition default_args (root : str) : SearchArgs := {|
  root_path := root; name_pattern := lit "*"; extensions := None;
  content_regex := None; min_size := 0; max_size := None;
  modified_after := None; modified_before := None;
  case_sensitive := false; use_regex_name := false
|}.

(** A directory [d] with one text file, one file with an invalid byte and
    one binary file. *)
Definition root : str := lit "d".
Definition a_txt : str := path_join root (lit "a.txt").
Definition b_txt : str := path_join root (lit "b.txt").
Definition c_bin : str := path_join root (lit "c.bin").

Definition files : list (str * bytes) :=
  [ (lit "a.txt", ascii_bytes "hello world");
    (lit "b.txt", ascii_bytes "ab" ++ [xff] ++ ascii_bytes "cd");
    (lit "c.bin", ascii_bytes "hel" ++ [x00] ++ ascii_bytes "hello") ].

Definition tree : World := world root files 0.

Definition hello : Pattern := {| pattern := lit "hello"; ignorecase := false |}.
Definition abcd : Pattern := {| pattern := lit "abcd"; ignorecase := false |}.

(** A callback that records nothing and returns. *)
Definition quiet : Callback := fun _ _ _ => Ok tt.

(** A large text file: [n1] letters [a], then [m], then [n2] letters [a]. *)
Definition padded (n1 : nat) (m : bytes) (n2 : nat) : bytes :=
  repeat x61 n1 ++ m ++ repeat x61 n2.

Definition big_txt : str := path_join root (lit "big.txt").
Definition big_tree (content : bytes) : World := world root [(lit "big.txt", content)] 0.


Definition hello_file : bytes := padded (Z.to_nat 5242878) (ascii_bytes "hello") (Z.to_nat 100).

(** A text file of 9000 bytes. *)
Definition medium_file : bytes := padded (Z.to_nat 8500) (ascii_bytes "hello") (Z.to_nat 495).

(** A file system whose files are all of 101 MiB and cannot be opened. *)
Definition huge_tree : World := {|
  os_path_isfile _ := true;
  os_stat _ := Ok (101 * MiB, 0);
  datetime_fromtimestamp t := Ok t;
  os_path_getsize _ := Ok (101 * MiB);
  open_rb _ _ := Raise PermissionError;
  mmap_read _ := Raise PermissionError;
  listing _ := None;
  cp_asarray_fault _ := Some RuntimeError;
  cp_compare_fault _ := Some RuntimeError;
  cuda_to_device_fault _ := Some RuntimeError;
  cuda_kernel_fault := Some RuntimeError
|}.

(** A library that also knows the pattern [(?<=Z.{1100})hello.*?], which
    matches where [hello] stands 1101 characters after a [Z] with no newline
    in between; every other pattern is treated as by [plain]. *)
Fixpoint dots (n : nat) (s : str) : option str :=
  match n with
  | O => Some s
  | S n' =>
    match s with
    | [] => None
    | c :: s' => if N.eqb c 10 then None else dots n' s'
    end
  end.

Definition lookbehind_at (s : str) : bool :=
  match s with
  | [] => false
  | c :: s' =>
    N.eqb c 90 &&
    match dots 1100 s' with
    | Some rest => startswith rest (lit "hello")
    | None => false
    end
  end.

Fixpoint lookbehind_search (s : str) : bool :=
  lookbehind_at s ||
  match s with
  | [] => false
  | _ :: s' => lookbehind_search s'
  end.

Definition lookbehind_pattern : Pattern :=
  {| pattern := lit "(?<=Z.{1100})hello.*?"; ignorecase := false |}.

Definition lookbehind : Runtime := {|
  re_syntax_error := @re_syntax_error plain;
  re_search p text :=
    if str_eqb (pattern p) (pattern lookbehind_pattern) && negb (ignorecase p)
    then Ok (lookbehind_search text)
    else @re_search plain p text;
  fnmatch := @fnmatch plain;
  str_lower := @str_lower plain;
  str_isblank := @str_isblank plain;
  basename := @basename plain;
  splitext_ext := @splitext_ext plain;
  path_join := @path_join plain
|}.

(** A file of 1 MiB and 15 bytes: a [Z] at offset 523185, then 1100 letters
    [a], then [hello] at the offsets 524286 to 524290, two bytes before the
    first chunk boundary of a dangerous pattern to two bytes after it. *)
Definition lookbehind_file : bytes :=
  repeat x61 (Z.to_nat 523185) ++ [x5a] ++ repeat x61 1100
    ++ ascii_bytes "hello" ++ repeat x61 (Z.to_nat 524300).

(** The same file system on a machine whose device takes the arrays and then
    fails every comparison and every kernel launch, and on a machine whose
    device takes no array. *)
Definition failing_device (w : World) : World := {|
  os_path_isfile := os_path_isfile w;
  os_stat := os_stat w;
  datetime_fromtimestamp := datetime_fromtimestamp w;
  os_path_getsize := os_path_getsize w;
  open_rb := open_rb w;
  mmap_read := mmap_read w;
  listing := listing w;
  cp_asarray_fault _ := None;
  cp_compare_fault _ := Some RuntimeError;
  cuda_to_device_fault _ := None;
  cuda_kernel_fault := Some RuntimeError
|}.

Definition full_device (w : World) : World := {|
  os_path_isfile := os_path_isfile w;
  os_stat := os_stat w;
  datetime_fromtimestamp := datetime_fromtimestamp w;
  os_path_getsize := os_path_getsize w;
  open_rb := open_rb w;
  mmap_read := mmap_read w;
  listing := listing w;
  cp_asarray_fault _ := Some RuntimeError;
  cp_compare_fault _ := None;
  cuda_to_device_fault _ := Some RuntimeError;
  cuda_kernel_fault := None
|}.

Definition numba : GpuLibs := {| USE_CUPY := false; USE_NUMBA := true |}.
Definition numba_engine : FileSearchEngine.t :=
  FileSearchEngine.init numba true (Some 4) (Some 4) true.


(** A file of 8 KiB and 9 bytes that starts with [hello]. *)
Definition head_file : bytes := ascii_bytes "hello" ++ repeat x61 (Z.to_nat 8196).

(** A directory with a file, a hidden sub-directory and a visible one. *)
Definition project : dirtree :=
  Dir (lit "p") [lit "README"; lit ".hidden"]
      [Dir (lit ".git") [lit "config"] [];
       Dir (lit "src") [lit "main.py"] [Dir (lit ".cache") [lit "x"] []]].

End Example.

(* ================================================================== *)
(** * Proofs *)
(* ================================================================== *)

Ltac run :=
  unfold bind, try_except, lift, ret, raise, emit, outcome, trace, Exception in *;
  simpl in *.

Ltac exec :=
  unfold bind, try_except, lift, ret, raise, emit, outcome, trace, Exception;
  cbn -[Z.to_nat firstn skipn range0 decode_ignore has_nul lit
        Z.gtb Z.ltb Z.leb Z.eqb Z.mul Z.add Z.sub Z.of_nat Z.max Z.min
        FileSearchEngine.scan_chunks FileSearchEngine._is_dangerous_pattern
        GPUPatternMatcher.is_pattern_gpu_friendly GPUPatternMatcher._is_literal_pattern].

Ltac case_if :=
  match goal with
  | |- context [if ?c then _ else _] => destruct c eqn:?
  | |- context [match ?c with _ => _ end] => destruct c eqn:?
  end.

Section ScanFacts.
Context {rt : Runtime} (w : World) (libs : GpuLibs).

Lemma search_cpu_never_raises R text p :
  exists b, outcome (GPUPatternMatcher._search_cpu R text p) = Ok b.
Proof.
  unfold GPUPatternMatcher._search_cpu. run.
  destruct (re_search p (decode_ignore text)) as [b|e]; simpl; eauto.
Qed.

(** The content scan never raises, whatever its steps raise. *)
Lemma search_in_file_never_raises self file_path p :
  exists b, outcome (FileSearchEngine._search_in_file w libs self file_path p) = Ok b.
Proof.
  unfold FileSearchEngine._search_in_file, try_except, outcome.
  destruct (if FileSearchEngine.stop_flag self then _ else _) as [[b|e] t]; simpl; eauto.
Qed.

End ScanFacts.

Section CheckFileFacts.
Context {rt : Runtime} (w : World) (libs : GpuLibs).

Lemma size_tests (min_size : Z) (max_size : option Z) (file_size : Z) :
  (truthy_int min_size && (file_size <? min_size)
   || match max_size with
      | Some m => truthy_int m && (file_size >? m)
      | None => false
      end) = negb (passes_size min_size max_size file_size).
Proof.
  unfold passes_size, truthy_int.
  destruct max_size as [m|];
    repeat match goal with
           | |- context [?a =? ?b] => destruct (Z.eqb_spec a b)
           | |- context [?a <? ?b] => destruct (Z.ltb_spec a b)
           | |- context [?a >? ?b] => rewrite (Z.gtb_ltb a b)
           | |- context [?a <=? ?b] => destruct (Z.leb_spec a b)
           end; simpl; try reflexivity; lia.
Qed.

Lemma mtime_tests (modified_after modified_before : option Z) (file_modified : Z) :
  (match modified_after with Some a => file_modified <? a | None => false end
   || match modified_before with Some b => file_modified >? b | None => false end)
  = negb (passes_mtime modified_after modified_before file_modified).
Proof.
  unfold passes_mtime.
  destruct modified_after as [a|], modified_before as [b|];
    repeat match goal with
           | |- context [?a <? ?b] => destruct (Z.ltb_spec a b)
           | |- context [?a >? ?b] => rewrite (Z.gtb_ltb a b)
           | |- context [?a <=? ?b] => destruct (Z.leb_spec a b)
           end; simpl; try reflexivity; lia.
Qed.

(** [_check_file] computes exactly the conjunction of the predicates. *)
Lemma check_file_outcome_eq self file_path name_pattern name_regex extensions
      content_pattern min_size max_size modified_after modified_before
      case_sensitive use_regex_name :
  outcome (FileSearchEngine._check_file w libs self file_path name_pattern name_regex
             extensions content_pattern min_size max_size modified_after
             modified_before case_sensitive use_regex_name)
  = check_file_outcome w libs self file_path name_pattern name_regex extensions
      content_pattern min_size max_size modified_after modified_before
      case_sensitive use_regex_name.
Proof.
  unfold FileSearchEngine._check_file, check_file_outcome.
  destruct (FileSearchEngine.stop_flag self) eqn:Hstop; [reflexivity|].
  destruct (os_path_isfile w file_path); [|reflexivity]. cbn [negb].
  assert (Hname :
    (match use_regex_name, name_regex with
     | true, Some name_regex => lift (re_search name_regex (basename file_path))
     | _, _ =>
       if negb (str_eqb name_pattern (lit "*")) then
         if case_sensitive then ret (fnmatch (basename file_path) name_pattern)
         else ret (fnmatch (str_lower (basename file_path)) (str_lower name_pattern))
       else ret true
     end : M SearchResult bool)
    = (passes_name file_path name_pattern name_regex case_sensitive use_regex_name, [])).
  { unfold passes_name, lift, ret.
    destruct use_regex_name, name_regex; try reflexivity;
      destruct (str_eqb name_pattern (lit "*")); simpl; try reflexivity;
      destruct case_sensitive; reflexivity. }
  rewrite Hname; clear Hname.
  destruct (passes_name _ _ _ _ _) as [[|]|e]; unfold absorbed;
    [ | reflexivity | run; destruct (is_OSError e); reflexivity ].
  assert (Hext :
    match extensions with
    | Some ((_ :: _) as exts) =>
      existsb (str_eqb (strip_char 46 (str_lower (splitext_ext (basename file_path))))) exts
    | _ => true
    end = passes_extension file_path extensions).
  { unfold passes_extension. destruct extensions as [[|]|]; reflexivity. }
  unfold bind at 1. unfold ret at 1. cbn [negb].
  rewrite Hext; clear Hext.
  destruct (passes_extension file_path extensions); [|reflexivity]. cbn [negb].
  destruct (os_stat w file_path) as [[file_size mtime]|e];
    [ | run; destruct (is_OSError e); reflexivity ].
  unfold lift at 1. unfold bind at 1. cbn [fst snd].
  destruct (datetime_fromtimestamp w mtime) as [file_modified|e];
    [ | run; destruct (is_OSError e); reflexivity ].
  unfold lift at 1. unfold bind at 1.
  pose proof (size_tests min_size max_size file_size) as Hs.
  pose proof (mtime_tests modified_after modified_before file_modified) as Hm.
  destruct (truthy_int min_size && (file_size <? min_size)) eqn:H1.
  { simpl in Hs. destruct (passes_size _ _ _); [discriminate|]. reflexivity. }
  destruct (match max_size with Some m => truthy_int m && (file_size >? m) | None => false end) eqn:H2.
  { simpl in Hs. destruct (passes_size _ _ _); [discriminate|]. reflexivity. }
  simpl in Hs. destruct (passes_size _ _ _); [|discriminate].
  destruct (match modified_after with Some a => file_modified <? a | None => false end) eqn:H3.
  { simpl in Hm. destruct (passes_mtime _ _ _); [discriminate|]. reflexivity. }
  destruct (match modified_before with Some b => file_modified >? b | None => false end) eqn:H4.
  { simpl in Hm. destruct (passes_mtime _ _ _); [discriminate|]. reflexivity. }
  simpl in Hm. destruct (passes_mtime _ _ _); [|discriminate].
  cbn [andb]. unfold passes_content, reason.
  destruct content_pattern as [cp|]; [|reflexivity].
  destruct (search_in_file_never_raises w libs self file_path cp) as [b Hb].
  rewrite Hb. unfold outcome in Hb.
  destruct (FileSearchEngine._search_in_file w libs self file_path cp) as [r t].
  simpl in Hb; subst r. run. destruct b; reflexivity.
Qed.

End CheckFileFacts.

Lemma bind_Ok R A B (m : M R A) (f : A -> M R B) b t :
  bind m f = (Ok b, t) ->
  exists a t1 t2, m = (Ok a, t1) /\ f a = (Ok b, t2) /\ t = t1 ++ t2.
Proof.
  unfold bind. destruct m as [[a|e] t1]; [|discriminate].
  destruct (f a) as [r t2] eqn:Hf. intros H. inversion H; subst. eauto 6.
Qed.

Section CollectFacts.
Context {rt : Runtime} (w : World) (libs : GpuLibs).
Variables (self : FileSearchEngine.t) (total_files : Z).
Hypothesis running : FileSearchEngine.stop_flag self = false.

Lemma collect_results callback futures : forall processed results res t,
  FileSearchEngine.collect self callback total_files futures processed results = (Ok res, t) ->
  res = results ++ matches_of futures.
Proof.
  induction futures as [|future rest IH]; intros processed results res t H; simpl in H.
  - inversion H. simpl. now rewrite app_nil_r.
  - rewrite running in H.
    apply bind_Ok in H as (res1 & t1 & t2 & Hstep & H & _).
    apply bind_Ok in H as ([] & t3 & t4 & _ & H & _).
    apply IH in H. subst res.
    destruct future as [[r|]|e]; simpl.
    + apply bind_Ok in Hstep as ([] & t5 & t6 & _ & Hstep & _).
      inversion Hstep; subst. now rewrite <- app_assoc.
    + inversion Hstep; subst. reflexivity.
    + inversion Hstep; subst. reflexivity.
Qed.

(** With a callback whose heartbeat calls return, the loop runs to the end:
    it returns every result in completion order and its trace is the list of
    callback invocations. *)
Lemma collect_run (cb : Callback) futures :
  (forall k, cb None k total_files = Ok tt) ->
  forall processed results,
    FileSearchEngine.collect self (Some cb) total_files futures processed results
    = (Ok (results ++ matches_of futures),
       callback_events total_files futures processed).
Proof.
  intros Hbeat. induction futures as [|future rest IH]; intros processed results.
  - cbn. now rewrite app_nil_r.
  - cbn [FileSearchEngine.collect]. rewrite running.
    destruct future as [[r|]|e]; unfold FileSearchEngine.call;
      try destruct (cb (Some r) processed total_files) as [[]|e'];
      destruct ((processed + 1) mod 100 =? 0) eqn:Hmod;
      unfold bind, try_except, ret, lift, emit, Exception;
      cbn -[FileSearchEngine.collect Z.add Z.modulo Z.eqb];
      rewrite ?Hmod, ?Hbeat, IH; cbn -[Z.add Z.modulo Z.eqb]; rewrite ?Hmod;
      rewrite <- ?app_assoc; reflexivity.
Qed.

Lemma collect_silent futures : forall processed results,
  FileSearchEngine.collect self None total_files futures processed results
  = (Ok (results ++ matches_of futures), []).
Proof.
  induction futures as [|future rest IH]; intros processed results.
  - cbn. now rewrite app_nil_r.
  - cbn [FileSearchEngine.collect]. rewrite running.
    destruct future as [[r|]|e];
      unfold FileSearchEngine.call, bind, try_except, ret, lift, emit, Exception;
      cbn -[FileSearchEngine.collect Z.add Z.modulo Z.eqb];
      rewrite IH; cbn; rewrite <- ?app_assoc; reflexivity.
Qed.

End CollectFacts.

Section SearchFacts.
Context {rt : Runtime} (w : World) (libs : GpuLibs).

Lemma submit_all (files : list str) :
  fold_right (fun file_path k => emit (EvSubmit file_path) ;;; k) (ret tt) files
  = ((Ok tt, map EvSubmit files) : M SearchResult unit).
Proof.
  induction files as [|f files IH]; [reflexivity|].
  cbn [fold_right]. rewrite IH. reflexivity.
Qed.

(** [search], step by step: the two compilations, the walk, the pool, the
    loop over the completed futures. *)
Lemma search_eq self a callback completion :
  FileSearchEngine.search w libs self a callback completion =
  match content_compile_error a with
  | Some msg => (Raise (ValueError (lit "Ошибка в регулярном выражении: " ++ msg)), [])
  | None =>
    match name_compile_error a with
    | Some msg => (Raise (ValueError (lit "Ошибка в регулярном выражении имени: " ++ msg)), [])
    | None =>
      if FileSearchEngine.max_workers self <=? 0
      then (Raise (ValueError (lit "max_workers must be greater than 0")),
            [EvWalk (root_path a)])
      else
        let files := candidates w self a in
        let '(r, t) :=
          FileSearchEngine.collect (FileSearchEngine.clear self) callback
            (Z.of_nat (length files))
            (map (future_of w libs self a) (completion files)) 0 [] in
        (r, EvWalk (root_path a) :: map EvSubmit files ++ t)
    end
  end.
Proof.
  unfold FileSearchEngine.search, content_compile_error, name_compile_error,
    candidates, future_of, content_pattern_of, name_regex_of, extensions_of, re_compile.
  assert (Hext :
    (if truthy_opt_list (extensions a)
     then match extensions a with
          | Some exts =>
            Some (map (fun ext => strip_char 46 (str_lower ext))
                      (filter (fun ext => negb (str_isblank ext)) exts))
          | None => None
          end
     else extensions a)
    = match extensions a with
      | Some ((_ :: _) as exts) =>
        Some (map (fun ext => strip_char 46 (str_lower ext))
                  (filter (fun ext => negb (str_isblank ext)) exts))
      | other => other
      end).
  { destruct (extensions a) as [[|]|]; reflexivity. }
  rewrite Hext; clear Hext.
  destruct (content_regex a) as [[|c text]|];
    try destruct (re_syntax_error (c :: text)) as [msg|];
    try reflexivity;
    (destruct (use_regex_name a && negb (str_eqb (name_pattern a) (lit "*")));
     [destruct (re_syntax_error (name_pattern a)) as [msg'|]; [reflexivity|]|]);
    unfold bind, try_except, lift, ret, raise;
    change (emit (EvWalk (root_path a)))
      with ((Ok tt, [EvWalk (root_path a)]) : M SearchResult unit);
    cbn -[FileSearchEngine.collect FileSearchEngine.walk lit Z.leb emit fold_right];
    (destruct (FileSearchEngine.max_workers self <=? 0); [reflexivity|]);
    fold (@ret SearchResult unit tt);
    pose proof submit_all as Hsub; unfold bind in Hsub; rewrite Hsub;
    destruct (FileSearchEngine.collect _ _ _ _ _ _) as [r t]; reflexivity.
Qed.

End SearchFacts.

Section FilterClaims.
Context {rt : Runtime} (w : World) (libs : GpuLibs).

Lemma check_file_Some self file_path name_pattern name_regex extensions
      content_pattern min_size max_size modified_after modified_before
      case_sensitive use_regex_name r :
  check_file_outcome w libs self file_path name_pattern name_regex extensions
    content_pattern min_size max_size modified_after modified_before
    case_sensitive use_regex_name = Ok (Some r) ->
  FileSearchEngine.stop_flag self = false
  /\ path r = file_path
  /\ file_matches w libs self file_path name_pattern name_regex extensions
       content_pattern min_size max_size modified_after modified_before
       case_sensitive use_regex_name.
Proof.
  unfold check_file_outcome, file_matches, absorbed.
  destruct (FileSearchEngine.stop_flag self); [discriminate|].
  destruct (os_path_isfile w file_path); [|discriminate]. cbn [negb].
  destruct (passes_name _ _ _ _ _) as [[|]|e]; try discriminate;
    [|destruct (is_OSError e); discriminate].
  destruct (passes_extension file_path extensions); [|discriminate]. cbn [negb].
  destruct (os_stat w file_path) as [[file_size mtime]|e];
    [|destruct (is_OSError e); discriminate].
  destruct (datetime_fromtimestamp w mtime) as [fm|e] eqn:Hfm;
    [|destruct (is_OSError e); discriminate].
  destruct (passes_size _ _ _) eqn:Hs; [|discriminate].
  destruct (passes_mtime _ _ _) eqn:Hm; [|discriminate].
  destruct (passes_content _ _ _) eqn:Hc; [|discriminate].
  cbn [andb]. intros H; inversion H; subst; clear H. cbn [path].
  repeat split; try reflexivity. exists file_size, mtime, fm. auto.
Qed.

Lemma check_file_matches self file_path name_pattern name_regex extensions
      content_pattern min_size max_size modified_after modified_before
      case_sensitive use_regex_name :
  FileSearchEngine.stop_flag self = false ->
  file_matches w libs self file_path name_pattern name_regex extensions
    content_pattern min_size max_size modified_after modified_before
    case_sensitive use_regex_name ->
  exists r,
    check_file_outcome w libs self file_path name_pattern name_regex extensions
      content_pattern min_size max_size modified_after modified_before
      case_sensitive use_regex_name = Ok (Some r).
Proof.
  intros Hrun (Hfile & Hname & Hext & file_size & mtime & fm & Hstat & Hfm & Hs & Hm & Hc).
  unfold check_file_outcome.
  rewrite Hrun, Hfile, Hname, Hext, Hstat, Hfm, Hs, Hm, Hc. cbn. eauto.
Qed.

Lemma check_file_None_or_raise self file_path name_pattern name_regex extensions
      content_pattern min_size max_size modified_after modified_before
      case_sensitive use_regex_name :
  ~ file_matches w libs self file_path name_pattern name_regex extensions
      content_pattern min_size max_size modified_after modified_before
      case_sensitive use_regex_name ->
  FileSearchEngine.stop_flag self = false ->
  check_file_outcome w libs self file_path name_pattern name_regex extensions
    content_pattern min_size max_size modified_after modified_before
    case_sensitive use_regex_name = Ok None
  \/ exists e,
      check_file_outcome w libs self file_path name_pattern name_regex extensions
        content_pattern min_size max_size modified_after modified_before
        case_sensitive use_regex_name = Raise e.
Proof.
  intros Hno Hrun.
  destruct (check_file_outcome _ _ _ _ _ _ _ _ _ _ _ _ _ _) as [[r|]|e] eqn:H; eauto.
  apply check_file_Some in H. tauto.
Qed.

Lemma check_file_rejects self file_path name_pattern name_regex extensions
      content_pattern min_size max_size modified_after modified_before
      case_sensitive use_regex_name :
  FileSearchEngine.stop_flag self = false ->
  let result :=
    check_file_outcome w libs self file_path name_pattern name_regex extensions
      content_pattern min_size max_size modified_after modified_before
      case_sensitive use_regex_name in
  let name := passes_name file_path name_pattern name_regex case_sensitive use_regex_name in
  (os_path_isfile w file_path = false -> result = Ok None)
  /\ (name = Ok false -> result = Ok None)
  /\ (name = Ok true -> passes_extension file_path extensions = false -> result = Ok None)
  /\ (forall file_size mtime file_modified,
        name = Ok true ->
        os_stat w file_path = Ok (file_size, mtime) ->
        datetime_fromtimestamp w mtime = Ok file_modified ->
        passes_size min_size max_size file_size = false
        \/ passes_mtime modified_after modified_before file_modified = false
        \/ passes_content w libs self file_path content_pattern = false ->
        result = Ok None)
  /\ ((forall e, name = Raise e -> is_OSError e = true) ->
      (forall e, os_stat w file_path = Raise e -> is_OSError e = true) ->
      (forall mtime e, datetime_fromtimestamp w mtime = Raise e -> is_OSError e = true) ->
      ~ file_matches w libs self file_path name_pattern name_regex extensions
          content_pattern min_size max_size modified_after modified_before
          case_sensitive use_regex_name ->
      result = Ok None).
Proof.
  intros Hrun result name. subst result name. unfold check_file_outcome, absorbed.
  rewrite Hrun.
  split; [|split; [|split; [|split]]].
  - intros ->. reflexivity.
  - intros ->. destruct (os_path_isfile w file_path); reflexivity.
  - intros -> ->. destruct (os_path_isfile w file_path); reflexivity.
  - intros file_size mtime file_modified -> -> -> H.
    destruct (os_path_isfile w file_path); [|reflexivity]. cbn [negb].
    destruct (passes_extension file_path extensions); [|reflexivity]. cbn [negb].
    destruct H as [H|[H|H]]; rewrite H, ?andb_false_r; reflexivity.
  - intros Hname Hstat Hfm Hno.
    destruct (os_path_isfile w file_path) eqn:Hfile; [|reflexivity]. cbn [negb].
    destruct (passes_name _ _ _ _ _) as [[|]|e] eqn:Hn; [|reflexivity|now rewrite (Hname e)].
    destruct (passes_extension file_path extensions) eqn:Hext; [|reflexivity]. cbn [negb].
    destruct (os_stat w file_path) as [[file_size mtime]|e] eqn:Hs;
      [|now rewrite (Hstat e)].
    destruct (datetime_fromtimestamp w mtime) as [fm|e] eqn:Hf;
      [|now rewrite (Hfm mtime e)].
    destruct (passes_size _ _ _) eqn:H1; [|reflexivity].
    destruct (passes_mtime _ _ _) eqn:H2; [|reflexivity].
    destruct (passes_content _ _ _ _ _) eqn:H3; [|reflexivity].
    exfalso. apply Hno. unfold file_matches. rewrite Hn.
    repeat split; try assumption. exists file_size, mtime, fm. auto.
Qed.

(** C1. [_check_file] returns a [SearchResult] if and only if the path is a
    regular file that passes the name, extension, size-range and mtime-range
    predicates and, when a content pattern is configured, the content scan.
    When one of the predicates fails the result is [None]: for a path that
    is no regular file, for a name that does not match, for an extension
    that is not configured, for a size, a modification time or a content the
    filter refuses; and, more generally, whenever the predicates do not all
    pass and the library calls raise nothing but OS-level errors. A file the
    walk found appears in the result list of [search] under the same
    condition. *)
Theorem conjunctive_filter :
  forall (self : FileSearchEngine.t) (file_path name_pattern : str)
         (name_regex : option Pattern) (extensions : option (list str))
         (content_pattern : option Pattern) (min_size : Z) (max_size : option Z)
         (modified_after modified_before : option Z)
         (case_sensitive use_regex_name : bool),
    FileSearchEngine.stop_flag self = false ->
    let result :=
      outcome (FileSearchEngine._check_file w libs self file_path name_pattern
                 name_regex extensions content_pattern min_size max_size
                 modified_after modified_before case_sensitive use_regex_name) in
    let passes :=
      file_matches w libs self file_path name_pattern name_regex extensions
        content_pattern min_size max_size modified_after modified_before
        case_sensitive use_regex_name in
    let name :=
      passes_name file_path name_pattern name_regex case_sensitive use_regex_name in
    ((exists r, result = Ok (Some r)) <-> passes)
    /\ ((os_path_isfile w file_path = false -> result = Ok None)
        /\ (name = Ok false -> result = Ok None)
        /\ (name = Ok true -> passes_extension file_path extensions = false ->
            result = Ok None)
        /\ (forall file_size mtime file_modified,
              name = Ok true ->
              os_stat w file_path = Ok (file_size, mtime) ->
              datetime_fromtimestamp w mtime = Ok file_modified ->
              passes_size min_size max_size file_size = false
              \/ passes_mtime modified_after modified_before file_modified = false
              \/ passes_content w libs self file_path content_pattern = false ->
              result = Ok None)
        /\ ((forall e, name = Raise e -> is_OSError e = true) ->
            (forall e, os_stat w file_path = Raise e -> is_OSError e = true) ->
            (forall mtime e,
                datetime_fromtimestamp w mtime = Raise e -> is_OSError e = true) ->
            ~ passes -> result = Ok None))
    /\ (forall (a : SearchArgs) callback completion results t,
          FileSearchEngine.search w libs self a callback completion = (Ok results, t) ->
          (forall l, Permutation (completion l) l) ->
          forall candidate, In candidate (candidates w self a) ->
            ((exists r, In r results /\ path r = candidate)
             <-> matches_search w libs self a candidate)).
Proof.
  intros self file_path name_pattern name_regex extensions content_pattern min_size
    max_size modified_after modified_before case_sensitive use_regex_name Hrun result passes
    name.
  subst result passes name. rewrite check_file_outcome_eq.
  split; [|split].
  - split.
    + intros [r H]. now apply check_file_Some in H.
    + now apply check_file_matches.
  - now apply check_file_rejects.
  - clear. intros a callback completion results t Hsearch Hperm candidate Hcand.
    rewrite search_eq in Hsearch.
    destruct (content_compile_error a); [discriminate|].
    destruct (name_compile_error a); [discriminate|].
    destruct (FileSearchEngine.max_workers self <=? 0); [discriminate|].
    cbv zeta in Hsearch.
    destruct (FileSearchEngine.collect _ _ _ _ _ _) as [r0 t0] eqn:Hcollect.
    inversion Hsearch; subst; clear Hsearch.
    apply collect_results in Hcollect; [|reflexivity]. simpl in Hcollect. subst results.
    unfold matches_of, matches_search. rewrite flat_map_concat_map.
    split.
    + intros (r & Hin & Hpath).
      apply in_concat in Hin as (l & Hl & Hr).
      apply in_map_iff in Hl as (fut & <- & Hfut).
      apply in_map_iff in Hfut as (fp & <- & _).
      unfold future_of in Hr. rewrite check_file_outcome_eq in Hr.
      destruct (check_file_outcome _ _ _ _ _ _ _ _ _ _ _ _ _ _) as [[r'|]|e] eqn:H;
        simpl in Hr; try contradiction.
      destruct Hr as [->|[]]. apply check_file_Some in H as (_ & Hp & Hm).
      rewrite Hpath in Hp. now subst fp.
    + intros Hm. apply check_file_matches in Hm as [r Hr]; [|reflexivity].
      pose proof Hr as Hr'. apply check_file_Some in Hr' as (_ & Hp & _).
      exists r. split; [|exact Hp].
      apply in_concat. exists [r]. split; [|now left].
      apply in_map_iff. exists (Ok (Some r)). split; [reflexivity|].
      apply in_map_iff. exists candidate. split.
      * unfold future_of. now rewrite check_file_outcome_eq.
      * apply Permutation_in with (l := candidates w self a); [|exact Hcand].
        apply Permutation_sym, Hperm.
Qed.

End FilterClaims.

Section SizeBoundClaims.
Context {rt : Runtime} (w : World) (libs : GpuLibs).

Lemma passes_size_zero_max min_size file_size :
  passes_size min_size (Some 0) file_size = passes_size min_size None file_size.
Proof. unfold passes_size. simpl. reflexivity. Qed.

Lemma check_file_size_only self file_path name_pattern name_regex extensions
      content_pattern min_size max_size modified_after modified_before
      case_sensitive use_regex_name r :
  check_file_outcome w libs self file_path name_pattern name_regex extensions
    content_pattern 0 None modified_after modified_before
    case_sensitive use_regex_name = Ok (Some r) ->
  check_file_outcome w libs self file_path name_pattern name_regex extensions
    content_pattern min_size max_size modified_after modified_before
    case_sensitive use_regex_name
  = if passes_size min_size max_size (size r) then Ok (Some r) else Ok None.
Proof.
  unfold check_file_outcome, absorbed.
  destruct (FileSearchEngine.stop_flag self); [discriminate|].
  destruct (os_path_isfile w file_path); [|discriminate]. cbn [negb].
  destruct (passes_name _ _ _ _ _) as [[|]|e]; try discriminate;
    [|destruct (is_OSError e); discriminate].
  destruct (passes_extension file_path extensions); [|discriminate]. cbn [negb].
  destruct (os_stat w file_path) as [[file_size mtime]|e];
    [|destruct (is_OSError e); discriminate].
  destruct (datetime_fromtimestamp w mtime) as [fm|e];
    [|destruct (is_OSError e); discriminate].
  change (passes_size 0 None file_size) with true. cbn [andb].
  destruct (passes_mtime _ _ _); [|discriminate].
  destruct (passes_content _ _ _); [|discriminate].
  intros H; inversion H; subst; clear H. cbn [size].
  destruct (passes_size min_size max_size file_size); reflexivity.
Qed.

(** C10. A [max_size] of zero is treated as an absent bound, and a [min_size]
    of zero applies no lower bound: a file that passes the other predicates
    passes with zero bounds whatever its size. With positive bounds the size
    check is inclusive at both ends. *)
Theorem zero_size_bound_disables_filter :
  forall (self : FileSearchEngine.t) (file_path name_pattern : str)
         (name_regex : option Pattern) (extensions : option (list str))
         (content_pattern : option Pattern)
         (modified_after modified_before : option Z)
         (case_sensitive use_regex_name : bool),
    let check min_size max_size :=
      outcome (FileSearchEngine._check_file w libs self file_path name_pattern
                 name_regex extensions content_pattern min_size max_size
                 modified_after modified_before case_sensitive use_regex_name) in
    (forall min_size, check min_size (Some 0) = check min_size None)
    /\ (forall r, check 0 None = Ok (Some r) ->
          check 0 (Some 0) = Ok (Some r)
          /\ (forall max_size, 0 < max_size ->
                (check 0 (Some max_size) = Ok (Some r) <-> size r <= max_size))
          /\ (forall min_size max_size, 0 < min_size -> 0 < max_size ->
                (check min_size (Some max_size) = Ok (Some r)
                 <-> min_size <= size r <= max_size))
          /\ (forall min_size max_size, 0 < min_size <= max_size ->
                (size r = min_size \/ size r = max_size) ->
                check min_size (Some max_size) = Ok (Some r))).
Proof.
  intros self file_path name_pattern name_regex extensions content_pattern
    modified_after modified_before case_sensitive use_regex_name check.
  assert (Hin : forall r min_size max_size, check 0 None = Ok (Some r) ->
            0 < max_size ->
            (check min_size (Some max_size) = Ok (Some r)
             <-> (min_size = 0 \/ min_size <= size r) /\ size r <= max_size)).
  { intros r min_size max_size H0 Hmax. subst check. cbv beta in *.
    rewrite check_file_outcome_eq in *.
    rewrite (check_file_size_only _ _ _ _ _ _ min_size (Some max_size) _ _ _ _ H0).
    unfold passes_size.
    destruct (Z.eqb_spec min_size 0), (Z.leb_spec min_size (size r)),
      (Z.eqb_spec max_size 0), (Z.leb_spec (size r) max_size); cbn;
      split; intros; try discriminate; try reflexivity; lia. }
  split.
  - intros min_size. subst check. cbv beta. rewrite !check_file_outcome_eq.
    reflexivity.
  - intros r H0. split; [|split; [|split]].
    + subst check. cbv beta in *. rewrite check_file_outcome_eq in *.
      now rewrite (check_file_size_only _ _ _ _ _ _ 0 (Some 0) _ _ _ _ H0).
    + intros max_size Hmax. rewrite (Hin r 0 max_size H0 Hmax). intuition lia.
    + intros min_size max_size Hmin Hmax. rewrite (Hin r min_size max_size H0 Hmax). lia.
    + intros min_size max_size Hb Hs. apply (Hin r min_size max_size H0); lia.
Qed.

End SizeBoundClaims.

Section StartClaims.
Context {rt : Runtime} (w : World) (libs : GpuLibs).

(** C2. When the content regex, or the name regex in regex mode with a
    pattern other than ["*"], does not compile, [search] raises a
    [ValueError] whose message ends with the text of the syntax error, and it
    does so before the walk and before any file is handed to the pool. A
    raise that precedes the walk is always one of these two. *)
Theorem invalid_pattern_raises_before_any_work :
  forall (self : FileSearchEngine.t) (a : SearchArgs) (callback : option Callback)
         (completion : list str -> list str),
    let run := FileSearchEngine.search w libs self a callback completion in
    (forall c text msg,
        content_regex a = Some (c :: text) ->
        re_syntax_error (c :: text) = Some msg ->
        run = (Raise (ValueError (lit "Ошибка в регулярном выражении: " ++ msg)), []))
    /\ (forall msg,
          use_regex_name a = true ->
          str_eqb (name_pattern a) (lit "*") = false ->
          re_syntax_error (name_pattern a) = Some msg ->
          exists prefix msg',
            run = (Raise (ValueError (prefix ++ msg')), [])
            /\ (msg' = msg \/ content_compile_error a = Some msg'))
    /\ (forall e, run = (Raise e, []) ->
          content_compile_error a <> None \/ name_compile_error a <> None).
Proof.
  intros self a callback completion run. subst run. rewrite search_eq.
  split; [|split].
  - intros c text msg Hc Hmsg. unfold content_compile_error. now rewrite Hc, Hmsg.
  - intros msg Hre Hstar Hmsg.
    destruct (content_compile_error a) as [msgc|] eqn:Hc.
    + eauto.
    + unfold name_compile_error. rewrite Hre, Hstar, Hmsg. cbn [andb negb]. eauto.
  - intros e H.
    destruct (content_compile_error a); [left; discriminate|].
    destruct (name_compile_error a); [right; discriminate|].
    destruct (FileSearchEngine.max_workers self <=? 0); [discriminate|].
    cbv zeta in H. destruct (FileSearchEngine.collect _ _ _ _ _ _). discriminate.
Qed.

End StartClaims.

Section CallbackClaims.
Context {rt : Runtime} (w : World) (libs : GpuLibs).

Lemma reported_app t1 t2 : reported (t1 ++ t2) = reported t1 ++ reported t2.
Proof. unfold reported. now rewrite flat_map_app. Qed.

Lemma reported_submit files : reported (map EvSubmit files) = [].
Proof. induction files; [reflexivity|assumption]. Qed.

Lemma reported_events total futures : forall processed,
  reported (callback_events total futures processed) = matches_of futures.
Proof.
  induction futures as [|future rest IH]; intros processed; [reflexivity|].
  cbn [callback_events]. rewrite !reported_app, IH.
  destruct future as [[r|]|e]; destruct ((processed + 1) mod 100 =? 0); reflexivity.
Qed.

Lemma events_result total futures : forall processed k r,
  nth_error futures k = Some (Ok (Some r)) ->
  In (EvCallback (Some r) (processed + Z.of_nat k) total)
     (callback_events total futures processed).
Proof.
  induction futures as [|future rest IH]; intros processed k r H.
  - destruct k; discriminate.
  - cbn [callback_events]. destruct k as [|k]; simpl in H.
    + inversion H; subst. rewrite Z.add_0_r. now left.
    + apply in_or_app; right. apply in_or_app; right.
      replace (processed + Z.of_nat (S k)) with (processed + 1 + Z.of_nat k) by lia.
      now apply IH.
Qed.

Lemma events_heartbeat total futures : forall processed k,
  (k < length futures)%nat ->
  (processed + Z.of_nat k + 1) mod 100 = 0 ->
  In (EvCallback None (processed + Z.of_nat k + 1) total)
     (callback_events total futures processed).
Proof.
  induction futures as [|future rest IH]; intros processed k Hk Hmod; simpl in Hk; [lia|].
  cbn [callback_events]. apply in_or_app; right. destruct k as [|k].
  - simpl in Hmod. rewrite Z.add_0_r in *. apply Z.eqb_eq in Hmod. rewrite Hmod. now left.
  - apply in_or_app; right.
    replace (processed + Z.of_nat (S k) + 1) with (processed + 1 + Z.of_nat k + 1) in * by lia.
    apply IH; [lia|assumption].
Qed.

Lemma events_only_hundredth total futures : forall processed n,
  In (EvCallback None n total) (callback_events total futures processed) ->
  n mod 100 = 0 /\ processed < n <= processed + Z.of_nat (length futures).
Proof.
  induction futures as [|future rest IH]; intros processed n H; [contradiction|].
  cbn [callback_events] in H. apply in_app_or in H as [H|H].
  - destruct future as [[r|]|e]; simpl in H; try contradiction.
    destruct H as [H|[]]; discriminate.
  - apply in_app_or in H as [H|H].
    + destruct (Z.eqb_spec ((processed + 1) mod 100) 0); [|contradiction].
      destruct H as [H|[]]. inversion H; subst. simpl length. split; [assumption|lia].
    + apply IH in H. simpl length. split; [tauto|lia].
Qed.

Lemma events_total total futures : forall processed n t,
  In (EvCallback None n t) (callback_events total futures processed) -> t = total.
Proof.
  induction futures as [|f rest IH]; intros p n t H; [contradiction|].
  cbn [callback_events] in H. apply in_app_or in H as [H|H].
  - destruct f as [[r|]|e]; simpl in H; try contradiction.
    destruct H as [H|[]]; discriminate.
  - apply in_app_or in H as [H|H]; [|now apply IH in H].
    destruct ((p + 1) mod 100 =? 0); [|contradiction].
    destruct H as [H|[]]. now inversion H.
Qed.

(** C7. In a search whose patterns compile and whose callback returns from
    its heartbeat calls, the callback is invoked once for every completion
    that produced a result, with that result, the number of completions
    processed before it and the number of candidates; and after every
    hundredth completion, in completion order, it is invoked with [None], the
    number of completions so far and the number of candidates. Nothing else
    is ever passed to it. *)
Theorem progress_callback_protocol :
  forall (self : FileSearchEngine.t) (a : SearchArgs) (cb : Callback)
         (completion : list str -> list str),
    content_compile_error a = None ->
    name_compile_error a = None ->
    0 < FileSearchEngine.max_workers self ->
    (forall l, Permutation (completion l) l) ->
    (forall k total, cb None k total = Ok tt) ->
    let files := candidates w self a in
    let total := Z.of_nat (length files) in
    let futures := map (future_of w libs self a) (completion files) in
    let run := FileSearchEngine.search w libs self a (Some cb) completion in
    outcome run = Ok (matches_of futures)
    /\ trace run = EvWalk (root_path a) :: map EvSubmit files ++ callback_events total futures 0
    /\ reported (trace run) = matches_of futures
    /\ (forall k r, nth_error futures k = Some (Ok (Some r)) ->
          In (EvCallback (Some r) (Z.of_nat k) total) (trace run))
    /\ (forall k, (0 < k <= length futures)%nat -> Z.of_nat k mod 100 = 0 ->
          In (EvCallback None (Z.of_nat k) total) (trace run))
    /\ (forall n t, In (EvCallback None n t) (trace run) ->
          n mod 100 = 0 /\ 0 < n <= total /\ t = total)
    /\ Z.of_nat (length futures) = total.
Proof.
  intros self a cb completion Hc Hn Hw Hperm Hbeat files total futures run.
  assert (Hrun : run = (Ok (matches_of futures),
                        EvWalk (root_path a) :: map EvSubmit files
                          ++ callback_events total futures 0)).
  { subst run. rewrite search_eq, Hc, Hn.
    destruct (Z.leb_spec (FileSearchEngine.max_workers self) 0); [lia|].
    cbv zeta. fold files. fold total. fold futures.
    rewrite collect_run by (reflexivity || auto). reflexivity. }
  assert (Hlen : Z.of_nat (length futures) = total).
  { subst futures total. rewrite length_map. f_equal.
    apply Permutation_length, Hperm. }
  rewrite Hrun. unfold outcome, trace. cbn [fst snd].
  split; [reflexivity|]. split; [reflexivity|].
  split; [|split; [|split; [|split]]].
  - change (EvWalk (root_path a) :: map EvSubmit files ++ callback_events total futures 0)
      with ([EvWalk (root_path a)] ++ map EvSubmit files ++ callback_events total futures 0).
    rewrite !reported_app, reported_submit, reported_events. reflexivity.
  - intros k r Hk. right. apply in_or_app; right.
    apply (events_result total futures 0 k Hk).
  - intros k Hk Hmod. right. apply in_or_app; right.
    destruct k as [|k]; [lia|].
    replace (Z.of_nat (S k)) with (0 + Z.of_nat k + 1) in * by lia.
    apply events_heartbeat; [lia|assumption].
  - intros n t [H|H]; [discriminate|]. apply in_app_or in H as [H|H].
    + apply in_map_iff in H as (x & Hx & _). discriminate.
    + pose proof (events_total _ _ _ _ _ H) as ->.
      apply events_only_hundredth in H. repeat split; try tauto; lia.
  - exact Hlen.
Qed.

End CallbackClaims.

Section FaultClaims.
Context {rt : Runtime} (w : World) (libs : GpuLibs).

Ltac absorb :=
  repeat (run; match goal with
               | |- context [if ?c then _ else _] => destruct c
               | |- context [match ?c with Ok _ => _ | Raise _ => _ end] => destruct c
               | |- context [let '(_, _) := ?c in _] => destruct c
               end); run; try reflexivity.

Lemma scan_fails_on_getsize self file_path p e :
  os_path_getsize w file_path = Raise e ->
  outcome (FileSearchEngine._search_in_file w libs self file_path p) = Ok false.
Proof.
  intros H. unfold FileSearchEngine._search_in_file, HybridSearchEngine.search_in_file.
  rewrite H.
  destruct (FileSearchEngine.stop_flag self), (FileSearchEngine.use_gpu self),
    (FileSearchEngine.gpu_engine self); run; try reflexivity;
    destruct (is_OSError e || is_ValueError e); reflexivity.
Qed.

Lemma scan_fails_on_open self file_path p e :
  open_rb w 0 file_path = Raise e ->
  outcome (FileSearchEngine._search_in_file w libs self file_path p) = Ok false.
Proof.
  intros H. unfold FileSearchEngine._search_in_file, HybridSearchEngine.search_in_file.
  rewrite H.
  destruct (FileSearchEngine.stop_flag self), (FileSearchEngine.use_gpu self),
    (FileSearchEngine.gpu_engine self); run; try reflexivity;
    destruct (os_path_getsize w file_path) as [file_size|e']; run;
    try destruct (file_size >? 104857600); run;
    repeat match goal with
           | |- context [is_OSError ?x || is_ValueError ?x] =>
             destruct (is_OSError x || is_ValueError x)
           end; reflexivity.
Qed.

Lemma scan_binary self file_path p f :
  open_rb w 0 file_path = Ok f ->
  has_nul (firstn (Z.to_nat 8192) f) = true ->
  outcome (FileSearchEngine._search_in_file w libs self file_path p) = Ok false.
Proof.
  intros H Hnul. unfold FileSearchEngine._search_in_file, HybridSearchEngine.search_in_file.
  rewrite H.
  destruct (FileSearchEngine.stop_flag self), (FileSearchEngine.use_gpu self),
    (FileSearchEngine.gpu_engine self); exec; try reflexivity;
    destruct (os_path_getsize w file_path) as [file_size|e']; exec;
    try destruct (file_size >? 100 * 1024 * 1024); exec; rewrite ?Hnul; exec;
    repeat match goal with
           | |- context [is_OSError ?x || is_ValueError ?x] =>
             destruct (is_OSError x || is_ValueError x)
           end; reflexivity.
Qed.

(** C4. A file whose first 8 KiB hold a NUL byte is never content-matched:
    the scan returns [False] for every pattern, on the CPU path and on the
    GPU path, whatever the rest of the file holds. *)
Theorem binary_file_is_never_matched :
  forall (self : FileSearchEngine.t) (file_path : str) (p : Pattern) (f : bytes),
    open_rb w 0 file_path = Ok f ->
    has_nul (firstn (Z.to_nat 8192) f) = true ->
    outcome (FileSearchEngine._search_in_file w libs self file_path p) = Ok false
    /\ forall name_pattern name_regex extensions min_size max_size modified_after
              modified_before case_sensitive use_regex_name,
         forall r,
           outcome (FileSearchEngine._check_file w libs self file_path name_pattern
                      name_regex extensions (Some p) min_size max_size modified_after
                      modified_before case_sensitive use_regex_name) <> Ok (Some r).
Proof.
  intros self file_path p f Hopen Hnul.
  pose proof (scan_binary self file_path p Hopen Hnul) as Hscan.
  split; [exact Hscan|].
  intros. rewrite check_file_outcome_eq. intros H.
  apply check_file_Some in H as (_ & _ & _ & _ & _ & fs & mt & fm & _ & _ & _ & _ & Hc).
  unfold passes_content in Hc. rewrite Hscan in Hc. discriminate.
Qed.

Ltac split_scan :=
  repeat (exec;
          match goal with
          | |- context [if FileSearchEngine.stop_flag ?s then _ else _] =>
            destruct (FileSearchEngine.stop_flag s)
          | |- context [FileSearchEngine.use_gpu ?s] => destruct (FileSearchEngine.use_gpu s)
          | |- context [FileSearchEngine.gpu_engine ?s] =>
            destruct (FileSearchEngine.gpu_engine s)
          | |- context [os_path_getsize ?w ?f] => destruct (os_path_getsize w f)
          | |- context [open_rb ?w ?k ?f] => destruct (open_rb w k f)
          | |- context [mmap_read ?w ?f] => destruct (mmap_read w f)
          | |- context [re_search ?p ?t] => destruct (re_search p t) as [[|]|]
          | |- context [if ?a >? ?b then _ else _] => destruct (a >? b)
          | |- context [if ?a <? ?b then _ else _] => destruct (a <? b)
          | |- context [if ?a <=? ?b then _ else _] => destruct (a <=? b)
          | |- context [if ?a =? ?b then _ else _] => destruct (a =? b)
          | |- context [if has_nul ?c then _ else _] => destruct (has_nul c)
          | |- context [is_OSError ?x || is_ValueError ?x] =>
            destruct (is_OSError x || is_ValueError x)
          end);
  exec.

Ltac not_in_trace :=
  let H := fresh in
  intros H; try reflexivity; exfalso;
  repeat (destruct H as [H|H]; [discriminate|]); exact H.

Lemma scan_chunks_trace self file_path p mmapped file_size chunk offsets : forall r t,
  FileSearchEngine.scan_chunks self file_path p mmapped file_size chunk offsets = (r, t) ->
  forall ev, In ev t -> exists start stop, ev = EvSlice file_path start stop.
Proof.
  induction offsets as [|o rest IH]; cbn [FileSearchEngine.scan_chunks]; intros r t.
  - intros [= <- <-] ev [].
  - destruct (FileSearchEngine.stop_flag self); [intros [= <- <-] ev []|].
    destruct (FileSearchEngine.scan_chunks self file_path p mmapped file_size chunk rest)
      as [r' t'] eqn:Hrest.
    specialize (IH r' t' eq_refl).
    exec. destruct (re_search p _) as [[|]|e]; cbn; rewrite ?Hrest; cbn;
      intros [= <- <-] ev [<-|Hin]; eauto; try contradiction;
      rewrite ?app_nil_r in Hin; auto.
Qed.

Lemma scan_fails_on_mmap self file_path p e :
  mmap_read w file_path = Raise e ->
  In (EvMmap file_path) (trace (FileSearchEngine._search_in_file w libs self file_path p)) ->
  outcome (FileSearchEngine._search_in_file w libs self file_path p) = Ok false.
Proof.
  intros H. unfold FileSearchEngine._search_in_file, HybridSearchEngine.search_in_file.
  rewrite H. split_scan; not_in_trace.
Qed.

Lemma scan_fails_on_second_open self file_path p e :
  FileSearchEngine.use_gpu self = false \/ FileSearchEngine.gpu_engine self = None ->
  open_rb w 1 file_path = Raise e ->
  In (EvRead file_path None)
     (trace (FileSearchEngine._search_in_file w libs self file_path p)) ->
  outcome (FileSearchEngine._search_in_file w libs self file_path p) = Ok false.
Proof.
  intros Hcpu H. unfold FileSearchEngine._search_in_file.
  rewrite H. destruct Hcpu as [Hcpu|Hcpu]; rewrite Hcpu.
  all: split_scan; try not_in_trace.
  (* the chunked tier performs no second read *)
  all: destruct (FileSearchEngine.scan_chunks _ _ _ _ _ _ _) as [r t] eqn:Hscan.
  all: pose proof (scan_chunks_trace self file_path p _ _ _ _ Hscan) as Hslices.
  all: destruct r; cbn; intros Hin;
    repeat (destruct Hin as [Hin|Hin]; [discriminate|]);
    rewrite ?app_nil_r in Hin;
    apply Hslices in Hin as (x & y & Hin); discriminate.
Qed.

(** A scan that answers [False] leaves the file without a result. *)
Lemma check_file_needs_content self file_path name_pattern name_regex extensions p
      min_size max_size modified_after modified_before case_sensitive use_regex_name :
  outcome (FileSearchEngine._search_in_file w libs self file_path p) = Ok false ->
  forall r,
    check_file_outcome w libs self file_path name_pattern name_regex extensions
      (Some p) min_size max_size modified_after modified_before
      case_sensitive use_regex_name <> Ok (Some r).
Proof.
  intros Hscan r H.
  apply check_file_Some in H as (_ & _ & _ & _ & _ & fs & mt & fm & _ & _ & _ & _ & Hc).
  unfold passes_content in Hc. rewrite Hscan in Hc. discriminate.
Qed.

(** C3. The content scan never raises, and a fault of any of its accesses to
    the file makes it answer [False]: of [os.path.getsize], of the first
    [open] and read, of the second [open] and read of the full-read tier, of
    the [open] and [mmap] of the chunked tier. [_check_file] lets no OS-level
    error out and answers [None] whenever one of its steps raises one: the
    match of the name, [os.stat], [datetime.fromtimestamp]; and a file whose
    scan answered [False] gets no result. An exception that does leave a
    worker is dropped by the loop of [search], which goes on to the other
    files and returns their results. *)
Theorem io_faults_are_absorbed :
  forall (self : FileSearchEngine.t) (file_path name_pattern : str)
         (name_regex : option Pattern) (extensions : option (list str))
         (content_pattern : option Pattern) (min_size : Z) (max_size : option Z)
         (modified_after modified_before : option Z)
         (case_sensitive use_regex_name : bool) (p : Pattern),
    let check :=
      outcome (FileSearchEngine._check_file w libs self file_path name_pattern
                 name_regex extensions content_pattern min_size max_size
                 modified_after modified_before case_sensitive use_regex_name) in
    let run := FileSearchEngine._search_in_file w libs self file_path p in
    let scan := outcome run in
    let name := passes_name file_path name_pattern name_regex case_sensitive
                  use_regex_name in
    (exists b, scan = Ok b)
    /\ (forall e, os_path_getsize w file_path = Raise e -> scan = Ok false)
    /\ (forall e, open_rb w 0 file_path = Raise e -> scan = Ok false)
    /\ (forall e, open_rb w 1 file_path = Raise e ->
          FileSearchEngine.use_gpu self = false \/ FileSearchEngine.gpu_engine self = None ->
          In (EvRead file_path None) (trace run) -> scan = Ok false)
    /\ (forall e, mmap_read w file_path = Raise e ->
          In (EvMmap file_path) (trace run) -> scan = Ok false)
    /\ (forall e, check = Raise e -> is_OSError e = false)
    /\ (forall e, name = Raise e -> is_OSError e = true -> check = Ok None)
    /\ (forall e, os_stat w file_path = Raise e -> is_OSError e = true ->
          (forall e', name = Raise e' -> is_OSError e' = true) ->
          check = Ok None)
    /\ (forall file_size mtime e,
          os_stat w file_path = Ok (file_size, mtime) ->
          datetime_fromtimestamp w mtime = Raise e -> is_OSError e = true ->
          (forall e', name = Raise e' -> is_OSError e' = true) ->
          check = Ok None)
    /\ (content_pattern = Some p -> scan = Ok false -> forall r, check <> Ok (Some r))
    /\ (forall (a : SearchArgs) completion,
          content_compile_error a = None ->
          name_compile_error a = None ->
          0 < FileSearchEngine.max_workers self ->
          let futures := map (future_of w libs self a) (completion (candidates w self a)) in
          outcome (FileSearchEngine.search w libs self a None completion)
            = Ok (matches_of futures)
          /\ forall r, In (Ok (Some r)) futures ->
               exists results,
                 outcome (FileSearchEngine.search w libs self a None completion) = Ok results
                 /\ In r results).
Proof.
  intros self file_path name_pattern name_regex extensions content_pattern min_size
    max_size modified_after modified_before case_sensitive use_regex_name p
    check run scan name.
  subst check scan run name. rewrite check_file_outcome_eq.
  split; [apply search_in_file_never_raises|].
  split; [intros e; apply scan_fails_on_getsize|].
  split; [intros e; apply scan_fails_on_open|].
  split; [intros e He Hcpu; now apply scan_fails_on_second_open with (e := e)|].
  split; [intros e; apply scan_fails_on_mmap|].
  split; [|split; [|split; [|split; [|split]]]].
  - intros e. unfold check_file_outcome, absorbed.
    destruct (FileSearchEngine.stop_flag self); [discriminate|].
    destruct (os_path_isfile w file_path); [|discriminate]. cbn [negb].
    destruct (passes_name _ _ _ _ _) as [[|]|e1]; try discriminate.
    + destruct (passes_extension file_path extensions); [|discriminate]. cbn [negb].
      destruct (os_stat w file_path) as [[file_size mtime]|e2].
      * destruct (datetime_fromtimestamp w mtime) as [fm|e3].
        -- destruct (_ && _); discriminate.
        -- destruct (is_OSError e3) eqn:H3; [discriminate|]. now intros [= <-].
      * destruct (is_OSError e2) eqn:H2; [discriminate|]. now intros [= <-].
    + destruct (is_OSError e1) eqn:H1; [discriminate|]. now intros [= <-].
  - intros e Hname Hos. unfold check_file_outcome, absorbed.
    destruct (FileSearchEngine.stop_flag self); [reflexivity|].
    destruct (os_path_isfile w file_path); [|reflexivity]. cbn [negb].
    now rewrite Hname, Hos.
  - intros e Hstat Hos Hname. unfold check_file_outcome, absorbed.
    destruct (FileSearchEngine.stop_flag self); [reflexivity|].
    destruct (os_path_isfile w file_path); [|reflexivity]. cbn [negb].
    destruct (passes_name _ _ _ _ _) as [[|]|e1]; try reflexivity.
    + destruct (passes_extension file_path extensions); [|reflexivity]. cbn [negb].
      now rewrite Hstat, Hos.
    + now rewrite (Hname e1 eq_refl).
  - intros file_size mtime e Hstat Hfm Hos Hname. unfold check_file_outcome, absorbed.
    destruct (FileSearchEngine.stop_flag self); [reflexivity|].
    destruct (os_path_isfile w file_path); [|reflexivity]. cbn [negb].
    destruct (passes_name _ _ _ _ _) as [[|]|e1]; try reflexivity.
    + destruct (passes_extension file_path extensions); [|reflexivity]. cbn [negb].
      now rewrite Hstat, Hfm, Hos.
    + now rewrite (Hname e1 eq_refl).
  - intros -> Hscan. now apply check_file_needs_content.
  - intros a completion Hc Hn Hw futures.
    assert (Hrun : outcome (FileSearchEngine.search w libs self a None completion)
                   = Ok (matches_of futures)).
    { rewrite search_eq, Hc, Hn.
      destruct (Z.leb_spec (FileSearchEngine.max_workers self) 0); [lia|].
      cbv zeta. rewrite collect_silent by reflexivity. reflexivity. }
    split; [exact Hrun|].
    intros r Hr. exists (matches_of futures). split; [exact Hrun|].
    unfold matches_of. apply in_flat_map. exists (Ok (Some r)). split; [exact Hr|now left].
Qed.

End FaultClaims.

Section DecoderFacts.

Lemma utf8_ignore_step s :
  utf8_ignore s = fst (utf8_step s) ++ utf8_ignore (snd (utf8_step s)).
Proof.
  destruct s as [|ch s1]; [reflexivity|].
  cbn [utf8_ignore utf8_step].
  repeat match goal with
         | |- context [if ?c then _ else _] => destruct c
         | |- context [match ?l with [] => _ | _ :: _ => _ end] => destruct l
         end; reflexivity.
Qed.

Lemma utf8_step_shorter s : s <> [] -> (length (snd (utf8_step s)) < length s)%nat.
Proof.
  destruct s as [|ch s1]; [congruence|]. intros _.
  cbn [utf8_step].
  repeat match goal with
         | |- context [if ?c then _ else _] => destruct c
         | |- context [match ?l with [] => _ | _ :: _ => _ end] => destruct l
         end; simpl; lia.
Qed.

Lemma utf8_step_app x y :
  x <> [] -> starts_afresh y ->
  utf8_step (x ++ y) = (fst (utf8_step x), snd (utf8_step x) ++ y).
Proof.
  intros Hx Hy. destruct x as [|ch s1]; [congruence|].
  destruct y as [|b y']; [now rewrite !app_nil_r; destruct (utf8_step _)|].
  simpl in Hy.
  destruct s1 as [|ch2 [|ch3 [|ch4 s4]]]; cbn [utf8_step app];
    rewrite ?Hy; cbn [negb orb];
    repeat match goal with
           | |- context [if ?c then _ else _] => destruct c
           end; reflexivity.
Qed.

Lemma utf8_ignore_app_len n : forall x y,
  (length x <= n)%nat -> starts_afresh y ->
  utf8_ignore (x ++ y) = utf8_ignore x ++ utf8_ignore y.
Proof.
  induction n as [|n IH]; intros x y Hlen Hy.
  - destruct x; [reflexivity|simpl in Hlen; lia].
  - destruct x as [|ch s1]; [reflexivity|].
    rewrite (utf8_ignore_step ((ch :: s1) ++ y)), (utf8_ignore_step (ch :: s1)).
    rewrite utf8_step_app by (congruence || assumption). cbn [fst snd].
    assert (Hs := @utf8_step_shorter (ch :: s1) ltac:(congruence)).
    rewrite IH by (assumption || (simpl in *; lia)).
    now rewrite app_assoc.
Qed.

(** Decoding splits where a new sequence can only start: before a byte that
    is no continuation byte. *)
Lemma utf8_ignore_app x y :
  starts_afresh y -> utf8_ignore (x ++ y) = utf8_ignore x ++ utf8_ignore y.
Proof. intros. now apply utf8_ignore_app_len with (n := length x). Qed.

Lemma decode_ignore_app x y :
  starts_afresh (map Byte.to_N y) ->
  decode_ignore (x ++ y) = decode_ignore x ++ decode_ignore y.
Proof.
  intros H. unfold decode_ignore. rewrite map_app. now apply utf8_ignore_app.
Qed.

Lemma decode_ascii l : forallb is_ascii l = true -> decode_ignore l = map Byte.to_N l.
Proof.
  unfold decode_ignore, is_ascii.
  induction l as [|b l IH]; [reflexivity|]. cbn [forallb map].
  intros H. apply andb_true_iff in H as [Hb Hl].
  cbn [utf8_ignore]. rewrite Hb. f_equal. now apply IH.
Qed.

Lemma ascii_starts_afresh b l : is_ascii b = true -> starts_afresh (map Byte.to_N (b :: l)).
Proof.
  cbn [map starts_afresh]. unfold is_ascii, is_continuation. intros H.
  apply N.ltb_lt in H. destruct (N.leb_spec 128 (Byte.to_N b)); [lia|reflexivity].
Qed.

Lemma decode_never_valid bad : forall rest,
  forallb never_valid bad = true ->
  decode_ignore (bad ++ rest) = decode_ignore rest.
Proof.
  unfold decode_ignore.
  induction bad as [|b bad IH]; intros rest H; [reflexivity|].
  cbn [forallb] in H. apply andb_true_iff in H as [Hb Hbad].
  cbn [app map utf8_ignore]. rewrite <- (IH rest Hbad).
  unfold never_valid in Hb. cbv zeta in Hb.
  destruct (N.ltb_spec (Byte.to_N b) 128).
  { exfalso. repeat (apply orb_true_iff in Hb as [Hb|Hb]);
      [apply N.eqb_eq in Hb|apply N.eqb_eq in Hb|apply N.leb_le in Hb]; lia. }
  destruct (N.ltb_spec (Byte.to_N b) 194); [reflexivity|].
  assert (245 <= Byte.to_N b)%N.
  { repeat (apply orb_true_iff in Hb as [Hb|Hb]);
      [apply N.eqb_eq in Hb|apply N.eqb_eq in Hb|apply N.leb_le in Hb]; lia. }
  destruct (N.ltb_spec (Byte.to_N b) 224); [lia|].
  destruct (N.ltb_spec (Byte.to_N b) 240); [lia|].
  destruct (N.ltb_spec (Byte.to_N b) 245); [lia|]. reflexivity.
Qed.

Lemma never_valid_starts_afresh b l :
  never_valid b = true -> starts_afresh (map Byte.to_N (b :: l)).
Proof.
  cbn [map starts_afresh]. unfold never_valid, is_continuation. cbv zeta. intros Hb.
  destruct (N.leb_spec 128 (Byte.to_N b)); [|reflexivity].
  destruct (N.leb_spec (Byte.to_N b) 191); [|reflexivity].
  exfalso. repeat (apply orb_true_iff in Hb as [Hb|Hb]);
    [apply N.eqb_eq in Hb|apply N.eqb_eq in Hb|apply N.leb_le in Hb]; lia.
Qed.

End DecoderFacts.

Section TierFacts.
Context {rt : Runtime} (w : World) (libs : GpuLibs).

Lemma startswith_spec s p :
  startswith s p = true <-> exists rest, s = p ++ rest.
Proof.
  revert s. induction p as [|a p IH]; intros s.
  - destruct s; cbn [startswith]; (split; [intros _; eexists; reflexivity|reflexivity]).
  - destruct s as [|b s]; cbn [startswith];
      [split; [discriminate|intros [? H]; discriminate]|].
    rewrite andb_true_iff, IH. split.
    + intros [Hab [rest ->]]. apply N.eqb_eq in Hab. subst. exists rest. reflexivity.
    + intros [rest H]. inversion H; subst. split; [apply N.eqb_refl|].
      exists rest. reflexivity.
Qed.

(** [p in s] holds exactly when [s] is some text, then [p], then some text. *)
Lemma str_in_spec p s :
  str_in p s = true <-> exists before after, s = before ++ p ++ after.
Proof.
  induction s as [|c s IH]; cbn [str_in].
  - rewrite orb_false_r, startswith_spec. split.
    + intros [rest H]. exists [], rest. exact H.
    + intros (before & after & H). symmetry in H.
      apply app_eq_nil in H as [-> H]. exists after. now rewrite H.
  - rewrite orb_true_iff, startswith_spec, IH. split.
    + intros [[rest H]|(before & after & H)].
      * exists [], rest. exact H.
      * exists (c :: before), after. now rewrite H.
    + intros (before & after & H). destruct before as [|b before].
      * left. exists after. exact H.
      * right. inversion H; subst. exists before, after. reflexivity.
Qed.

Lemma dangerous_spec p :
  FileSearchEngine._is_dangerous_pattern p = true
  <-> exists shape, In shape FileSearchEngine.dangerous
                    /\ exists before after, pattern p = before ++ shape ++ after.
Proof.
  unfold FileSearchEngine._is_dangerous_pattern. rewrite existsb_exists.
  split; intros (shape & Hin & H); exists shape; (split; [exact Hin|]);
    now apply str_in_spec.
Qed.

Lemma scan_chunks_eq self file_path p mmapped file_size :
  FileSearchEngine.stop_flag self = false ->
  forall offsets,
    FileSearchEngine.scan_chunks self file_path p mmapped file_size (chunk_size p) offsets
    = (Ok (existsb (fun o => hit p (chunk_text p mmapped file_size o)) offsets),
       map (fun o => EvSlice file_path (chunk_start o) (chunk_stop p file_size o))
           (visited (fun o => hit p (chunk_text p mmapped file_size o)) offsets)).
Proof.
  intros Hrun. induction offsets as [|o rest IH]; [reflexivity|].
  cbn [FileSearchEngine.scan_chunks existsb visited map]. rewrite Hrun.
  unfold hit at 1 3, chunk_text at 1 3, chunk_start at 1 2, chunk_stop at 1 2.
  change (1 * KiB) with 1024.
  destruct (re_search p _) as [[|]|e]; exec; rewrite ?IH; reflexivity.
Qed.

(** What the CPU scan does with a file that is no smaller than 8 KiB, no
    larger than 100 MiB and has no NUL byte among its first 8 KiB. *)
Lemma cpu_scan_eq self file_path p content :
  FileSearchEngine.stop_flag self = false ->
  FileSearchEngine.use_gpu self = false ->
  os_path_getsize w file_path = Ok (Z.of_nat (length content)) ->
  open_rb w 0 file_path = Ok content ->
  (Z.of_nat (length content) <= safe_limit p -> open_rb w 1 file_path = Ok content) ->
  (safe_limit p < Z.of_nat (length content) -> mmap_read w file_path = Ok content) ->
  8192 <= Z.of_nat (length content) <= 100 * MiB ->
  has_nul (firstn (Z.to_nat 8192) content) = false ->
  FileSearchEngine._search_in_file w libs self file_path p =
  if Z.of_nat (length content) <=? safe_limit p
  then (Ok (hit p (decode_ignore content)),
        [EvGetsize file_path; EvRead file_path (Some 8192); EvRead file_path None])
  else
    let f o := hit p (chunk_text p content (Z.of_nat (length content)) o) in
    let offsets := range0 (Z.of_nat (length content)) (chunk_size p) in
    (Ok (existsb f offsets),
     [EvGetsize file_path; EvRead file_path (Some 8192); EvMmap file_path]
       ++ map (fun o => EvSlice file_path (chunk_start o)
                                (chunk_stop p (Z.of_nat (length content)) o))
              (visited f offsets)).
Proof.
  intros Hrun Hcpu Hsize Hhead Hall Hmap Hbounds Hnul.
  unfold FileSearchEngine._search_in_file. rewrite Hrun, Hcpu, Hsize. exec.
  assert (Hbig : (Z.of_nat (length content) >? 100 * 1024 * 1024) = false).
  { unfold MiB in Hbounds. rewrite Z.gtb_ltb. apply Z.ltb_ge. lia. }
  rewrite Hbig, Hhead. exec. rewrite Hnul.
  assert (Hlen : (Z.of_nat (length (firstn (Z.to_nat 8192) content)) <? 8192) = false).
  { apply Z.ltb_ge. rewrite length_firstn. lia. }
  rewrite Hlen.
  change (if FileSearchEngine._is_dangerous_pattern p
          then 1 * 1024 * 1024 else 5 * 1024 * 1024) with (safe_limit p).
  change (if FileSearchEngine._is_dangerous_pattern p
          then 512 * 1024 else 5 * 1024 * 1024) with (chunk_size p).
  destruct (Z.leb_spec (Z.of_nat (length content)) (safe_limit p)).
  - rewrite Hall by assumption. unfold hit.
    destruct (re_search p _) as [b|e]; reflexivity.
  - rewrite Hmap, scan_chunks_eq by assumption. reflexivity.
Qed.

(** What the CPU scan does with a file of fewer than 8 KiB without a NUL
    byte: the bytes read first are the whole file, and they are matched. *)
Lemma cpu_small_eq self file_path p content :
  FileSearchEngine.stop_flag self = false ->
  FileSearchEngine.use_gpu self = false ->
  os_path_getsize w file_path = Ok (Z.of_nat (length content)) ->
  open_rb w 0 file_path = Ok content ->
  Z.of_nat (length content) < 8192 ->
  has_nul content = false ->
  FileSearchEngine._search_in_file w libs self file_path p =
  (Ok (hit p (decode_ignore content)),
   [EvGetsize file_path; EvRead file_path (Some 8192)]).
Proof.
  intros Hrun Hcpu Hsize Hhead Hlen Hnul.
  unfold FileSearchEngine._search_in_file. rewrite Hrun, Hcpu, Hsize. exec.
  assert (Hbig : (Z.of_nat (length content) >? 100 * 1024 * 1024) = false).
  { rewrite Z.gtb_ltb. apply Z.ltb_ge. lia. }
  rewrite Hbig, Hhead. exec.
  rewrite firstn_all2 by lia. rewrite Hnul.
  apply Z.ltb_lt in Hlen. rewrite Hlen.
  unfold hit. destruct (re_search p _) as [b|e]; reflexivity.
Qed.

Lemma visited_incl (f : Z -> bool) offsets o : In o (visited f offsets) -> In o offsets.
Proof.
  induction offsets as [|a rest IH]; cbn [visited]; [tauto|].
  intros [H|H]; [now left|]. right. destruct (f a); [contradiction|auto].
Qed.

Lemma visited_hit (f : Z -> bool) offsets :
  existsb f offsets = true -> exists o, In o (visited f offsets) /\ f o = true.
Proof.
  induction offsets as [|a rest IH]; cbn [existsb visited]; [discriminate|].
  destruct (f a) eqn:Ha.
  - intros _. exists a. split; [now left|exact Ha].
  - cbn [orb]. intros H. destruct (IH H) as (o & Ho & Hf).
    exists o. split; [now right|exact Hf].
Qed.

Lemma chunk_size_pos p : 1 * KiB < chunk_size p.
Proof. unfold chunk_size, KiB, MiB. destruct (FileSearchEngine._is_dangerous_pattern p); lia. Qed.

Lemma range_from_spec n : forall start step o,
  In o (range_from n start step) <->
  exists k, (k < n)%nat /\ o = start + Z.of_nat k * step.
Proof.
  induction n as [|n IH]; intros start step o; cbn [range_from In].
  - split; [tauto|intros (k & Hk & _); lia].
  - rewrite IH. split.
    + intros [<-|(k & Hk & ->)].
      * exists 0%nat. split; lia.
      * exists (S k). split; lia.
    + intros ([|k] & Hk & ->).
      * left. lia.
      * right. exists k. split; lia.
Qed.

(** The nominal offsets are the multiples of the chunk size below the size
    of the file. *)
Lemma range0_spec stop step o :
  0 < step -> 0 <= stop ->
  (In o (range0 stop step) <-> exists k, 0 <= k /\ o = k * step /\ o < stop).
Proof.
  intros Hstep Hstop. unfold range0. rewrite range_from_spec.
  assert (Hq : 0 <= (stop + step - 1) / step) by (apply Z.div_pos; lia).
  split.
  - intros (k & Hk & ->). exists (Z.of_nat k). repeat split; try lia.
    assert (Z.of_nat k < (stop + step - 1) / step) by lia.
    assert (Z.of_nat k + 1 <= (stop + step - 1) / step) by lia.
    assert ((Z.of_nat k + 1) * step <= stop + step - 1).
    { etransitivity; [apply Z.mul_le_mono_nonneg_r; [lia|eassumption]|].
      rewrite Z.mul_comm. apply Z.mul_div_le. lia. }
    lia.
  - intros (k & Hk & -> & Hlt). exists (Z.to_nat k). split; [|lia].
    assert (k + 1 <= (stop + step - 1) / step)
      by (apply Z.div_le_lower_bound; lia).
    lia.
Qed.

Lemma slice_covers {A} (before m after : list A) start stop :
  0 <= start <= Z.of_nat (length before) ->
  Z.of_nat (length before + length m) <= stop ->
  exists x y, slice (before ++ m ++ after) start stop = x ++ m ++ y.
Proof.
  intros Hs He. unfold slice.
  rewrite skipn_app.
  replace (Z.to_nat start - length before)%nat with 0%nat by lia.
  cbn [skipn].
  rewrite firstn_app.
  assert (Hl : (length (skipn (Z.to_nat start) before) = length before - Z.to_nat start)%nat)
    by apply length_skipn.
  rewrite firstn_all2 by lia.
  rewrite firstn_app.
  rewrite firstn_all2 by lia.
  eauto.
Qed.

End TierFacts.

Section TierClaims.
Context {rt : Runtime} (w : World) (libs : GpuLibs).

(** C5. In the CPU scan of a file of more than 8 KiB and at most 100 MiB
    that passed the binary test, the whole file is read and matched in one
    pass exactly when its size is at most the safe full-read threshold, 5 MiB
    for an ordinary pattern and 1 MiB for a dangerous one; above it the file
    is scanned chunk by chunk, at the multiples of 5 MiB (512 KiB when
    dangerous). A pattern is dangerous exactly when its source text contains
    one of the eight fixed shapes. *)
Theorem tier_selection :
  forall (self : FileSearchEngine.t) (file_path : str) (p : Pattern) (content : bytes),
    FileSearchEngine.stop_flag self = false ->
    FileSearchEngine.use_gpu self = false ->
    os_path_getsize w file_path = Ok (Z.of_nat (length content)) ->
    open_rb w 0 file_path = Ok content ->
    open_rb w 1 file_path = Ok content ->
    mmap_read w file_path = Ok content ->
    8 * KiB < Z.of_nat (length content) <= 100 * MiB ->
    has_nul (firstn (Z.to_nat 8192) content) = false ->
    let file_size := Z.of_nat (length content) in
    let danger := FileSearchEngine._is_dangerous_pattern p in
    let limit := if danger then 1 * MiB else 5 * MiB in
    let chunk := if danger then 512 * KiB else 5 * MiB in
    let run := FileSearchEngine._search_in_file w libs self file_path p in
    let f o := hit p (chunk_text p content file_size o) in
    (file_size <= limit ->
       run = (Ok (hit p (decode_ignore content)),
              [EvGetsize file_path; EvRead file_path (Some 8192); EvRead file_path None]))
    /\ (limit < file_size ->
          run = (Ok (existsb f (range0 file_size chunk)),
                 [EvGetsize file_path; EvRead file_path (Some 8192); EvMmap file_path]
                   ++ map (fun o => EvSlice file_path (Z.max 0 (o - 1 * KiB))
                                            (Z.min file_size (o + chunk)))
                          (visited f (range0 file_size chunk))))
    /\ (In (EvRead file_path None) (trace run) <-> file_size <= limit)
    /\ (forall o, In o (range0 file_size chunk)
                  <-> exists k, 0 <= k /\ o = k * chunk /\ o < file_size)
    /\ (danger = true
        <-> exists shape,
              In shape [lit "[\s\S]*"; lit "[\s\S]+"; lit "[\w\W]*"; lit "[\w\W]+";
                        lit "[\d\D]*"; lit "[\d\D]+"; lit ".*?"; lit ".+?"]
              /\ exists before after, pattern p = before ++ shape ++ after).
Proof.
  intros self file_path p content Hrun Hcpu Hsize Hhead Hall Hmap Hbounds Hnul
    file_size danger limit chunk run f.
  assert (Heq := @cpu_scan_eq rt w libs self file_path p content Hrun Hcpu Hsize Hhead
                   (fun _ => Hall) (fun _ => Hmap)).
  unfold KiB in Hbounds. specialize (Heq ltac:(lia) Hnul).
  fold run in Heq. change (safe_limit p) with limit in Heq.
  fold file_size in Heq.
  split; [|split; [|split; [|split]]].
  - intros Hle. rewrite Heq. apply Z.leb_le in Hle. now rewrite Hle.
  - intros Hgt. rewrite Heq. apply Z.leb_gt in Hgt. now rewrite Hgt.
  - rewrite Heq. destruct (Z.leb_spec file_size limit) as [Hle|Hgt]; unfold trace; cbn [snd].
    + split; [auto|]. intros _. right; right; now left.
    + split; [|lia]. intros [H0|[H0|[H0|H0]]]; try discriminate.
      apply in_map_iff in H0 as (o & Ho & _). discriminate.
  - intros o. apply range0_spec; [|lia].
    subst chunk. unfold KiB, MiB. destruct danger; lia.
  - apply dangerous_spec.
Qed.

(** C6, as the code has it. In the chunked scan every chunk after the first
    starts 1 KiB before its nominal offset, and each chunk is searched alone.
    So when the file holds, within the window of one chunk (from 1 KiB before
    a chunk boundary to the end of that chunk), bytes that the pattern
    matches whatever text surrounds them, the pattern matches the chunk of
    that boundary and the scan returns [True], after reading the chunks in
    order up to the first one that matches. A match that straddles the
    boundary and starts at most 1 KiB before it lies in that window. *)
Theorem chunk_overlap_finds_boundary_match :
  forall (self : FileSearchEngine.t) (file_path : str) (p : Pattern)
         (content before m after : bytes) (k : Z),
    FileSearchEngine.stop_flag self = false ->
    FileSearchEngine.use_gpu self = false ->
    os_path_getsize w file_path = Ok (Z.of_nat (length content)) ->
    open_rb w 0 file_path = Ok content ->
    mmap_read w file_path = Ok content ->
    safe_limit p < Z.of_nat (length content) <= 100 * MiB ->
    has_nul (firstn (Z.to_nat 8192) content) = false ->
    content = before ++ m ++ after ->
    (forall x y, re_search p (decode_ignore (x ++ m ++ y)) = Ok true) ->
    1 <= k ->
    let boundary := k * chunk_size p in
    boundary < Z.of_nat (length content) ->
    boundary - 1 * KiB <= Z.of_nat (length before) ->
    Z.of_nat (length before) + Z.of_nat (length m) <= boundary + chunk_size p ->
    let run := FileSearchEngine._search_in_file w libs self file_path p in
    let file_size := Z.of_nat (length content) in
    let f o := hit p (chunk_text p content file_size o) in
    let offsets := range0 file_size (chunk_size p) in
    outcome run = Ok true
    /\ (forall start stop, In (EvSlice file_path start stop) (trace run) ->
          start = 0 \/ exists j, 1 <= j /\ start = j * chunk_size p - 1 * KiB)
    /\ (In boundary offsets
        /\ chunk_start boundary = boundary - 1 * KiB
        /\ f boundary = true)
    /\ trace run
       = [EvGetsize file_path; EvRead file_path (Some 8192); EvMmap file_path]
           ++ map (fun o => EvSlice file_path (chunk_start o) (chunk_stop p file_size o))
                  (visited f offsets)
    /\ (exists o, In (EvSlice file_path (chunk_start o) (chunk_stop p file_size o))
                     (trace run)
                  /\ f o = true).
Proof.
  intros self file_path p content before m after k Hrun Hcpu Hsize Hhead Hmap
    Hbounds Hnul Hcontent Hmatch Hk boundary Hb Hlo Hhi run file_size f offsets.
  pose proof (chunk_size_pos p) as Hcs.
  assert (Hlim : 8192 <= safe_limit p).
  { unfold safe_limit, MiB. destruct (FileSearchEngine._is_dangerous_pattern p); lia. }
  assert (Heq := @cpu_scan_eq rt w libs self file_path p content Hrun Hcpu Hsize Hhead
                   ltac:(lia) (fun _ => Hmap) ltac:(lia) Hnul).
  fold run in Heq.
  destruct (Z.leb_spec (Z.of_nat (length content)) (safe_limit p)); [lia|].
  cbv zeta in Heq. fold file_size f offsets in Heq.
  unfold KiB in *.
  assert (Hin : In boundary offsets).
  { apply range0_spec; [lia|lia|]. exists k. repeat split; lia. }
  assert (Hhit : f boundary = true).
  { unfold f, hit, chunk_text.
    assert (Hlen : length content = (length before + (length m + length after))%nat)
      by (rewrite Hcontent, !length_app; reflexivity).
    destruct (@slice_covers _ before m after (chunk_start boundary)
                (chunk_stop p file_size boundary))
      as (x & y & Hslice).
    - unfold chunk_start, KiB. lia.
    - unfold chunk_stop, file_size. lia.
    - rewrite Hcontent at 1. rewrite Hslice, Hmatch. reflexivity. }
  assert (Hany : existsb f offsets = true).
  { apply existsb_exists. exists boundary. split; assumption. }
  rewrite Heq. unfold outcome, trace. cbn [fst snd].
  split; [now rewrite Hany|].
  split; [|split; [|split]].
  - intros start stop [H0|[H0|[H0|H0]]]; try discriminate.
    apply in_map_iff in H0 as (o & Ho & Hino). inversion Ho; subst start stop; clear Ho.
    apply visited_incl in Hino. apply range0_spec in Hino; [|lia|unfold file_size; lia].
    destruct Hino as (j & Hj & -> & _). unfold chunk_start, KiB.
    destruct (Z.eq_dec j 0) as [->|Hne]; [left; lia|].
    right. exists j. split; [lia|]. nia.
  - split; [exact Hin|]. split; [|exact Hhit].
    unfold chunk_start, KiB. subst boundary. nia.
  - reflexivity.
  - destruct (visited_hit f offsets Hany) as (o & Ho & Hf).
    exists o. split; [|exact Hf].
    right; right; right. apply in_map_iff. exists o. split; [reflexivity|exact Ho].
Qed.

(** C8, as the code has it. Decoding is lenient by dropping: bytes that occur
    in no UTF-8 sequence, between two fragments, leave nothing in the decoded
    text, which is the decoded first fragment followed by the decoded second
    one; the pattern is applied to that text. *)
Theorem invalid_bytes_are_dropped :
  forall (f1 bad f2 : bytes),
    bad <> [] ->
    forallb never_valid bad = true ->
    decode_ignore (f1 ++ bad ++ f2) = decode_ignore f1 ++ decode_ignore f2
    /\ forall (self : FileSearchEngine.t) (file_path : str) (p : Pattern),
         FileSearchEngine.stop_flag self = false ->
         FileSearchEngine.use_gpu self = false ->
         os_path_getsize w file_path = Ok (Z.of_nat (length (f1 ++ bad ++ f2))) ->
         open_rb w 0 file_path = Ok (f1 ++ bad ++ f2) ->
         Z.of_nat (length (f1 ++ bad ++ f2)) < 8192 ->
         has_nul (f1 ++ bad ++ f2) = false ->
         outcome (FileSearchEngine._search_in_file w libs self file_path p)
         = Ok (hit p (decode_ignore f1 ++ decode_ignore f2)).
Proof.
  intros f1 bad f2 Hne Hbad.
  assert (Hdec : decode_ignore (f1 ++ bad ++ f2) = decode_ignore f1 ++ decode_ignore f2).
  { destruct bad as [|b bad']; [congruence|].
    rewrite decode_ignore_app.
    - f_equal. now apply decode_never_valid.
    - cbn [forallb] in Hbad. apply andb_true_iff in Hbad as [Hb _].
      now apply never_valid_starts_afresh. }
  split; [exact Hdec|].
  intros self file_path p Hrun Hcpu Hsize Hhead Hlen Hnul.
  rewrite (@cpu_small_eq rt w libs self file_path p (f1 ++ bad ++ f2)) by assumption.
  unfold outcome. cbn [fst]. now rewrite Hdec.
Qed.

End TierClaims.

Section HybridFacts.
Context {rt : Runtime} (w : World) (libs : GpuLibs).

Lemma search_cpu_eq R text p :
  GPUPatternMatcher._search_cpu R text p = (Ok (hit p (decode_ignore text)), []).
Proof.
  unfold GPUPatternMatcher._search_cpu, hit. exec.
  destruct (re_search p (decode_ignore text)); reflexivity.
Qed.



Ltac device :=
  unfold bind, lift, ret, raise, try_except, Exception; cbn [app fst snd].

(** The literal search of CuPy touches no file and always answers. *)
Lemma check_positions_silent R text_gpu pattern_gpu pattern_len positions :
  snd (GPUPatternMatcher.check_positions w R text_gpu pattern_gpu pattern_len positions) = [].
Proof.
  induction positions as [|i rest IH]; [reflexivity|].
  cbn [GPUPatternMatcher.check_positions]. cbv zeta.
  destruct (_ =? _); [|exact IH].
  unfold GPUPatternMatcher.cp_all_equal.
  destruct (cp_compare_fault w i); [reflexivity|].
  destruct (str_eqb _ _); [reflexivity|].
  unfold bind, ret. cbn [app].
  destruct (GPUPatternMatcher.check_positions _ _ _ _ _ _) as [r t]. cbn [snd] in IH.
  now rewrite IH.
Qed.

Lemma check_positions_batch_ok R text_gpu pattern_gpu pattern_len start_pos end_pos :
  exists found,
    GPUPatternMatcher._check_positions_batch w R text_gpu pattern_gpu pattern_len
      start_pos end_pos = (Ok found, []).
Proof.
  unfold GPUPatternMatcher._check_positions_batch, try_except.
  pose proof (check_positions_silent R text_gpu pattern_gpu pattern_len
                (range start_pos end_pos)) as Ht.
  destruct (GPUPatternMatcher.check_positions _ _ _ _ _ _) as [[found|e] t];
    cbn [snd] in Ht; subst t; eexists; reflexivity.
Qed.

Lemma search_batches_ok R text_gpu pattern_gpu pattern_len num_positions batch_size starts :
  exists found,
    GPUPatternMatcher.search_batches w R text_gpu pattern_gpu pattern_len
      num_positions batch_size starts = (Ok found, []).
Proof.
  induction starts as [|start_pos rest IH]; [exists false; reflexivity|].
  cbn [GPUPatternMatcher.search_batches]. cbv zeta.
  destruct (check_positions_batch_ok R text_gpu pattern_gpu pattern_len start_pos
              (Z.min (start_pos + batch_size) num_positions)) as [found ->].
  destruct found; [exists true; reflexivity|].
  destruct IH as [found IH]. exists found. unfold bind. now rewrite IH.
Qed.

Lemma literal_search_gpu_ok R text substring :
  exists found,
    GPUPatternMatcher._literal_search_gpu w R text substring = (Ok found, []).
Proof.
  unfold GPUPatternMatcher._literal_search_gpu, GPUPatternMatcher.cp_asarray.
  destruct (utf8_encode text) as [text_array|e]; [|eexists; reflexivity].
  destruct (utf8_encode substring) as [pattern_array|e]; [|eexists; reflexivity].
  device.
  destruct (cp_asarray_fault w text_array); [eexists; reflexivity|]. device.
  destruct (cp_asarray_fault w pattern_array); [eexists; reflexivity|]. device.
  destruct (_ >? _); [eexists; reflexivity|].
  destruct (search_batches_ok R text_array pattern_array
              (Z.of_nat (length pattern_array))
              (Z.of_nat (length text_array) - Z.of_nat (length pattern_array) + 1)
              10000000
              (range0 (Z.of_nat (length text_array) - Z.of_nat (length pattern_array) + 1)
                      10000000)) as [found ->].
  eexists; reflexivity.
Qed.

(** A fault while the arrays are copied to the device sends the literal
    search of CuPy to the substring test [substring in text]. *)
Lemma literal_search_gpu_copy_fault R text substring :
  (forall a, utf8_encode text = Ok a -> cp_asarray_fault w a <> None) ->
  GPUPatternMatcher._literal_search_gpu w R text substring
  = (Ok (str_in substring text), []).
Proof.
  intros Hfault.
  unfold GPUPatternMatcher._literal_search_gpu, GPUPatternMatcher.cp_asarray.
  destruct (utf8_encode text) as [text_array|e]; [|reflexivity].
  specialize (Hfault text_array eq_refl).
  destruct (utf8_encode substring) as [pattern_array|e]; [|reflexivity].
  device.
  destruct (cp_asarray_fault w text_array); [reflexivity|congruence].
Qed.

(** A fault of the comparisons on the device is answered [False] by each
    batch, and so by the literal search of CuPy, whatever the text holds. *)
Lemma check_positions_compare_fault R text_gpu pattern_gpu pattern_len positions :
  (forall i, cp_compare_fault w i <> None) ->
  fst (GPUPatternMatcher.check_positions w R text_gpu pattern_gpu pattern_len positions)
  <> Ok true.
Proof.
  intros Hfault. induction positions as [|i rest IH]; [discriminate|].
  cbn [GPUPatternMatcher.check_positions]. cbv zeta.
  destruct (_ =? _); [|exact IH].
  unfold GPUPatternMatcher.cp_all_equal.
  specialize (Hfault i). destruct (cp_compare_fault w i); [discriminate|congruence].
Qed.

Lemma search_batches_compare_fault R text_gpu pattern_gpu pattern_len num_positions
      batch_size starts :
  (forall i, cp_compare_fault w i <> None) ->
  GPUPatternMatcher.search_batches w R text_gpu pattern_gpu pattern_len
    num_positions batch_size starts = (Ok false, []).
Proof.
  intros Hfault. induction starts as [|start_pos rest IH]; [reflexivity|].
  cbn [GPUPatternMatcher.search_batches]. cbv zeta.
  unfold GPUPatternMatcher._check_positions_batch, try_except.
  pose proof (check_positions_silent R text_gpu pattern_gpu pattern_len
                (range start_pos (Z.min (start_pos + batch_size) num_positions))) as Ht.
  pose proof (@check_positions_compare_fault R text_gpu pattern_gpu pattern_len
                (range start_pos (Z.min (start_pos + batch_size) num_positions)) Hfault)
    as Hno.
  destruct (GPUPatternMatcher.check_positions _ _ _ _ _ _) as [[[|]|e] t];
    cbn [fst snd] in Ht, Hno; subst t; try congruence;
    unfold bind, Exception, ret; cbn [app]; now rewrite IH.
Qed.

Lemma literal_search_gpu_compare_fault R text substring text_array pattern_array :
  utf8_encode text = Ok text_array ->
  utf8_encode substring = Ok pattern_array ->
  cp_asarray_fault w text_array = None ->
  cp_asarray_fault w pattern_array = None ->
  (forall i, cp_compare_fault w i <> None) ->
  GPUPatternMatcher._literal_search_gpu w R text substring = (Ok false, []).
Proof.
  intros Ht Hp Hct Hcp Hfault.
  unfold GPUPatternMatcher._literal_search_gpu, GPUPatternMatcher.cp_asarray.
  rewrite Ht, Hp. device. rewrite Hct. device. rewrite Hcp. device.
  destruct (_ >? _); [reflexivity|].
  now rewrite search_batches_compare_fault.
Qed.

(** A fault of a transfer to the device, or of the launch of the kernel, is
    answered [False] by [_run_cuda_kernel], and so by the literal search of
    Numba. *)
Lemma run_cuda_kernel_ok R m text pattern :
  exists found,
    GPUPatternMatcher._run_cuda_kernel w libs R m text pattern = (Ok found, []).
Proof.
  unfold GPUPatternMatcher._run_cuda_kernel.
  destruct (USE_NUMBA libs); [|eexists; reflexivity]. cbn [negb]. cbv zeta.
  destruct (_ >? _); [eexists; reflexivity|].
  unfold GPUPatternMatcher.cuda_to_device, GPUPatternMatcher.cuda_launch.
  destruct (cuda_to_device_fault w text); [eexists; reflexivity|]. device.
  destruct (cuda_to_device_fault w pattern); [eexists; reflexivity|]. device.
  destruct (cuda_to_device_fault w [0%N]); [eexists; reflexivity|]. device.
  unfold floordiv. destruct (_ =? 0); [eexists; reflexivity|]. device.
  destruct (cuda_kernel_fault w); eexists; reflexivity.
Qed.

Lemma run_cuda_kernel_fault R m text pattern :
  cuda_kernel_fault w <> None \/ (forall a, cuda_to_device_fault w a <> None) ->
  GPUPatternMatcher._run_cuda_kernel w libs R m text pattern = (Ok false, []).
Proof.
  intros Hfault. unfold GPUPatternMatcher._run_cuda_kernel.
  destruct (USE_NUMBA libs); [|reflexivity]. cbn [negb]. cbv zeta.
  destruct (_ >? _); [reflexivity|].
  unfold GPUPatternMatcher.cuda_to_device, GPUPatternMatcher.cuda_launch.
  destruct (cuda_to_device_fault w text) eqn:H1; [reflexivity|]. device.
  destruct (cuda_to_device_fault w pattern) eqn:H2; [reflexivity|]. device.
  destruct (cuda_to_device_fault w [0%N]) eqn:H3; [reflexivity|]. device.
  destruct Hfault as [Hk|Hd]; [|now destruct (Hd text)].
  unfold floordiv. destruct (_ =? 0); [reflexivity|]. device.
  destruct (cuda_kernel_fault w); [reflexivity|congruence].
Qed.

Lemma literal_search_numba_ok R m text substring :
  exists found,
    GPUPatternMatcher._literal_search_numba w libs R m text substring = (Ok found, []).
Proof.
  unfold GPUPatternMatcher._literal_search_numba.
  destruct (utf8_encode text) as [text_array|e]; [|eexists; reflexivity].
  destruct (utf8_encode substring) as [pattern_array|e]; [|eexists; reflexivity].
  device.
  destruct (run_cuda_kernel_ok R m text_array pattern_array) as [found ->].
  eexists; reflexivity.
Qed.

Lemma literal_search_numba_fault R m text substring text_array pattern_array :
  utf8_encode text = Ok text_array ->
  utf8_encode substring = Ok pattern_array ->
  cuda_kernel_fault w <> None \/ (forall a, cuda_to_device_fault w a <> None) ->
  GPUPatternMatcher._literal_search_numba w libs R m text substring = (Ok false, []).
Proof.
  intros Ht Hp Hfault. unfold GPUPatternMatcher._literal_search_numba.
  rewrite Ht, Hp. device.
  now rewrite run_cuda_kernel_fault.
Qed.

(** A plain string that passes the classification goes to the device: to the
    literal search of CuPy when CuPy is there, else to that of Numba. *)
Lemma text_gpu_literal R m text p :
  GPUPatternMatcher.gpu_available m = true ->
  min_file_size_for_gpu (GPUPatternMatcher.config m) <= Z.of_nat (length text) ->
  GPUPatternMatcher.is_pattern_gpu_friendly m (pattern p) = true ->
  GPUPatternMatcher._is_literal_pattern (pattern p) = true ->
  GPUPatternMatcher.search_in_text_gpu w libs R m text p
  = if USE_CUPY libs
    then GPUPatternMatcher._literal_search_gpu w R (decode_ignore text) (pattern p)
    else if USE_NUMBA libs
    then GPUPatternMatcher._literal_search_numba w libs R m (decode_ignore text) (pattern p)
    else (Ok (hit p (decode_ignore text)), []).
Proof.
  intros Hav Hmin Hfr Hlit.
  unfold GPUPatternMatcher.search_in_text_gpu, GPUPatternMatcher._search_cupy,
    GPUPatternMatcher._search_numba.
  rewrite Hav, Hfr, Hlit. cbn [negb orb].
  apply Z.ltb_ge in Hmin. rewrite Hmin. cbv zeta.
  destruct (USE_CUPY libs).
  - destruct (literal_search_gpu_ok R (decode_ignore text) (pattern p)) as [found ->].
    reflexivity.
  - destruct (USE_NUMBA libs).
    + destruct (literal_search_numba_ok R m (decode_ignore text) (pattern p)) as [found ->].
      reflexivity.
    + now rewrite search_cpu_eq.
Qed.

(** What the hybrid engine does with a file of at least 1 MiB and at most
    100 MiB without a NUL byte among its first 8 KiB. *)
Lemma hybrid_scan_eq self engine file_path p content :
  FileSearchEngine.stop_flag self = false ->
  FileSearchEngine.use_gpu self = true ->
  FileSearchEngine.gpu_engine self = Some engine ->
  os_path_getsize w file_path = Ok (Z.of_nat (length content)) ->
  open_rb w 0 file_path = Ok content ->
  mmap_read w file_path = Ok content ->
  1 * MiB <= Z.of_nat (length content) <= 100 * MiB ->
  has_nul (firstn (Z.to_nat 8192) content) = false ->
  outcome (FileSearchEngine._search_in_file w libs self file_path p)
  = if cfg_use_gpu (HybridSearchEngine.config engine)
       && (min_file_size_for_gpu (HybridSearchEngine.config engine)
           <=? Z.of_nat (length content))
       && GPUPatternMatcher.gpu_available (HybridSearchEngine.gpu_matcher engine)
    then
      match outcome (GPUPatternMatcher.search_in_text_gpu w libs SearchResult
                       (HybridSearchEngine.gpu_matcher engine) content p) with
      | Ok b => Ok b
      | Raise _ => Ok false
      end
    else Ok (hit p (decode_ignore content)).
Proof.
  intros Hrun Hgpu Heng Hsize Hhead Hmap Hbounds Hnul. unfold MiB in Hbounds.
  unfold FileSearchEngine._search_in_file, HybridSearchEngine.search_in_file.
  rewrite Hrun, Hgpu, Heng, Hsize. exec.
  assert (Hbig : (Z.of_nat (length content) >? 100 * 1024 * 1024) = false).
  { rewrite Z.gtb_ltb. apply Z.ltb_ge. lia. }
  rewrite Hbig, Hhead. exec. rewrite Hnul.
  assert (Hsmall : (Z.of_nat (length content) <? 1024 * 1024) = false)
    by (apply Z.ltb_ge; lia).
  rewrite Hsmall, Hmap. exec.
  destruct (cfg_use_gpu _ && _ && _).
  - destruct (GPUPatternMatcher.search_in_text_gpu _ _ _ _ _ _) as [[b|e] t]; cbn.
    + reflexivity.
    + destruct (is_OSError e || is_ValueError e); reflexivity.
  - unfold hit. destruct (re_search p _); reflexivity.
Qed.



End HybridFacts.

Section ExampleFacts.
Import Example.

Lemma str_eqb_refl s : str_eqb s s = true.
Proof. induction s as [|c s IH]; [reflexivity|]. cbn. now rewrite N.eqb_refl. Qed.

Lemma big_tree_getsize content :
  os_path_getsize (big_tree content) big_txt = Ok (Z.of_nat (length content)).
Proof.
  unfold big_tree, world, os_path_getsize, find. cbn [filter fst snd].
  fold big_txt. now rewrite str_eqb_refl.
Qed.

Lemma big_tree_open content k : open_rb (big_tree content) k big_txt = Ok content.
Proof.
  unfold big_tree, world, open_rb, read, find. cbn [filter fst snd].
  fold big_txt. now rewrite str_eqb_refl.
Qed.

Lemma big_tree_mmap content : mmap_read (big_tree content) big_txt = Ok content.
Proof.
  unfold big_tree, world, mmap_read, read, find. cbn [filter fst snd].
  fold big_txt. now rewrite str_eqb_refl.
Qed.

Lemma padded_length n1 m n2 :
  Z.of_nat (length (padded n1 m n2)) = Z.of_nat n1 + Z.of_nat (length m) + Z.of_nat n2.
Proof. unfold padded. rewrite !length_app, !repeat_length. lia. Qed.

Lemma existsb_repeat {A} (f : A -> bool) a n : f a = false -> existsb f (repeat a n) = false.
Proof. intros H. induction n; cbn; [reflexivity|]. now rewrite H. Qed.

Lemma existsb_firstn_repeat {A} (f : A -> bool) a n :
  f a = false -> forall k, existsb f (firstn k (repeat a n)) = false.
Proof.
  intros H. induction n as [|n IH]; intros [|k]; cbn; try reflexivity.
  rewrite H. apply IH.
Qed.

Lemma forallb_repeat {A} (f : A -> bool) a n : f a = true -> forallb f (repeat a n) = true.
Proof. intros H. induction n; cbn; [reflexivity|]. now rewrite H. Qed.

Lemma padded_head n1 m n2 k :
  (k <= n1)%nat -> has_nul (firstn k (padded n1 m n2)) = false.
Proof.
  intros Hk. unfold padded, has_nul. rewrite firstn_app, repeat_length.
  replace (k - n1)%nat with 0%nat by lia. cbn [firstn]. rewrite app_nil_r.
  apply existsb_firstn_repeat. reflexivity.
Qed.

Lemma padded_ascii n1 m n2 :
  forallb is_ascii m = true -> forallb is_ascii (padded n1 m n2) = true.
Proof.
  intros H. unfold padded. rewrite !forallb_app, H, !forallb_repeat; reflexivity.
Qed.

Lemma decode_ascii_app l y :
  forallb is_ascii l = true ->
  decode_ignore (l ++ y) = map Byte.to_N l ++ decode_ignore y.
Proof.
  intros H. destruct y as [|b y].
  - rewrite app_nil_r. cbn. rewrite app_nil_r. now apply decode_ascii.
  - destruct l as [|a l]; [reflexivity|].
    unfold decode_ignore. rewrite map_app. revert H. generalize (a :: l). clear.
    intros l H. induction l as [|c l IH]; [reflexivity|].
    cbn [forallb] in H. apply andb_true_iff in H as [Hc Hl].
    cbn [map app utf8_ignore]. unfold is_ascii in Hc. rewrite Hc. f_equal. now apply IH.
Qed.

(** With the plain library, a pattern that spells an ASCII text is found in
    every file that holds that text. *)
Lemma plain_found (p : Pattern) (m x y : bytes) :
  ignorecase p = false ->
  unescape (pattern p) = map Byte.to_N m ->
  forallb is_ascii m = true ->
  m <> [] ->
  re_search p (decode_ignore (x ++ m ++ y)) = Ok true.
Proof.
  intros Hcase Hpat Hascii Hne. cbn [re_search plain]. rewrite Hcase. cbn [fold_case].
  f_equal. apply str_in_spec.
  destruct m as [|b m']; [congruence|].
  rewrite decode_ignore_app.
  - rewrite decode_ascii_app by assumption. rewrite Hpat. eauto.
  - cbn [forallb] in Hascii. apply andb_true_iff in Hascii as [Hb _].
    now apply ascii_starts_afresh.
Qed.

Lemma slice_prefix {A} (l1 l2 : list A) stop :
  length l1 = Z.to_nat stop -> slice (l1 ++ l2) 0 stop = l1.
Proof.
  intros H. unfold slice. rewrite Z.sub_0_r. cbn [Z.to_nat skipn].
  rewrite firstn_app, <- H, Nat.sub_diag, firstn_all. cbn [firstn]. apply app_nil_r.
Qed.

Lemma slice_suffix {A} (l1 l2 : list A) start stop :
  length l1 = Z.to_nat start ->
  (length l2 <= Z.to_nat (stop - start))%nat ->
  slice (l1 ++ l2) start stop = l2.
Proof.
  intros H1 H2. unfold slice. rewrite skipn_app, <- H1, Nat.sub_diag, skipn_all.
  cbn [skipn app]. now apply firstn_all2.
Qed.




End ExampleFacts.

Section BigFileFacts.
Import Example.

Lemma hello_found x y :
  re_search hello (decode_ignore (x ++ ascii_bytes "hello" ++ y)) = Ok true.
Proof. apply plain_found; try reflexivity. discriminate. Qed.

Lemma hello_tiers : safe_limit hello = 5242880 /\ chunk_size hello = 5242880.
Proof. split; vm_compute; reflexivity. Qed.


Lemma medium_file_size : Z.of_nat (length medium_file) = 9000.
Proof.
  unfold medium_file. rewrite padded_length.
  change (length (ascii_bytes "hello")) with 5%nat. lia.
Qed.

Lemma hello_file_size : Z.of_nat (length hello_file) = 5242983.
Proof.
  unfold hello_file. rewrite padded_length.
  change (length (ascii_bytes "hello")) with 5%nat. lia.
Qed.







End BigFileFacts.

Section LookbehindFacts.
Import Example.

Ltac sizes :=
  rewrite ?length_app, ?repeat_length;
  repeat match goal with
         | |- context [length (ascii_bytes ?s)] =>
           let n := eval vm_compute in (length (ascii_bytes s)) in
           change (length (ascii_bytes s)) with n
         end;
  cbn [length]; lia.

Lemma slice_middle {A} (l1 l2 l3 : list A) start stop :
  length l1 = Z.to_nat start ->
  length l2 = Z.to_nat (stop - start) ->
  slice (l1 ++ l2 ++ l3) start stop = l2.
Proof.
  intros H1 H2. unfold slice. rewrite skipn_app, <- H1, Nat.sub_diag, skipn_all.
  cbn [skipn app]. rewrite firstn_app, <- H2, Nat.sub_diag, firstn_all.
  cbn [firstn]. apply app_nil_r.
Qed.

Lemma dots_repeat n c rest : N.eqb c 10 = false -> dots n (repeat c n ++ rest) = Some rest.
Proof. intros H. induction n as [|n IH]; [reflexivity|]. cbn. now rewrite H. Qed.

Lemma dots_suffix (f : N -> bool) n : forall s rest,
  dots n s = Some rest -> existsb f rest = true -> existsb f s = true.
Proof.
  induction n as [|n IH]; intros s rest; cbn [dots].
  - now intros [= ->].
  - destruct s as [|c s]; [discriminate|].
    destruct (N.eqb c 10); [discriminate|].
    intros H Hr. cbn [existsb]. rewrite (IH _ _ H Hr). apply orb_true_r.
Qed.

Lemma lookbehind_search_skip x y :
  lookbehind_search y = true -> lookbehind_search (x ++ y) = true.
Proof.
  intros H. induction x as [|c x IH]; [exact H|].
  cbn [app lookbehind_search]. rewrite IH. apply orb_true_r.
Qed.

(** No match without a [Z], and none without an [l]. *)
Lemma lookbehind_needs_Z s :
  existsb (N.eqb 90) s = false -> lookbehind_search s = false.
Proof.
  induction s as [|c s IH]; [reflexivity|].
  cbn [existsb lookbehind_search lookbehind_at].
  intros H. apply orb_false_iff in H as [Hc Hs].
  rewrite N.eqb_sym, Hc, (IH Hs). reflexivity.
Qed.

Lemma lookbehind_needs_l s :
  existsb (N.eqb 108) s = false -> lookbehind_search s = false.
Proof.
  induction s as [|c s IH]; [reflexivity|].
  cbn [existsb lookbehind_search lookbehind_at].
  intros H. apply orb_false_iff in H as [Hc Hs].
  rewrite (IH Hs), orb_false_r.
  destruct (N.eqb c 90); [|reflexivity]. cbn [andb].
  destruct (dots 1100 s) as [rest|] eqn:Hd; [|reflexivity].
  destruct (startswith rest (lit "hello")) eqn:Hst; [|reflexivity].
  apply startswith_spec in Hst as [rest' ->].
  rewrite (dots_suffix (N.eqb 108) _ _ Hd) in Hs; [discriminate|].
  vm_compute. reflexivity.
Qed.

Lemma lookbehind_hit text :
  @hit lookbehind lookbehind_pattern text = lookbehind_search text.
Proof. reflexivity. Qed.

Lemma lookbehind_char_missing (c : N) (text : bytes) :
  c = 90%N \/ c = 108%N ->
  forallb is_ascii text = true ->
  forallb (fun b => negb (N.eqb c (Byte.to_N b))) text = true ->
  @hit lookbehind lookbehind_pattern (decode_ignore text) = false.
Proof.
  intros Hc Hascii Hnone. rewrite lookbehind_hit, decode_ascii by assumption.
  assert (He : existsb (N.eqb c) (map Byte.to_N text) = false).
  { clear Hascii. induction text as [|b text IH]; [reflexivity|].
    cbn [forallb] in Hnone. apply andb_true_iff in Hnone as [Hb Ht].
    cbn [map existsb]. apply negb_true_iff in Hb. now rewrite Hb, IH. }
  destruct Hc as [->| ->]; [now apply lookbehind_needs_Z|now apply lookbehind_needs_l].
Qed.

Lemma lookbehind_tiers :
  FileSearchEngine._is_dangerous_pattern lookbehind_pattern = true
  /\ safe_limit lookbehind_pattern = 1048576
  /\ chunk_size lookbehind_pattern = 524288.
Proof. repeat split; vm_compute; reflexivity. Qed.

Lemma lookbehind_file_size : Z.of_nat (length lookbehind_file) = 1048591.
Proof.
  unfold lookbehind_file. sizes.
Qed.

Lemma lookbehind_file_head : has_nul (firstn (Z.to_nat 8192) lookbehind_file) = false.
Proof.
  unfold lookbehind_file, has_nul. rewrite firstn_app, repeat_length.
  replace (Z.to_nat 8192 - Z.to_nat 523185)%nat with 0%nat by lia.
  cbn [firstn]. rewrite app_nil_r. apply existsb_firstn_repeat. reflexivity.
Qed.

(** The three chunks of [lookbehind_file]. *)
Lemma lookbehind_file_chunk0 :
  lookbehind_file
  = (repeat x61 (Z.to_nat 523185) ++ [x5a] ++ repeat x61 1100 ++ ascii_bytes "he")
      ++ (ascii_bytes "llo" ++ repeat x61 (Z.to_nat 524300)).
Proof.
  unfold lookbehind_file.
  change (ascii_bytes "hello") with (ascii_bytes "he" ++ ascii_bytes "llo").
  rewrite <- !app_assoc. reflexivity.
Qed.

Lemma lookbehind_file_chunk1 :
  lookbehind_file
  = (repeat x61 (Z.to_nat 523185) ++ [x5a] ++ repeat x61 78)
      ++ (repeat x61 1022 ++ ascii_bytes "hello" ++ repeat x61 (Z.to_nat 524285))
      ++ repeat x61 15.
Proof.
  unfold lookbehind_file.
  change 1100%nat with (78 + 1022)%nat.
  replace (Z.to_nat 524300) with (Z.to_nat 524285 + 15)%nat by lia.
  rewrite !repeat_app, <- !app_assoc. reflexivity.
Qed.

Lemma lookbehind_file_chunk2 :
  lookbehind_file
  = (repeat x61 (Z.to_nat 523185) ++ [x5a] ++ repeat x61 1100 ++ ascii_bytes "hello"
       ++ repeat x61 (Z.to_nat 523261))
      ++ repeat x61 1039.
Proof.
  unfold lookbehind_file.
  replace (Z.to_nat 524300) with (Z.to_nat 523261 + 1039)%nat by lia.
  rewrite !repeat_app, <- !app_assoc. reflexivity.
Qed.

Lemma lookbehind_file_hello :
  slice lookbehind_file (524288 - 2) (524288 + 3) = ascii_bytes "hello".
Proof.
  assert (H : lookbehind_file
              = (repeat x61 (Z.to_nat 523185) ++ [x5a] ++ repeat x61 1100)
                  ++ ascii_bytes "hello" ++ repeat x61 (Z.to_nat 524300))
    by (unfold lookbehind_file; rewrite <- !app_assoc; reflexivity).
  rewrite H. apply slice_middle.
  - sizes.
  - reflexivity.
Qed.

Lemma lookbehind_re_search text :
  @re_search lookbehind lookbehind_pattern text = Ok (lookbehind_search text).
Proof. reflexivity. Qed.

Lemma lookbehind_at_found rest :
  lookbehind_at (90%N :: repeat 97%N 1100 ++ lit "hello" ++ rest) = true.
Proof.
  unfold lookbehind_at. rewrite dots_repeat by reflexivity.
  apply andb_true_intro. split; [reflexivity|].
  apply startswith_spec. exists rest. reflexivity.
Qed.

Lemma lookbehind_search_head s : lookbehind_at s = true -> lookbehind_search s = true.
Proof. intros H. destruct s; cbn [lookbehind_search]; now rewrite H. Qed.

(** The pattern matches the whole file. *)
Lemma lookbehind_file_found :
  @re_search lookbehind lookbehind_pattern (decode_ignore lookbehind_file) = Ok true.
Proof.
  rewrite lookbehind_re_search. apply f_equal. rewrite decode_ascii.
  - unfold lookbehind_file. rewrite !map_app, !map_repeat.
    apply lookbehind_search_skip, lookbehind_search_head.
    exact (lookbehind_at_found _).
  - unfold lookbehind_file. rewrite !forallb_app, !forallb_repeat; reflexivity.
Qed.

(** No chunk holds both the [Z] and the whole of [hello]. *)
Lemma lookbehind_file_chunks_miss o :
  In o [0; 524288; 1048576] ->
  @hit lookbehind lookbehind_pattern
    (chunk_text lookbehind_pattern lookbehind_file 1048591 o) = false.
Proof.
  destruct lookbehind_tiers as (_ & _ & Hcs).
  unfold chunk_text, chunk_stop. rewrite Hcs.
  intros [<-|[<-|[<-|[]]]].
  - change (chunk_start 0) with 0. change (Z.min 1048591 (0 + 524288)) with 524288.
    rewrite lookbehind_file_chunk0.
    rewrite slice_prefix
      by sizes.
    apply lookbehind_char_missing with (c := 108%N); [now right| |];
      rewrite !forallb_app, !forallb_repeat; reflexivity.
  - change (chunk_start 524288) with 523264.
    change (Z.min 1048591 (524288 + 524288)) with 1048576.
    rewrite lookbehind_file_chunk1.
    rewrite slice_middle
      by sizes.
    apply lookbehind_char_missing with (c := 90%N); [now left| |];
      rewrite !forallb_app, !forallb_repeat; reflexivity.
  - change (chunk_start 1048576) with 1047552.
    change (Z.min 1048591 (1048576 + 524288)) with 1048591.
    rewrite lookbehind_file_chunk2.
    rewrite slice_suffix
      by sizes.
    apply lookbehind_char_missing with (c := 90%N); [now left| |];
      rewrite ?forallb_app, ?forallb_repeat; reflexivity.
Qed.

Lemma existsb_none {A} (f : A -> bool) l :
  (forall o, In o l -> f o = false) -> existsb f l = false.
Proof.
  induction l as [|a l IH]; [reflexivity|]. intros H. cbn [existsb].
  rewrite (H a) by now left. apply IH. intros o Ho. apply H. now right.
Qed.

Lemma visited_none (f : Z -> bool) l :
  (forall o, In o l -> f o = false) -> visited f l = l.
Proof.
  induction l as [|a l IH]; [reflexivity|]. intros H. cbn [visited].
  rewrite (H a) by now left. f_equal. apply IH. intros o Ho. apply H. now right.
Qed.

End LookbehindFacts.

Section DeviceFacts.
Import Example.

Lemma utf8_encode_ascii s :
  forallb (fun c => N.ltb c 128) s = true -> utf8_encode s = Ok s.
Proof.
  induction s as [|c s IH]; [reflexivity|]. cbn [forallb].
  intros H. apply andb_true_iff in H as [Hc Hs].
  cbn [utf8_encode]. unfold utf8_encode_char. rewrite Hc, (IH Hs). reflexivity.
Qed.

Lemma utf8_encode_decode_ascii (b : bytes) :
  forallb is_ascii b = true -> utf8_encode (decode_ignore b) = Ok (map Byte.to_N b).
Proof.
  intros H. rewrite decode_ascii by assumption. apply utf8_encode_ascii.
  induction b as [|a b IH]; [reflexivity|].
  cbn [forallb] in H. apply andb_true_iff in H as [Ha Hb].
  cbn [map forallb]. unfold is_ascii in Ha. now rewrite Ha, IH.
Qed.

Lemma hello_file_ascii : forallb is_ascii hello_file = true.
Proof. apply padded_ascii. reflexivity. Qed.

Lemma hello_in_hello_file : str_in (pattern hello) (decode_ignore hello_file) = true.
Proof.
  apply str_in_spec. rewrite decode_ascii by exact hello_file_ascii.
  unfold hello_file, padded. rewrite !map_app.
  eexists _, _. reflexivity.
Qed.

Lemma hello_on_device libs :
  GPU_AVAILABLE libs = true ->
  let engine := HybridSearchEngine.init libs true in
  let matcher := HybridSearchEngine.gpu_matcher engine in
  cfg_use_gpu (HybridSearchEngine.config engine) = true
  /\ GPUPatternMatcher.gpu_available matcher = true
  /\ GPUPatternMatcher.is_pattern_gpu_friendly matcher (pattern hello) = true
  /\ GPUPatternMatcher._is_literal_pattern (pattern hello) = true
  /\ min_file_size_for_gpu (HybridSearchEngine.config engine) = 1048576
  /\ min_file_size_for_gpu (GPUPatternMatcher.config matcher) = 1048576.
Proof.
  intros H. cbv zeta. unfold HybridSearchEngine.init.
  cbn [HybridSearchEngine.config HybridSearchEngine.gpu_matcher
       GPUPatternMatcher.gpu_available GPUPatternMatcher.config
       default_config cfg_use_gpu min_file_size_for_gpu].
  rewrite H. repeat split; vm_compute; reflexivity.
Qed.

(** What the hybrid engine answers for [hello] in [hello_file], which holds
    it, when the device is at fault: [False] when the comparisons fail
    (CuPy) or the kernel cannot be launched (Numba), the substring test when
    the arrays cannot be copied (CuPy). *)
Lemma device_faults_on_hello_file :
  str_in (pattern hello) (decode_ignore hello_file) = true
  /\ outcome (FileSearchEngine._search_in_file (failing_device (big_tree hello_file))
                cupy gpu_engine big_txt hello) = Ok false
  /\ outcome (FileSearchEngine._search_in_file (failing_device (big_tree hello_file))
                numba numba_engine big_txt hello) = Ok false
  /\ outcome (FileSearchEngine._search_in_file (full_device (big_tree hello_file))
                cupy gpu_engine big_txt hello) = Ok true.
Proof.
  assert (Hsize : 1 * MiB <= Z.of_nat (length hello_file) <= 100 * MiB)
    by (rewrite hello_file_size; unfold MiB; lia).
  assert (Hnul : has_nul (firstn (Z.to_nat 8192) hello_file) = false)
    by (apply padded_head; lia).
  assert (Hmin : 1048576 <= Z.of_nat (length hello_file))
    by (rewrite hello_file_size; lia).
  assert (Hmin' : (1048576 <=? Z.of_nat (length hello_file)) = true)
    by (apply Z.leb_le; exact Hmin).
  split; [exact hello_in_hello_file|]. split; [|split].
  - destruct (hello_on_device cupy eq_refl) as (Huse & Hav & Hfr & Hlit & Hm1 & Hm2).
    rewrite (@hybrid_scan_eq plain (failing_device (big_tree hello_file)) cupy gpu_engine
               (HybridSearchEngine.init cupy true) big_txt hello hello_file
               eq_refl eq_refl eq_refl (big_tree_getsize _) (big_tree_open _ _)
               (big_tree_mmap _) Hsize Hnul).
    rewrite Huse, Hav, Hm1, Hmin'. cbn [andb].
    rewrite text_gpu_literal by (rewrite ?Hm2; assumption).
    cbn [USE_CUPY cupy].
    erewrite literal_search_gpu_compare_fault;
      [reflexivity|exact (utf8_encode_decode_ascii _ hello_file_ascii)
       |reflexivity|reflexivity|reflexivity|discriminate].
  - destruct (hello_on_device numba eq_refl) as (Huse & Hav & Hfr & Hlit & Hm1 & Hm2).
    rewrite (@hybrid_scan_eq plain (failing_device (big_tree hello_file)) numba numba_engine
               (HybridSearchEngine.init numba true) big_txt hello hello_file
               eq_refl eq_refl eq_refl (big_tree_getsize _) (big_tree_open _ _)
               (big_tree_mmap _) Hsize Hnul).
    rewrite Huse, Hav, Hm1, Hmin'. cbn [andb].
    rewrite text_gpu_literal by (rewrite ?Hm2; assumption).
    cbn [USE_CUPY USE_NUMBA numba].
    erewrite literal_search_numba_fault;
      [reflexivity|exact (utf8_encode_decode_ascii _ hello_file_ascii)
       |reflexivity|left; discriminate].
  - destruct (hello_on_device cupy eq_refl) as (Huse & Hav & Hfr & Hlit & Hm1 & Hm2).
    rewrite (@hybrid_scan_eq plain (full_device (big_tree hello_file)) cupy gpu_engine
               (HybridSearchEngine.init cupy true) big_txt hello hello_file
               eq_refl eq_refl eq_refl (big_tree_getsize _) (big_tree_open _ _)
               (big_tree_mmap _) Hsize Hnul).
    rewrite Huse, Hav, Hm1, Hmin'. cbn [andb].
    rewrite text_gpu_literal by (rewrite ?Hm2; assumption).
    cbn [USE_CUPY cupy].
    rewrite literal_search_gpu_copy_fault by (intros a _; discriminate).
    unfold outcome. cbn [fst]. now rewrite hello_in_hello_file.
Qed.

End DeviceFacts.

(* ================================================================== *)
(** * The claims on a concrete directory *)
(* ================================================================== *)

Section Witnesses.
Import Example.

Lemma conjunctive_filter_witness :
  FileSearchEngine.stop_flag cpu_engine = false
  /\ exists r,
       outcome (FileSearchEngine._check_file tree no_gpu cpu_engine a_txt (lit "*")
                  None None (Some hello) 0 None None None false false)
       = Ok (Some r).
Proof.
  split; [reflexivity|].
  pose proof (@conjunctive_filter plain tree no_gpu cpu_engine a_txt (lit "*")
                None None (Some hello) 0 None None None false false eq_refl)
    as [H _].
  apply H. unfold file_matches.
  repeat split; try (vm_compute; reflexivity).
  exists 11, 0, 0. repeat split; vm_compute; reflexivity.
Defined.

Lemma zero_size_bound_disables_filter_witness :
  exists r,
    outcome (FileSearchEngine._check_file tree no_gpu cpu_engine a_txt (lit "*")
               None None (Some hello) 0 None None None false false) = Ok (Some r)
    /\ size r = 11
    /\ outcome (FileSearchEngine._check_file tree no_gpu cpu_engine a_txt (lit "*")
                  None None (Some hello) 11 (Some 11) None None false false)
       = Ok (Some r).
Proof.
  eexists. split; [vm_compute; reflexivity|]. split; [reflexivity|].
  refine (proj2 (proj2 (proj2 (proj2
    (@zero_size_bound_disables_filter plain tree no_gpu cpu_engine a_txt (lit "*")
       None None (Some hello) None None false false) _ _))) 11 11 _ _).
  - vm_compute; reflexivity.
  - lia.
  - left. reflexivity.
Defined.

Lemma invalid_pattern_raises_before_any_work_witness :
  let a := {| root_path := root; name_pattern := lit "*"; extensions := None;
              content_regex := Some (lit "("); min_size := 0; max_size := None;
              modified_after := None; modified_before := None;
              case_sensitive := false; use_regex_name := false |} in
  FileSearchEngine.search tree no_gpu cpu_engine a None (fun l => l)
  = (Raise (ValueError (lit "Ошибка в регулярном выражении: "
                          ++ lit "missing ), unterminated subpattern at position 0")), []).
Proof.
  intros a.
  refine (proj1 (@invalid_pattern_raises_before_any_work plain tree no_gpu cpu_engine a
                   None (fun l => l)) 40%N [] _ _ _); reflexivity.
Defined.

Lemma binary_file_is_never_matched_witness :
  open_rb tree 0 c_bin = Ok (ascii_bytes "hel" ++ [x00] ++ ascii_bytes "hello")
  /\ outcome (FileSearchEngine._search_in_file tree no_gpu cpu_engine c_bin hello) = Ok false.
Proof.
  split; [vm_compute; reflexivity|].
  refine (proj1 (@binary_file_is_never_matched plain tree no_gpu cpu_engine c_bin hello
                   (ascii_bytes "hel" ++ [x00] ++ ascii_bytes "hello") _ _));
    vm_compute; reflexivity.
Defined.

Lemma progress_callback_protocol_witness :
  trace (FileSearchEngine.search tree no_gpu cpu_engine (default_args root)
           (Some quiet) (fun l => rev l))
  = EvWalk root :: map EvSubmit [a_txt; b_txt; c_bin]
    ++ callback_events 3
         (map (future_of tree no_gpu cpu_engine (default_args root)) [c_bin; b_txt; a_txt]) 0.
Proof.
  refine (proj1 (proj2
    (@progress_callback_protocol plain tree no_gpu cpu_engine (default_args root) quiet
       (fun l => rev l) _ _ _ _ _))); try reflexivity.
  intros l. apply Permutation_sym, Permutation_rev.
Defined.

Lemma invalid_bytes_are_dropped_witness :
  decode_ignore (ascii_bytes "ab" ++ [xff] ++ ascii_bytes "cd")
  = decode_ignore (ascii_bytes "ab") ++ decode_ignore (ascii_bytes "cd").
Proof.
  refine (proj1 (@invalid_bytes_are_dropped plain tree no_gpu
                   (ascii_bytes "ab") [xff] (ascii_bytes "cd") _ _));
    [discriminate|reflexivity].
Defined.

(** C8. The claim fails on [b.txt], which holds ["ab"], the invalid byte
    0xFF and ["cd"]: nothing is kept in place of the invalid byte, and the
    pattern [abcd] matches. *)
Lemma lenient_decoding_keeps_no_replacement :
  decode_ignore (ascii_bytes "ab" ++ [xff] ++ ascii_bytes "cd") = lit "abcd"
  /\ outcome (FileSearchEngine._search_in_file tree no_gpu cpu_engine b_txt abcd) = Ok true.
Proof. split; vm_compute; reflexivity. Qed.

Lemma io_faults_are_absorbed_witness :
  os_path_getsize tree (lit "gone") = Raise FileNotFoundError
  /\ outcome (FileSearchEngine._search_in_file tree no_gpu cpu_engine (lit "gone") hello)
     = Ok false.
Proof.
  split; [reflexivity|].
  refine (proj1 (proj2
    (@io_faults_are_absorbed plain tree no_gpu cpu_engine (lit "gone") (lit "*") None None
       None 0 None None None false false hello)) FileNotFoundError _).
  reflexivity.
Defined.

Lemma tier_selection_witness :
  FileSearchEngine._search_in_file (big_tree medium_file) no_gpu cpu_engine big_txt hello
  = (Ok (hit hello (decode_ignore medium_file)),
     [EvGetsize big_txt; EvRead big_txt (Some 8192); EvRead big_txt None]).
Proof.
  refine (proj1
    (@tier_selection plain (big_tree medium_file) no_gpu cpu_engine big_txt hello medium_file
       eq_refl eq_refl (big_tree_getsize _) (big_tree_open _ _) (big_tree_open _ _)
       (big_tree_mmap _) _ _) _).
  - rewrite medium_file_size. unfold KiB, MiB. lia.
  - apply padded_head. lia.
  - rewrite medium_file_size. unfold MiB. now destruct (FileSearchEngine._is_dangerous_pattern hello).
Defined.

Lemma chunk_overlap_finds_boundary_match_witness :
  outcome (FileSearchEngine._search_in_file (big_tree hello_file) no_gpu cpu_engine
             big_txt hello) = Ok true.
Proof.
  destruct hello_tiers as [Hlimit Hchunk].
  refine (proj1
    (@chunk_overlap_finds_boundary_match plain (big_tree hello_file) no_gpu cpu_engine
       big_txt hello hello_file (repeat x61 (Z.to_nat 5242878)) (ascii_bytes "hello")
       (repeat x61 (Z.to_nat 100)) 1
       eq_refl eq_refl (big_tree_getsize _) (big_tree_open _ _) (big_tree_mmap _)
       _ _ eq_refl hello_found _ _ _ _)).
  - rewrite hello_file_size, Hlimit. unfold MiB. lia.
  - apply padded_head. lia.
  - lia.
  - rewrite hello_file_size, Hchunk. lia.
  - rewrite Hchunk, repeat_length. unfold KiB. lia.
  - rewrite Hchunk, repeat_length. change (length (ascii_bytes "hello")) with 5%nat. lia.
Defined.

(** C6. The claim fails for a match that depends on text further back than
    the overlap. [lookbehind_file] is above the full-read threshold, the
    pattern matches it, and the matched [hello] spans the offsets
    [chunk_size - 2] to [chunk_size + 2]; the scan reads three chunks, the
    second one from 1 KiB before the boundary, and answers [False]: the [Z]
    the lookbehind asks for lies 1103 bytes before the boundary. *)
Lemma lookbehind_match_across_boundary_is_missed :
  safe_limit lookbehind_pattern < Z.of_nat (length lookbehind_file) <= 100 * MiB
  /\ chunk_size lookbehind_pattern = 524288
  /\ slice lookbehind_file (524288 - 2) (524288 + 3) = ascii_bytes "hello"
  /\ @re_search lookbehind lookbehind_pattern (decode_ignore lookbehind_file) = Ok true
  /\ @FileSearchEngine._search_in_file lookbehind (big_tree lookbehind_file) no_gpu
       cpu_engine big_txt lookbehind_pattern
     = (Ok false,
        [EvGetsize big_txt; EvRead big_txt (Some 8192); EvMmap big_txt;
         EvSlice big_txt 0 524288; EvSlice big_txt 523264 1048576;
         EvSlice big_txt 1047552 1048591]).
Proof.
  destruct lookbehind_tiers as (_ & Hlimit & Hcs).
  split; [rewrite lookbehind_file_size, Hlimit; unfold MiB; lia|].
  split; [exact Hcs|].
  split; [exact lookbehind_file_hello|].
  split; [exact lookbehind_file_found|].
  rewrite (@cpu_scan_eq lookbehind (big_tree lookbehind_file) no_gpu cpu_engine big_txt
             lookbehind_pattern lookbehind_file eq_refl eq_refl (big_tree_getsize _)
             (big_tree_open _ _) (fun _ => big_tree_open _ _) (fun _ => big_tree_mmap _)).
  - rewrite lookbehind_file_size, Hlimit, Hcs.
    change (1048591 <=? 1048576) with false. cbv zeta.
    rewrite existsb_none, visited_none by exact lookbehind_file_chunks_miss.
    unfold chunk_stop. rewrite Hcs. reflexivity.
  - rewrite lookbehind_file_size. unfold MiB. lia.
  - exact lookbehind_file_head.
Qed.




End Witnesses.

(* ================================================================== *)
(** * Further properties of the engine *)
(* ================================================================== *)

Section EngineProperties.
Context {rt : Runtime} (w : World) (libs : GpuLibs).

(** X1. A file above the ceiling of 100 MiB is never content-matched: the
    scan answers [False] after asking for its size, without opening it, on
    the CPU path and on the hybrid path. *)
Theorem oversized_file_is_never_opened :
  forall (self : FileSearchEngine.t) (file_path : str) (p : Pattern) (file_size : Z),
    FileSearchEngine.stop_flag self = false ->
    os_path_getsize w file_path = Ok file_size ->
    100 * MiB < file_size ->
    FileSearchEngine._search_in_file w libs self file_path p
    = (Ok false, [EvGetsize file_path]).
Proof.
  intros self file_path p file_size Hrun Hsize Hbig.
  assert (Hgt : (file_size >? 100 * 1024 * 1024) = true).
  { rewrite Z.gtb_ltb. apply Z.ltb_lt. unfold MiB in Hbig. lia. }
  unfold FileSearchEngine._search_in_file, HybridSearchEngine.search_in_file.
  rewrite Hrun, Hsize.
  destruct (FileSearchEngine.use_gpu self), (FileSearchEngine.gpu_engine self);
    exec; rewrite Hgt; reflexivity.
Qed.


(** X3. A [stop()] issued before [search] is called has no effect on that
    search: [search] clears the flag when it starts. *)
Theorem search_forgets_earlier_stop :
  forall (self : FileSearchEngine.t) (a : SearchArgs) (callback : option Callback)
         (completion : list str -> list str),
    FileSearchEngine.search w libs (FileSearchEngine.stop self) a callback completion
    = FileSearchEngine.search w libs self a callback completion.
Proof. reflexivity. Qed.




End EngineProperties.

Section EnginePropertiesOnExamples.
Import Example.

Lemma oversized_file_is_never_opened_witness :
  FileSearchEngine._search_in_file huge_tree no_gpu cpu_engine big_txt hello
  = (Ok false, [EvGetsize big_txt]).
Proof.
  refine (@oversized_file_is_never_opened plain huge_tree no_gpu cpu_engine big_txt hello
            (101 * MiB) eq_refl eq_refl _).
  unfold MiB. lia.
Defined.




End EnginePropertiesOnExamples.

Section ResultProperties.
Context {rt : Runtime} (w : World) (libs : GpuLibs).

Lemma check_file_result self file_path name_pattern name_regex extensions
      content_pattern min_size max_size modified_after modified_before
      case_sensitive use_regex_name r :
  check_file_outcome w libs self file_path name_pattern name_regex extensions
    content_pattern min_size max_size modified_after modified_before
    case_sensitive use_regex_name = Ok (Some r) ->
  path r = file_path
  /\ match_reason r = reason content_pattern
  /\ exists mtime, os_stat w file_path = Ok (size r, mtime)
                   /\ datetime_fromtimestamp w mtime = Ok (modified r).
Proof.
  unfold check_file_outcome, absorbed.
  destruct (FileSearchEngine.stop_flag self); [discriminate|].
  destruct (os_path_isfile w file_path); [|discriminate]. cbn [negb].
  destruct (passes_name _ _ _ _ _) as [[|]|e]; try discriminate;
    [|destruct (is_OSError e); discriminate].
  destruct (passes_extension file_path extensions); [|discriminate]. cbn [negb].
  destruct (os_stat w file_path) as [[file_size mtime]|e];
    [|destruct (is_OSError e); discriminate].
  destruct (datetime_fromtimestamp w mtime) as [fm|e] eqn:Hfm;
    [|destruct (is_OSError e); discriminate].
  destruct (_ && _ && _); [|discriminate].
  intros H; inversion H; subst; clear H. cbn. eauto.
Qed.

Lemma paths_of_matches (future : str -> res (option SearchResult)) :
  (forall fp r, future fp = Ok (Some r) -> path r = fp) ->
  forall l,
    map path (matches_of (map future l))
    = filter (fun fp => match future fp with Ok (Some _) => true | _ => false end) l.
Proof.
  intros Hpath. induction l as [|fp l IH]; [reflexivity|].
  cbn [map matches_of flat_map filter]. fold (matches_of (map future l)).
  rewrite map_app, IH.
  destruct (future fp) as [[r|]|e] eqn:Hf; cbn; try reflexivity.
  now rewrite (Hpath _ _ Hf).
Qed.

(** X6. Every result [search] returns describes a file the walk found: its
    path is a candidate path, its size and modification time are those the
    single [stat] call returned, and its match reason says "content" exactly
    when a content pattern was given. No path is reported twice. *)
Theorem results_describe_candidates :
  forall (self : FileSearchEngine.t) (a : SearchArgs) (callback : option Callback)
         (completion : list str -> list str) results t,
    (forall l, Permutation (completion l) l) ->
    FileSearchEngine.search w libs self a callback completion = (Ok results, t) ->
    (forall r, In r results ->
       In (path r) (candidates w self a)
       /\ match_reason r = reason (content_pattern_of a)
       /\ exists mtime, os_stat w (path r) = Ok (size r, mtime)
                        /\ datetime_fromtimestamp w mtime = Ok (modified r))
    /\ (NoDup (candidates w self a) -> NoDup (map path results)).
Proof.
  intros self a callback completion results t Hperm Hsearch.
  rewrite search_eq in Hsearch.
  destruct (content_compile_error a); [discriminate|].
  destruct (name_compile_error a); [discriminate|].
  destruct (FileSearchEngine.max_workers self <=? 0); [discriminate|].
  cbv zeta in Hsearch.
  destruct (FileSearchEngine.collect _ _ _ _ _ _) as [r0 t0] eqn:Hcollect.
  inversion Hsearch; subst; clear Hsearch.
  apply collect_results in Hcollect; [|reflexivity]. cbn [app] in Hcollect. subst results.
  split.
  - intros r Hin. unfold matches_of in Hin. apply in_flat_map in Hin as (fut & Hfut & Hr).
    apply in_map_iff in Hfut as (fp & <- & Hfp).
    unfold future_of in Hr. rewrite check_file_outcome_eq in Hr.
    destruct (check_file_outcome _ _ _ _ _ _ _ _ _ _ _ _ _ _) as [[r'|]|e] eqn:H;
      cbn in Hr; try contradiction.
    destruct Hr as [->|[]]. apply check_file_result in H as (Hp & Hreason & Hstat).
    rewrite Hp. repeat split; try assumption.
    apply Permutation_in with (l := completion (candidates w self a)); [apply Hperm|exact Hfp].
  - intros Hnodup. rewrite paths_of_matches.
    + apply NoDup_filter. eapply Permutation_NoDup; [|exact Hnodup].
      symmetry. apply Hperm.
    + intros fp r Hf. unfold future_of in Hf. rewrite check_file_outcome_eq in Hf.
      now apply check_file_result in Hf.
Qed.

End ResultProperties.

Section ChunkProperties.
Context {rt : Runtime} (w : World) (libs : GpuLibs).

Lemma visited_all (f : Z -> bool) offsets :
  existsb f offsets = false -> visited f offsets = offsets.
Proof.
  induction offsets as [|o rest IH]; [reflexivity|].
  cbn [existsb visited]. intros H. apply orb_false_iff in H as [Ho Hrest].
  rewrite Ho. f_equal. now apply IH.
Qed.

(** X7. In the chunked scan no slice is longer than a chunk plus the 1 KiB
    overlap, and every slice lies within the file. When the scan answers
    [False] the slices it looked at cover the file: every byte offset lies in
    one of them. *)
Theorem chunks_are_bounded_and_cover_the_file :
  forall (self : FileSearchEngine.t) (file_path : str) (p : Pattern) (content : bytes),
    FileSearchEngine.stop_flag self = false ->
    FileSearchEngine.use_gpu self = false ->
    os_path_getsize w file_path = Ok (Z.of_nat (length content)) ->
    open_rb w 0 file_path = Ok content ->
    mmap_read w file_path = Ok content ->
    safe_limit p < Z.of_nat (length content) <= 100 * MiB ->
    has_nul (firstn (Z.to_nat 8192) content) = false ->
    let file_size := Z.of_nat (length content) in
    let run := FileSearchEngine._search_in_file w libs self file_path p in
    (forall start stop, In (EvSlice file_path start stop) (trace run) ->
       0 <= start < stop /\ stop <= file_size
       /\ stop - start <= chunk_size p + 1 * KiB)
    /\ (outcome run = Ok false ->
        forall i, 0 <= i < file_size ->
          exists start stop, In (EvSlice file_path start stop) (trace run)
                             /\ start <= i < stop).
Proof.
  intros self file_path p content Hrun Hcpu Hsize Hhead Hmap Hbounds Hnul file_size run.
  pose proof (chunk_size_pos p) as Hcs.
  assert (Hlim : 8192 <= safe_limit p).
  { unfold safe_limit, MiB. destruct (FileSearchEngine._is_dangerous_pattern p); lia. }
  assert (Heq := @cpu_scan_eq rt w libs self file_path p content Hrun Hcpu Hsize Hhead
                   ltac:(lia) (fun _ => Hmap) ltac:(lia) Hnul).
  fold run file_size in Heq.
  destruct (Z.leb_spec file_size (safe_limit p)); [lia|].
  cbv zeta in Heq. rewrite Heq. unfold outcome, trace. cbn [fst snd].
  unfold KiB in *.
  split.
  - intros start stop [H0|[H0|[H0|H0]]]; try discriminate.
    apply in_map_iff in H0 as (o & Ho & Hin). inversion Ho; subst; clear Ho.
    apply visited_incl in Hin. apply range0_spec in Hin; [|lia|lia].
    destruct Hin as (k & Hk & -> & Hlt).
    unfold chunk_start, chunk_stop, KiB. nia.
  - intros Hfalse i Hi. inversion Hfalse as [Hex]. rewrite visited_all by exact Hex.
    set (k := i / chunk_size p).
    assert (Hk : 0 <= k) by (apply Z.div_pos; lia).
    assert (Hdiv : chunk_size p * k <= i < chunk_size p * (k + 1)).
    { pose proof (Z.mul_div_le i (chunk_size p) ltac:(lia)).
      pose proof (Z.mul_succ_div_gt i (chunk_size p) ltac:(lia)).
      subst k. unfold Z.succ in *. lia. }
    exists (chunk_start (k * chunk_size p)), (chunk_stop p file_size (k * chunk_size p)).
    split.
    + right; right; right. apply in_map_iff. exists (k * chunk_size p). split; [reflexivity|].
      apply range0_spec; [lia|lia|]. exists k. repeat split; nia.
    + unfold chunk_start, chunk_stop, KiB. nia.
Qed.

End ChunkProperties.

Section OtherEngines.
Context {rt : Runtime} (w : World) (libs : GpuLibs).

(** X8. The hybrid engine does not look at the first 8 KiB of a file of more
    than 8 KiB and less than 1 MiB: having read 8192 bytes for the binary
    test, it reads on from there and applies the pattern to the rest only. *)
Theorem hybrid_engine_skips_the_head_of_small_files :
  forall (self : FileSearchEngine.t) (engine : HybridSearchEngine.t)
         (file_path : str) (p : Pattern) (content : bytes),
    FileSearchEngine.stop_flag self = false ->
    FileSearchEngine.use_gpu self = true ->
    FileSearchEngine.gpu_engine self = Some engine ->
    os_path_getsize w file_path = Ok (Z.of_nat (length content)) ->
    open_rb w 0 file_path = Ok content ->
    8192 < Z.of_nat (length content) < 1 * MiB ->
    has_nul (firstn (Z.to_nat 8192) content) = false ->
    FileSearchEngine._search_in_file w libs self file_path p
    = (Ok (hit p (decode_ignore (skipn (Z.to_nat 8192) content))),
       [EvGetsize file_path; EvRead file_path (Some 8192); EvRead file_path None]).
Proof.
  intros self engine file_path p content Hrun Hgpu Heng Hsize Hhead Hbounds Hnul.
  unfold MiB in Hbounds.
  unfold FileSearchEngine._search_in_file, HybridSearchEngine.search_in_file.
  rewrite Hrun, Hgpu, Heng, Hsize. exec.
  assert (Hbig : (Z.of_nat (length content) >? 100 * 1024 * 1024) = false).
  { rewrite Z.gtb_ltb. apply Z.ltb_ge. lia. }
  rewrite Hbig, Hhead. exec. rewrite Hnul.
  assert (Hsmall : (Z.of_nat (length content) <? 1024 * 1024) = true)
    by (apply Z.ltb_lt; lia).
  rewrite Hsmall.
  assert (Hne : (Z.of_nat (length (firstn (Z.to_nat 8192) content))
                 =? Z.of_nat (length content)) = false).
  { apply Z.eqb_neq. rewrite length_firstn. lia. }
  rewrite Hne. exec. unfold hit. destruct (re_search p _) as [b|e]; reflexivity.
Qed.

(** X9. The CPU-only engine of [file_searcher_CPUsearcher.py] and the CPU
    path of the current engine give the same answer on every healthy file up
    to the safe full-read threshold, when the matcher returns. *)
Theorem cpu_engines_agree_up_to_the_threshold :
  forall (self : FileSearchEngine.t) (file_path : str) (p : Pattern)
         (content : bytes) (b : bool),
    FileSearchEngine.stop_flag self = false ->
    FileSearchEngine.use_gpu self = false ->
    os_path_getsize w file_path = Ok (Z.of_nat (length content)) ->
    open_rb w 0 file_path = Ok content ->
    open_rb w 1 file_path = Ok content ->
    mmap_read w file_path = Ok content ->
    Z.of_nat (length content) <= safe_limit p ->
    re_search p (decode_ignore content) = Ok b ->
    outcome (CPUsearcher._search_in_file w file_path p)
    = outcome (FileSearchEngine._search_in_file w libs self file_path p).
Proof.
  intros self file_path p content b Hrun Hcpu Hsize Hhead Hall Hmap Hle Hre.
  assert (Hlim : safe_limit p <= 5 * MiB).
  { unfold safe_limit, MiB. destruct (FileSearchEngine._is_dangerous_pattern p); lia. }
  unfold MiB in Hlim.
  assert (Hbig : (Z.of_nat (length content) >? 100 * 1024 * 1024) = false).
  { rewrite Z.gtb_ltb. apply Z.ltb_ge. lia. }
  destruct (has_nul (firstn (Z.to_nat 8192) content)) eqn:Hnul.
  - rewrite (scan_binary w libs self file_path p Hhead Hnul).
    unfold CPUsearcher._search_in_file. rewrite Hsize. exec.
    rewrite Hbig, Hhead. exec. now rewrite Hnul.
  - destruct (Z.ltb_spec (Z.of_nat (length content)) 8192) as [Hlt|Hge].
    + rewrite firstn_all2 in Hnul by lia.
      rewrite (@cpu_small_eq rt w libs self file_path p content) by assumption.
      unfold CPUsearcher._search_in_file. rewrite Hsize. exec.
      rewrite Hbig, Hhead. exec. rewrite firstn_all2 by lia. rewrite Hnul.
      apply Z.ltb_lt in Hlt. rewrite Hlt. unfold hit. now rewrite Hre.
    + rewrite (@cpu_scan_eq rt w libs self file_path p content Hrun Hcpu Hsize Hhead
                 (fun _ => Hall) (fun _ => Hmap)); [|unfold MiB; lia|assumption].
      apply Z.leb_le in Hle. rewrite Hle.
      unfold CPUsearcher._search_in_file. rewrite Hsize. exec.
      rewrite Hbig, Hhead. exec. rewrite Hnul.
      assert (Hlen : (Z.of_nat (length (firstn (Z.to_nat 8192) content)) <? 8192) = false).
      { apply Z.ltb_ge. rewrite length_firstn. lia. }
      rewrite Hlen, Hmap. exec. unfold hit. now rewrite Hre.
Qed.


Lemma absent_char_no_str (x pat : str) (c : N) :
  In c x -> existsb (N.eqb c) pat = false -> str_in x pat = false.
Proof.
  intros Hin Habs. destruct (str_in x pat) eqn:Hs; [|reflexivity]. exfalso.
  apply str_in_spec in Hs as (before & after & ->).
  assert (Hex : existsb (N.eqb c) (before ++ x ++ after) = true).
  { apply existsb_exists. exists c. split; [|apply N.eqb_refl].
    apply in_or_app; right. apply in_or_app; now left. }
  congruence.
Qed.

Lemma absent_char_count (pat : str) (c : N) :
  existsb (N.eqb c) pat = false -> count_char c pat = 0.
Proof.
  unfold count_char. induction pat as [|a pat IH]; [reflexivity|].
  cbn [existsb filter]. intros H. apply orb_false_iff in H as [Ha Hpat].
  rewrite Ha. now apply IH.
Qed.

Lemma special_chars_eq :
  GPUPatternMatcher.special_chars
  = [46; 42; 43; 63; 91; 93; 123; 125; 40; 41; 94; 36; 124; 92; 92]%N.
Proof. vm_compute. reflexivity. Qed.

Lemma unfriendly_constructs_eq :
  GPUPatternMatcher.unfriendly_constructs
  = [[92; 49]; [92; 50]; [40; 63; 61]; [40; 63; 33]; [40; 63; 60]; [40; 63; 40];
     [92; 103; 60]]%N.
Proof. vm_compute. reflexivity. Qed.

Lemma is_literal_unfold pat :
  GPUPatternMatcher._is_literal_pattern pat
  = negb (existsb (fun c => existsb (N.eqb c) pat) GPUPatternMatcher.special_chars).
Proof. reflexivity. Qed.

Lemma literal_has_no_special pat :
  GPUPatternMatcher._is_literal_pattern pat = true ->
  forall c, In c [40; 91; 123; 92]%N -> existsb (N.eqb c) pat = false.
Proof.
  intros Hlit c Hc.
  rewrite is_literal_unfold, special_chars_eq in Hlit.
  apply negb_true_iff in Hlit.
  destruct (existsb (N.eqb c) pat) eqn:Hex; [|reflexivity].
  assert (Hin : In c [46; 42; 43; 63; 91; 93; 123; 125; 40; 41; 94; 36; 124; 92; 92]%N).
  { cbn [In] in *. intuition auto. }
  assert (Ht : existsb (fun c => existsb (N.eqb c) pat)
                 [46; 42; 43; 63; 91; 93; 123; 125; 40; 41; 94; 36; 124; 92; 92]%N = true).
  { apply existsb_exists. exists c. auto. }
  congruence.
Qed.

Lemma unfriendly_needs_special x :
  In x GPUPatternMatcher.unfriendly_constructs ->
  exists c, In c [40; 91; 123; 92]%N /\ In c x.
Proof.
  rewrite unfriendly_constructs_eq. cbn [In].
  intros [<-|[<-|[<-|[<-|[<-|[<-|[<-|[]]]]]]]];
    first [ exists 92%N; split; cbn [In]; tauto | exists 40%N; split; cbn [In]; tauto ].
Qed.

(** X11. A pattern without any special character, which the GPU matcher
    treats as a plain string, always passes the GPU-friendly classification:
    the literal search on the device is reachable for every such pattern. *)
Theorem literal_patterns_are_gpu_friendly :
  forall (m : GPUPatternMatcher.t) (pat : str),
    0 <= max_pattern_complexity (GPUPatternMatcher.config m) ->
    GPUPatternMatcher._is_literal_pattern pat = true ->
    GPUPatternMatcher.is_pattern_gpu_friendly m pat = true.
Proof.
  intros m pat Hmax Hlit.
  pose proof (literal_has_no_special pat Hlit) as Habs.
  unfold GPUPatternMatcher.is_pattern_gpu_friendly, GPUPatternMatcher.complexity.
  assert (Hnone : existsb (fun x => str_in x pat) GPUPatternMatcher.unfriendly_constructs
                  = false).
  { destruct (existsb _ _) eqn:Hex; [|reflexivity]. exfalso.
    apply existsb_exists in Hex as (x & Hx & Hs).
    apply unfriendly_needs_special in Hx as (c & Hc & Hcx).
    rewrite (absent_char_no_str x pat c Hcx (Habs c Hc)) in Hs. discriminate. }
  rewrite Hnone.
  rewrite !absent_char_count by (apply Habs; cbn [In]; tauto).
  apply Z.leb_le. exact Hmax.
Qed.

End OtherEngines.

Section MorePropertiesOnExamples.
Import Example.

Lemma results_describe_candidates_witness :
  exists results,
    outcome (FileSearchEngine.search tree no_gpu cpu_engine (default_args root) None
               (fun l => rev l)) = Ok results
    /\ forall r, In r results -> In (path r) (candidates tree cpu_engine (default_args root)).
Proof.
  destruct (FileSearchEngine.search tree no_gpu cpu_engine (default_args root) None
              (fun l => rev l)) as [[results|e] t] eqn:H; [|vm_compute in H; discriminate].
  exists results. split; [reflexivity|].
  intros r Hr.
  refine (proj1 (proj1
    (@results_describe_candidates plain tree no_gpu cpu_engine (default_args root) None
       (fun l => rev l) results t _ H) r Hr)).
  intros l. apply Permutation_sym, Permutation_rev.
Defined.

Lemma chunks_are_bounded_and_cover_the_file_witness :
  let file_size := Z.of_nat (length hello_file) in
  let run := FileSearchEngine._search_in_file (big_tree hello_file) no_gpu cpu_engine
               big_txt hello in
  (forall start stop, In (EvSlice big_txt start stop) (trace run) ->
     0 <= start < stop /\ stop <= file_size
     /\ stop - start <= chunk_size hello + 1 * KiB)
  /\ (outcome run = Ok false ->
      forall i, 0 <= i < file_size ->
        exists start stop, In (EvSlice big_txt start stop) (trace run)
                           /\ start <= i < stop).
Proof.
  refine (@chunks_are_bounded_and_cover_the_file plain (big_tree hello_file) no_gpu
            cpu_engine big_txt hello hello_file eq_refl eq_refl (big_tree_getsize _)
            (big_tree_open _ _) (big_tree_mmap _) _ _).
  - destruct hello_tiers as [Hlimit Hchunk].
    rewrite hello_file_size, Hlimit. unfold MiB. lia.
  - apply padded_head. lia.
Defined.

Lemma head_file_size : Z.of_nat (length head_file) = 8201.
Proof.
  unfold head_file. rewrite length_app, repeat_length.
  change (length (ascii_bytes "hello")) with 5%nat. lia.
Qed.

Lemma head_file_text : has_nul (firstn (Z.to_nat 8192) head_file) = false.
Proof.
  unfold head_file, has_nul. rewrite firstn_app, existsb_app.
  rewrite existsb_firstn_repeat by reflexivity.
  rewrite firstn_all2 by (change (length (ascii_bytes "hello")) with 5%nat; lia).
  reflexivity.
Qed.

Lemma skipn_repeat {A} (a : A) n : forall k, skipn k (repeat a n) = repeat a (n - k).
Proof.
  induction n as [|n IH]; intros [|k]; cbn [repeat skipn Nat.sub]; try reflexivity.
  apply IH.
Qed.

Lemma head_file_rest : skipn (Z.to_nat 8192) head_file = repeat x61 9.
Proof.
  unfold head_file. rewrite skipn_app.
  rewrite skipn_all2 by (change (length (ascii_bytes "hello")) with 5%nat; lia).
  change (length (ascii_bytes "hello")) with 5%nat.
  rewrite skipn_repeat. cbn [app]. apply f_equal. lia.
Qed.

Lemma hybrid_engine_skips_the_head_of_small_files_witness :
  startswith (decode_ignore head_file) (pattern hello) = true
  /\ outcome (FileSearchEngine._search_in_file (big_tree head_file) cupy gpu_engine
                big_txt hello) = Ok false.
Proof.
  split.
  - unfold head_file. rewrite decode_ascii_app by reflexivity. reflexivity.
  - rewrite (@hybrid_engine_skips_the_head_of_small_files plain (big_tree head_file) cupy
               gpu_engine (HybridSearchEngine.init cupy true) big_txt hello head_file
               eq_refl eq_refl eq_refl (big_tree_getsize _) (big_tree_open _ _)).
    + rewrite head_file_rest. vm_compute. reflexivity.
    + rewrite head_file_size. unfold MiB. lia.
    + apply head_file_text.
Defined.

Lemma cpu_engines_agree_up_to_the_threshold_witness :
  outcome (CPUsearcher._search_in_file tree a_txt hello)
  = outcome (FileSearchEngine._search_in_file tree no_gpu cpu_engine a_txt hello).
Proof.
  refine (@cpu_engines_agree_up_to_the_threshold plain tree no_gpu cpu_engine a_txt hello
            (ascii_bytes "hello world") true eq_refl eq_refl eq_refl eq_refl eq_refl
            eq_refl _ eq_refl).
  vm_compute. discriminate.
Defined.

Lemma literal_patterns_are_gpu_friendly_witness :
  GPUPatternMatcher.is_pattern_gpu_friendly
    (HybridSearchEngine.gpu_matcher (HybridSearchEngine.init cupy true))
    (pattern hello) = true.
Proof.
  refine (@literal_patterns_are_gpu_friendly
            (HybridSearchEngine.gpu_matcher (HybridSearchEngine.init cupy true))
            (pattern hello) _ _).
  - vm_compute. discriminate.
  - vm_compute. reflexivity.
Defined.

(** The walk of [project]: the files of [p] and of [p/src], hidden or not,
    and nothing of [p/.git] and [p/src/.cache]. *)
Lemma walk_of_project :
  FileSearchEngine.walk cpu_engine (lit "p") project
  = [lit "p/README"; lit "p/.hidden"; lit "p/src/main.py"].
Proof. vm_compute. reflexivity. Qed.

End MorePropertiesOnExamples.

Section HealthyDevice.
Context {rt : Runtime} (w : World) (R : Type).
Hypothesis Hcopy : forall a, cp_asarray_fault w a = None.
Hypothesis Hcompare : forall i, cp_compare_fault w i = None.

Lemma str_eqb_eq a : forall b, str_eqb a b = true <-> a = b.
Proof.
  induction a as [|x a IH]; intros [|y b]; cbn [str_eqb];
    try (split; [discriminate|discriminate]); [tauto|].
  rewrite andb_true_iff, N.eqb_eq, IH. split.
  - intros [-> ->]. reflexivity.
  - intros [= -> ->]. auto.
Qed.

Lemma range_spec start stop i : In i (range start stop) <-> start <= i < stop.
Proof.
  unfold range. rewrite range_from_spec. split.
  - intros (k & Hk & ->). lia.
  - intros H. exists (Z.to_nat (i - start)). split; lia.
Qed.

Lemma check_positions_healthy text_gpu pattern_gpu pattern_len positions :
  GPUPatternMatcher.check_positions w R text_gpu pattern_gpu pattern_len positions
  = (Ok (existsb (fun i =>
                    (Z.of_nat (length (slice text_gpu i (i + pattern_len))) =? pattern_len)
                    && str_eqb (slice text_gpu i (i + pattern_len)) pattern_gpu)
                 positions), []).
Proof.
  induction positions as [|i rest IH]; [reflexivity|].
  cbn [GPUPatternMatcher.check_positions existsb]. cbv zeta.
  destruct (_ =? _); cbn [andb orb]; [|exact IH].
  unfold GPUPatternMatcher.cp_all_equal. rewrite Hcompare.
  unfold bind, ret. 
  destruct (str_eqb _ _); cbn [orb app]; [reflexivity|].
  now rewrite IH.
Qed.

Lemma search_batches_healthy text_gpu pattern_gpu pattern_len num_positions batch_size starts :
  GPUPatternMatcher.search_batches w R text_gpu pattern_gpu pattern_len
    num_positions batch_size starts
  = (Ok (existsb (fun start_pos =>
           existsb (fun i =>
                      (Z.of_nat (length (slice text_gpu i (i + pattern_len))) =? pattern_len)
                      && str_eqb (slice text_gpu i (i + pattern_len)) pattern_gpu)
                   (range start_pos (Z.min (start_pos + batch_size) num_positions)))
           starts), []).
Proof.
  induction starts as [|start_pos rest IH]; [reflexivity|].
  cbn [GPUPatternMatcher.search_batches existsb]. cbv zeta.
  unfold GPUPatternMatcher._check_positions_batch. rewrite check_positions_healthy.
  unfold try_except, bind, ret.
  destruct (existsb _ (range _ _)); cbn [orb app]; [reflexivity|].
  now rewrite IH.
Qed.

Lemma stands_at_found (text pattern : list N) i :
  0 <= i ->
  str_eqb (slice text i (i + Z.of_nat (length pattern))) pattern = true ->
  exists before after, text = before ++ pattern ++ after.
Proof.
  intros Hi H. apply str_eqb_eq in H. unfold slice in H.
  replace (i + Z.of_nat (length pattern) - i) with (Z.of_nat (length pattern)) in H by lia.
  rewrite Nat2Z.id in H.
  exists (firstn (Z.to_nat i) text), (skipn (length pattern) (skipn (Z.to_nat i) text)).
  rewrite <- (firstn_skipn (Z.to_nat i) text) at 1. apply f_equal.
  rewrite <- (firstn_skipn (length pattern) (skipn (Z.to_nat i) text)) at 1.
  now rewrite H.
Qed.

Lemma stands_at_position (before pattern after : list N) :
  let text := before ++ pattern ++ after in
  let i := Z.of_nat (length before) in
  let window := slice text i (i + Z.of_nat (length pattern)) in
  (Z.of_nat (length window) =? Z.of_nat (length pattern)) && str_eqb window pattern = true.
Proof.
  cbv zeta. unfold slice.
  replace (Z.of_nat (length before) + Z.of_nat (length pattern) - Z.of_nat (length before))
    with (Z.of_nat (length pattern)) by lia.
  rewrite !Nat2Z.id, skipn_app, Nat.sub_diag, skipn_all. cbn [skipn app].
  rewrite firstn_app, Nat.sub_diag, firstn_all. cbn [firstn]. rewrite app_nil_r.
  apply andb_true_intro. split; [apply Z.eqb_refl|now apply str_eqb_eq].
Qed.

(** X12. With a device that works, the literal search of CuPy answers
    whether the UTF-8 bytes of the pattern occur in the UTF-8 bytes of the
    text: the batches of ten million positions leave no position out. *)
Theorem healthy_device_finds_the_encoded_substring :
  forall (text substring : str) (text_array pattern_array : list N),
    utf8_encode text = Ok text_array ->
    utf8_encode substring = Ok pattern_array ->
    GPUPatternMatcher._literal_search_gpu w R text substring
    = (Ok (str_in pattern_array text_array), []).
Proof.
  intros text substring text_array pattern_array Ht Hp.
  unfold GPUPatternMatcher._literal_search_gpu, GPUPatternMatcher.cp_asarray.
  rewrite Ht, Hp. unfold bind, lift, ret, try_except. cbn [app].
  rewrite !Hcopy. cbn [app]. cbv zeta.
  set (plen := Z.of_nat (length pattern_array)).
  set (tlen := Z.of_nat (length text_array)).
  destruct (Z.gtb_spec plen tlen) as [Hgt|Hle].
  - f_equal. f_equal. symmetry.
    destruct (str_in pattern_array text_array) eqn:Hin; [|reflexivity]. exfalso.
    apply str_in_spec in Hin as (before & after & Heq).
    subst plen tlen. rewrite Heq, !length_app in Hgt. lia.
  - rewrite search_batches_healthy. f_equal. f_equal.
    apply eq_true_iff_eq. rewrite existsb_exists, str_in_spec. split.
    + intros (start_pos & Hs & Hex).
      apply existsb_exists in Hex as (i & Hi & Hm).
      apply range0_spec in Hs; [|lia|lia]. destruct Hs as (k & Hk & -> & _).
      apply range_spec in Hi. apply andb_true_iff in Hm as [_ Hm].
      apply stands_at_found in Hm; [exact Hm|nia].
    + intros (before & after & Heq).
      set (i := Z.of_nat (length before)).
      assert (Hi : 0 <= i < tlen - plen + 1).
      { subst i plen tlen. rewrite Heq, !length_app. lia. }
      exists (i / 10000000 * 10000000). split.
      * apply range0_spec; [lia|lia|]. exists (i / 10000000).
        pose proof (Z.mul_div_le i 10000000 ltac:(lia)).
        repeat split; [apply Z.div_pos; lia|lia].
      * apply existsb_exists. exists i. split.
        -- apply range_spec.
           pose proof (Z.mul_div_le i 10000000 ltac:(lia)).
           pose proof (Z.mul_succ_div_gt i 10000000 ltac:(lia)).
           unfold Z.succ in *. lia.
        -- subst i plen. rewrite Heq. apply stands_at_position.
Qed.

End HealthyDevice.

Section HealthyDeviceOnExamples.
Import Example.

Lemma healthy_device_finds_the_encoded_substring_witness :
  GPUPatternMatcher._literal_search_gpu tree SearchResult (lit "say hello") (lit "hello")
  = (Ok true, []).
Proof.
  exact (@healthy_device_finds_the_encoded_substring tree SearchResult
           (fun _ => eq_refl) (fun _ => eq_refl) (lit "say hello") (lit "hello")
           _ _ eq_refl eq_refl).
Defined.

End HealthyDeviceOnExamples.

Section HealthyKernel.
Context {rt : Runtime} (w : World) (libs : GpuLibs) (R : Type).
Hypothesis Hdevice : forall a, cuda_to_device_fault w a = None.
Hypothesis Hkernel : cuda_kernel_fault w = None.

Lemma int32_small n : -2147483648 <= n < 2147483648 -> int32 n = n.
Proof. intros H. unfold int32. rewrite Z.mod_small; lia. Qed.

(** The counter of the kernel does not wrap on a grid of fewer than 2^31
    threads: it is positive exactly when some thread found the pattern. *)
Lemma kernel_counter (kernel : Z -> Z) grid : forall result,
  (forall pos, kernel pos = 0 \/ kernel pos = 1) ->
  0 <= result ->
  result + Z.of_nat (length grid) < 2147483648 ->
  let final := fold_left (fun result pos => int32 (result + kernel pos)) grid result in
  result <= final <= result + Z.of_nat (length grid)
  /\ (final >? 0) = (result >? 0) || existsb (fun pos => kernel pos =? 1) grid.
Proof.
  induction grid as [|pos grid IH]; intros result Hk Hr Hlen; cbv zeta.
  - cbn [fold_left existsb length]. rewrite orb_false_r. split; [lia|reflexivity].
  - cbn [fold_left existsb length]. cbn [length] in Hlen.
    assert (Hstep : int32 (result + kernel pos) = result + kernel pos).
    { apply int32_small. destruct (Hk pos) as [-> | ->]; lia. }
    rewrite Hstep.
    destruct (IH (result + kernel pos) Hk) as [Hb Hp].
    + destruct (Hk pos) as [-> | ->]; lia.
    + destruct (Hk pos) as [-> | ->]; lia.
    + cbv zeta in Hb, Hp. split.
      * destruct (Hk pos) as [H | H]; lia.
      * rewrite Hp. destruct (Hk pos) as [H | H]; rewrite H.
        -- rewrite Z.add_0_r. reflexivity.
        -- change (1 =? 1) with true. cbn [orb]. rewrite orb_true_r.
           destruct (Z.gtb_spec (result + 1) 0); [reflexivity|lia].
Qed.

Lemma kernel_thread_bit text pattern text_len pattern_len pos :
  GPUPatternMatcher._cuda_search_kernel_impl text pattern text_len pattern_len pos = 0
  \/ GPUPatternMatcher._cuda_search_kernel_impl text pattern text_len pattern_len pos = 1.
Proof.
  unfold GPUPatternMatcher._cuda_search_kernel_impl.
  destruct (_ <? _); [|now left]. destruct (forallb _ _); [now right|now left].
Qed.

(** The thread of position [pos] finds the pattern exactly when the pattern
    stands at [pos] in the text. *)
Lemma kernel_thread_found (text pattern : list N) pos :
  0 <= pos ->
  pos + Z.of_nat (length pattern) <= Z.of_nat (length text) ->
  (forallb (fun i => N.eqb (nth (Z.to_nat (pos + i)) text 0%N)
                           (nth (Z.to_nat i) pattern 0%N))
           (range 0 (Z.of_nat (length pattern))) = true
   <-> exists before after,
         text = before ++ pattern ++ after /\ Z.of_nat (length before) = pos).
Proof.
  intros Hpos Hfit. rewrite forallb_forall. split.
  - intros H.
    assert (Heq : firstn (length pattern) (skipn (Z.to_nat pos) text) = pattern).
    { apply nth_ext with (d := 0%N) (d' := 0%N).
      - rewrite length_firstn, length_skipn. lia.
      - intros n Hn. rewrite length_firstn, length_skipn in Hn.
        rewrite nth_firstn, nth_skipn.
        destruct (Nat.ltb_spec n (length pattern)); [|lia].
        specialize (H (Z.of_nat n)). rewrite range_spec in H.
        specialize (H ltac:(lia)). apply N.eqb_eq in H.
        rewrite Nat2Z.id in H. rewrite <- H. f_equal. lia. }
    exists (firstn (Z.to_nat pos) text), (skipn (length pattern) (skipn (Z.to_nat pos) text)).
    split.
    + rewrite <- (firstn_skipn (Z.to_nat pos) text) at 1. apply f_equal.
      rewrite <- (firstn_skipn (length pattern) (skipn (Z.to_nat pos) text)) at 1.
      now rewrite Heq.
    + rewrite length_firstn. lia.
  - intros (before & after & -> & <-) i Hi. apply range_spec in Hi.
    apply N.eqb_eq.
    replace (Z.to_nat (Z.of_nat (length before) + i))
      with (length before + Z.to_nat i)%nat by lia.
    rewrite app_nth2_plus. apply app_nth1. lia.
Qed.

(** X13. With a device that works, a positive number of threads per block
    and a text short enough for the counter, [_run_cuda_kernel] answers
    whether the pattern occurs in the text: the grid has a thread for every
    position, and the counter is positive exactly when one of them found the
    pattern. *)
Theorem healthy_kernel_finds_the_pattern :
  forall (m : GPUPatternMatcher.t) (text pattern : list N),
    USE_NUMBA libs = true ->
    0 < threads_per_block (GPUPatternMatcher.config m) ->
    Z.of_nat (length text) + threads_per_block (GPUPatternMatcher.config m) < 2147483648 ->
    GPUPatternMatcher._run_cuda_kernel w libs R m text pattern
    = (Ok (str_in pattern text), []).
Proof.
  intros m text pattern Hnumba Hthreads Hsmall.
  unfold GPUPatternMatcher._run_cuda_kernel. rewrite Hnumba. cbn [negb]. cbv zeta.
  set (plen := Z.of_nat (length pattern)).
  set (tlen := Z.of_nat (length text)).
  set (T := threads_per_block (GPUPatternMatcher.config m)) in *.
  destruct (Z.gtb_spec plen tlen) as [Hgt|Hle].
  - f_equal. f_equal. symmetry.
    destruct (str_in pattern text) eqn:Hin; [|reflexivity]. exfalso.
    apply str_in_spec in Hin as (before & after & Heq).
    subst plen tlen. rewrite Heq, !length_app in Hgt. lia.
  - unfold GPUPatternMatcher.cuda_to_device, GPUPatternMatcher.cuda_launch, floordiv.
    rewrite !Hdevice, Hkernel.
    destruct (Z.eqb_spec T 0) as [H0|_]; [lia|].
    unfold bind, lift, ret, try_except. cbn [app].
    set (num := tlen - plen + 1).
    set (blocks := (num + T - 1) / T).
    assert (Hgrid : num <= blocks * T <= num + T - 1).
    { pose proof (Z.mul_div_le (num + T - 1) T ltac:(lia)).
      pose proof (Z.mul_succ_div_gt (num + T - 1) T ltac:(lia)).
      subst blocks. unfold Z.succ in *. lia. }
    destruct (@kernel_counter
                (GPUPatternMatcher._cuda_search_kernel_impl text pattern tlen plen)
                (range 0 (blocks * T)) 0) as [_ Hpos].
    + intros pos. apply kernel_thread_bit.
    + lia.
    + unfold range. assert (Hl : forall n s, length (range_from n s 1) = n)
        by (induction n; intros; cbn [range_from length]; auto).
      rewrite Hl. subst num. lia.
    + cbv zeta in Hpos. rewrite Hpos. cbn [Z.gtb Z.compare orb].
      f_equal. f_equal. apply eq_true_iff_eq.
      rewrite existsb_exists, str_in_spec. split.
      * intros (pos & Hin & Hone). apply range_spec in Hin.
        unfold GPUPatternMatcher._cuda_search_kernel_impl in Hone.
        destruct (Z.ltb_spec pos (tlen - plen + 1)); [|discriminate].
        destruct (forallb _ _) eqn:Hall; [|discriminate].
        apply kernel_thread_found in Hall as (before & after & Heq & _);
          [eauto|lia|subst plen tlen; lia].
      * intros (before & after & Heq).
        exists (Z.of_nat (length before)).
        assert (Hb : 0 <= Z.of_nat (length before) < num).
        { subst num plen tlen. rewrite Heq, !length_app. lia. }
        split; [apply range_spec; lia|].
        unfold GPUPatternMatcher._cuda_search_kernel_impl.
        destruct (Z.ltb_spec (Z.of_nat (length before)) (tlen - plen + 1));
          [|subst num; lia].
        replace (forallb _ _) with true; [reflexivity|]. symmetry.
        apply kernel_thread_found; [lia|subst plen tlen; lia|].
        exists before, after. auto.
Qed.

End HealthyKernel.

Section HealthyKernelOnExamples.
Import Example.

Lemma healthy_kernel_finds_the_pattern_witness :
  GPUPatternMatcher._run_cuda_kernel tree numba SearchResult
    (HybridSearchEngine.gpu_matcher (HybridSearchEngine.init numba true))
    (lit "say hello") (lit "hello")
  = (Ok true, []).
Proof.
  refine (@healthy_kernel_finds_the_pattern tree numba SearchResult
            (fun _ => eq_refl) eq_refl
            (HybridSearchEngine.gpu_matcher (HybridSearchEngine.init numba true))
            (lit "say hello") (lit "hello") eq_refl _ _);
    vm_compute; reflexivity.
Defined.

End HealthyKernelOnExamples.
